(** * Instagram scraper: a shallow embedding of the fetch pipeline

    The development follows the layout of the Python package:
    - [PyStr]    the string built-ins the code relies on ([in], [lower],
                 [strip], [endswith], [replace]);
    - [PyNum]    [int(str)], [float(str)] and the binary64 arithmetic of
                 the count parser;
    - [Retry]    [scraper/utils/retry.py]: [RetryConfig], [calculate_delay],
                 [with_retry];
    - [Backoff]  [calculate_delay] computed in binary64;
    - [Config]   [scraper/config.py]: endpoints, [PATTERNS],
                 [FALLBACK_VALUES], [BLOCK_PATTERNS];
    - [PyVal]    decoded JSON values with the dictionary, list and string
                 operations the parsers apply to them, and the [Host]
                 interface of library behaviour;
    - [Models]   [scraper/models.py]: the records and [PostData.__init__];
    - [Parsers]  [scraper/parsers.py]: [TokenDiscovery], [ProfileParser],
                 [PostParser];
    - [Client]   [scraper/client.py]: [_check_for_blocks], [scrape_full];
    - [Fixtures] sample pages, items and feeds.

    Conventions.  A Python [str] is a Rocq [string]; each [ascii] stands for
    one code point in the range U+0000..U+00FF, so [length] is Python's
    [len] and the case and white-space tables below are the Unicode ones
    restricted to that range.  A function that may raise returns a
    [result]; the caught / uncaught distinction of every [try] block is
    written out where the source has it.  Network traffic is scripted:
    the retry wrapper and the pagination loop take the outcomes of the
    calls they make as an argument. *)

From Stdlib Require Import ZArith QArith Qminmax Qabs Qpower Qround String Ascii List Bool Lia.
From Stdlib Require DecimalString.
Import ListNotations.

Set Implicit Arguments.

(* ================================================================== *)
(** ** Exceptions and results *)

(** The exception classes the package raises or catches.  Every
    constructor carries the message that [str(e)] shows, except
    [BlockDetectedError], whose message is assembled by its [__init__]. *)
Inductive exn : Type :=
| HTTPStatusError (status : Z) (msg : string)
| ConnectError (msg : string)
| TimeoutException (msg : string)
| RetryableError (msg : string)
| BlockDetectedError (block_type : string) (message : string)
| ParserError (msg : string)
| ValueError (msg : string)
| OverflowError (msg : string)
| TypeError (msg : string)
| AttributeError (msg : string)
| KeyError (msg : string)
| ValidationError (msg : string).

Inductive result (A : Type) : Type :=
| Ret (a : A)
| Raise (e : exn).

Arguments Ret {A} a.
Arguments Raise {A} e.

Definition bind {A B : Type} (m : result A) (k : A -> result B) : result B :=
  match m with
  | Ret a => k a
  | Raise e => Raise e
  end.

Declare Scope py_scope.
Delimit Scope py_scope with py.
Notation "x <- m ;; k" := (bind m (fun x => k))
  (at level 61, m at next level, right associativity) : py_scope.

Definition is_ret {A : Type} (m : result A) : bool :=
  match m with Ret _ => true | Raise _ => false end.

(* ================================================================== *)
(** ** String built-ins *)

Module PyStr.

Local Open Scope string_scope.
Local Open Scope Z_scope.

Definition code (c : ascii) : Z := Z.of_nat (nat_of_ascii c).

Definition chr (z : Z) : ascii := ascii_of_nat (Z.to_nat z).

(** The double-quote character, and a string wrapped in a pair of them. *)
Definition dquote : string := String (chr 34) EmptyString.

Definition quoted (s : string) : string := dquote ++ s ++ dquote.

(** [needle in hay] *)
Fixpoint contains (needle hay : string) : bool :=
  prefix needle hay ||
  match hay with
  | EmptyString => false
  | String _ rest => contains needle rest
  end.

(** The relation [contains] decides: [needle] occurs inside [hay]. *)
Definition Substring (needle hay : string) : Prop :=
  exists pre post : string, hay = pre ++ needle ++ post.

(** [str.lower] on U+0000..U+00FF: A-Z, and the Latin-1 capitals
    U+00C0..U+00DE without the multiplication sign U+00D7. *)
Definition is_upper (c : ascii) : bool :=
  let n := code c in
  ((65 <=? n) && (n <=? 90)) ||
  ((192 <=? n) && (n <=? 222) && negb (n =? 215)).

Definition lower_char (c : ascii) : ascii :=
  if is_upper c then chr (code c + 32) else c.

Fixpoint lower (s : string) : string :=
  match s with
  | EmptyString => EmptyString
  | String c rest => String (lower_char c) (lower rest)
  end.

(** White space as [str.strip] sees it ([str.isspace]). *)
Definition is_space (c : ascii) : bool :=
  let n := code c in
  ((9 <=? n) && (n <=? 13)) || ((28 <=? n) && (n <=? 32)) ||
  (n =? 133) || (n =? 160).

(** White space as the numeric constructors [int] and [float] see it:
    the separators U+001C..U+001F are not skipped there. *)
Definition is_num_space (c : ascii) : bool :=
  let n := code c in
  ((9 <=? n) && (n <=? 13)) || (n =? 32) || (n =? 133) || (n =? 160).

Definition is_digit (c : ascii) : bool :=
  let n := code c in (48 <=? n) && (n <=? 57).

Definition digit_val (c : ascii) : Z := code c - 48.

Fixpoint lstrip_by (sp : ascii -> bool) (l : list ascii) : list ascii :=
  match l with
  | c :: rest => if sp c then lstrip_by sp rest else l
  | [] => []
  end.

Definition strip_by (sp : ascii -> bool) (l : list ascii) : list ascii :=
  rev (lstrip_by sp (rev (lstrip_by sp l))).

(** [s.strip()] *)
Definition strip (s : string) : string :=
  string_of_list_ascii (strip_by is_space (list_ascii_of_string s)).

(** [s.replace(c, '')] for a one-character [c] *)
Fixpoint remove_char (c : ascii) (s : string) : string :=
  match s with
  | EmptyString => EmptyString
  | String d rest =>
      if Ascii.eqb c d then remove_char c rest
      else String d (remove_char c rest)
  end.

(** [s.endswith(suffix)] *)
Definition endswith (s suffix : string) : bool :=
  let n := String.length s in
  let k := String.length suffix in
  (k <=? n)%nat && String.eqb (substring (n - k) k s) suffix.

(** [s[:-1]] *)
Definition drop_last (s : string) : string :=
  substring 0 (String.length s - 1) s.

(** [not s] *)
Definition is_empty (s : string) : bool :=
  match s with EmptyString => true | _ => false end.

(** [str(n)] for an [int]. *)
Definition str_of_Z (z : Z) : string :=
  DecimalString.NilZero.string_of_int (Z.to_int z).

End PyStr.

(* ================================================================== *)
(** ** Numeric built-ins: [int(str)], [float(str)], float product, [int(float)] *)

Module PyNum.

Import PyStr.
Local Open Scope Z_scope.

(** A Python float: binary64.  A finite value is carried as the exact
    rational it denotes; the sign of zero is not tracked (nothing here
    observes it). *)
Inductive pyfloat : Type :=
| FNan
| FInf (negative : bool)
| FFin (q : Q).

(** Nearest integer, ties to even, of a non-negative rational. *)
Definition round_half_even (q : Q) : Z :=
  let n := Qnum q in
  let d := Z.pos (Qden q) in
  let fl := n / d in
  let r := n mod d in
  match (2 * r ?= d) with
  | Lt => fl
  | Gt => fl + 1
  | Eq => if Z.even fl then fl else fl + 1
  end.

(** [floor (log2 q)] for [q > 0]. *)
Definition floor_log2 (q : Q) : Z :=
  let e0 := Z.log2 (Qnum q) - Z.log2 (Z.pos (Qden q)) in
  if Qle_bool (Qpower 2 e0) q then e0 else e0 - 1.

(** Round-to-nearest-even of an exact rational to binary64: 53
    significant bits, least exponent -1074, overflow to infinity. *)
Definition b64_round (q : Q) : pyfloat :=
  if Qeq_bool q 0 then FFin 0
  else
    let neg := negb (Qle_bool 0 q) in
    let aq := Qabs.Qabs q in
    let p := Z.max (floor_log2 aq - 52) (-1074) in
    let m := round_half_even (Qred (aq / Qpower 2 p)) in
    let v := Qred (inject_Z m * Qpower 2 p) in
    if Qle_bool (Qpower 2 1024) v then FInf neg
    else FFin (if neg then Qred (- v) else v).

(** [a * b] on floats. *)
Definition fmul (a b : pyfloat) : pyfloat :=
  match a, b with
  | FNan, _ | _, FNan => FNan
  | FInf s, FInf t => FInf (xorb s t)
  | FInf s, FFin y =>
      if Qeq_bool y 0 then FNan else FInf (xorb s (negb (Qle_bool 0 y)))
  | FFin x, FInf t =>
      if Qeq_bool x 0 then FNan else FInf (xorb t (negb (Qle_bool 0 x)))
  | FFin x, FFin y => b64_round (x * y)
  end.

(** [float(n)] for an [int] small enough not to overflow. *)
Definition float_of_Z (n : Z) : pyfloat := b64_round (inject_Z n).

(** [int(x)] for a float: truncation toward zero. *)
Definition int_of_float (x : pyfloat) : result Z :=
  match x with
  | FNan => Raise (ValueError "cannot convert float NaN to integer")
  | FInf _ => Raise (OverflowError "cannot convert float infinity to integer")
  | FFin q => Ret (Z.quot (Qnum q) (Z.pos (Qden q)))
  end.

(** A digit group [digit (["_"] digit)*], read after its first digit:
    the value so far, the number of digits, and what is left. *)
Fixpoint digits_from (acc : Z) (n : nat) (l : list ascii)
  : Z * nat * list ascii :=
  match l with
  | c :: rest =>
      if is_digit c then digits_from (10 * acc + digit_val c) (S n) rest
      else if Ascii.eqb c "_" then
        match rest with
        | d :: rest' =>
            if is_digit d
            then digits_from (10 * acc + digit_val d) (S n) rest'
            else (acc, n, l)
        | [] => (acc, n, l)
        end
      else (acc, n, l)
  | [] => (acc, n, [])
  end.

Definition digitpart (l : list ascii) : option (Z * nat * list ascii) :=
  match l with
  | c :: rest =>
      if is_digit c then Some (digits_from (digit_val c) 1 rest) else None
  | [] => None
  end.

(** An optional sign: [true] for a minus. *)
Definition sign_of (l : list ascii) : bool * list ascii :=
  match l with
  | c :: rest =>
      if Ascii.eqb c "-" then (true, rest)
      else if Ascii.eqb c "+" then (false, rest)
      else (false, l)
  | [] => (false, [])
  end.

Definition num_strip (s : string) : list ascii :=
  strip_by is_num_space (list_ascii_of_string s).

(** [int(s)], base ten; [None] is [ValueError].  A string of more
    than 4300 digits is refused: the limit of integer string conversion,
    at its default. *)
Definition int_of_str (s : string) : option Z :=
  let (neg, l) := sign_of (num_strip s) in
  match digitpart l with
  | Some (v, n, []) =>
      if (4300 <? n)%nat then None else Some (if neg then - v else v)
  | _ => None
  end.

(** The exponent part [("e" | "E") ["+" | "-"] digitpart], if any. *)
Definition exponent_of (l : list ascii) : option (Z * list ascii) :=
  match l with
  | c :: rest =>
      if Ascii.eqb c "e" || Ascii.eqb c "E" then
        let (neg, l') := sign_of rest in
        match digitpart l' with
        | Some (v, _, l'') => Some (if neg then - v else v, l'')
        | None => None
        end
      else Some (0, l)
  | [] => Some (0, [])
  end.

(** The mantissa [[digitpart] ["." [digitpart]]] with at least one digit
    group: its digits read as one integer, and the number of digits
    after the point. *)
Definition mantissa_of (l : list ascii) : option (Z * nat * list ascii) :=
  let after_point (ip : option Z) (l1 : list ascii) :=
    match l1 with
    | c :: rest =>
        if Ascii.eqb c "." then
          match digitpart rest, ip with
          | Some (f, k, l2), Some i => Some (i * 10 ^ Z.of_nat k + f, k, l2)
          | Some (f, k, l2), None => Some (f, k, l2)
          | None, Some i => Some (i, O, rest)
          | None, None => None
          end
        else match ip with Some i => Some (i, O, l1) | None => None end
    | [] => match ip with Some i => Some (i, O, []) | None => None end
    end in
  match digitpart l with
  | Some (i, _, l1) => after_point (Some i) l1
  | None => after_point None l
  end.

(** [float(s)]; [None] is [ValueError]. *)
Definition float_of_str (s : string) : option pyfloat :=
  let (neg, l) := sign_of (num_strip s) in
  let word := lower (string_of_list_ascii l) in
  if String.eqb word "inf" || String.eqb word "infinity" then Some (FInf neg)
  else if String.eqb word "nan" then Some FNan
  else
    match mantissa_of l with
    | Some (m, k, l1) =>
        match exponent_of l1 with
        | Some (e, []) =>
            let q := (inject_Z m * Qpower 10 (e - Z.of_nat k))%Q in
            Some (b64_round (if neg then Qopp q else q))
        | _ => None
        end
    | None => None
    end.

End PyNum.

(* ================================================================== *)
(** ** scraper/utils/retry.py *)

Module Retry.

Local Open Scope Q_scope.

(** [RetryConfig].  Delays are Python floats.  This module reads a delay
    as the rational number it denotes and the operations on delays as
    exact: rounding, overflow and the non-finite floats are left out of
    the delay arithmetic here, where only the number of the delays and
    the formula behind each matter; [Backoff] computes [calculate_delay]
    in binary64. *)
Record RetryConfig : Type := mkRetryConfig {
  max_attempts : Z;
  base_delay : Q;
  max_delay : Q;
  exponential_base : Q;
  jitter : bool;
  retry_on_status : list Z
}.

(** [RetryConfig()] *)
Definition default_config : RetryConfig :=
  {| max_attempts := 5;
     base_delay := 2;
     max_delay := 300;
     exponential_base := 2;
     jitter := true;
     retry_on_status := [429; 500; 502; 503; 504]%Z |}.

(** [RetryConfig(max_attempts=n)] *)
Definition config_with_attempts (n : Z) : RetryConfig :=
  {| max_attempts := n;
     base_delay := base_delay default_config;
     max_delay := max_delay default_config;
     exponential_base := exponential_base default_config;
     jitter := jitter default_config;
     retry_on_status := retry_on_status default_config |}.

(** [response_status == 429] for an [Optional[int]] *)
Definition is_rate_limited (response_status : option Z) : bool :=
  match response_status with
  | Some s => (s =? 429)%Z
  | None => false
  end.

(** [random.uniform(a, b)] is [a + (b - a) * random()]; [u] is the draw
    of [random()], a number of the interval [0, 1). *)
Definition uniform (a b u : Q) : Q := a + (b - a) * u.

(** The value of [delay] when [calculate_delay] reaches its jitter step:
    the exponential backoff, capped at [max_delay]. *)
Definition capped_delay (attempt : nat) (config : RetryConfig)
           (response_status : option Z) : Q :=
  let base :=
    if is_rate_limited response_status
    then base_delay config * 5
    else base_delay config in
  let delay := base * exponential_base config ^ Z.of_nat attempt in
  Qmin delay (max_delay config).

Definition calculate_delay (attempt : nat) (config : RetryConfig)
           (response_status : option Z) (u : Q) : Q :=
  let delay := capped_delay attempt config response_status in
  let delay :=
    if jitter config then
      let jitter_range := delay * (1 # 4) in
      delay + uniform (- jitter_range) jitter_range u
    else delay in
  Qmax delay (1 # 10).

(** What one call of the decorated function left behind: its outcome,
    the delays handed to [asyncio.sleep] in order, and how many times
    the wrapped function was invoked. *)
Record run (T : Type) : Type := mkRun {
  outcome : result T;
  slept : list Q;
  calls : nat
}.

Section Wrapper.

Variable T : Type.
Variable config : RetryConfig.
(** [func k] is what the [k]-th invocation of the wrapped coroutine
    does; [rnd k] is the [random()] draw of the delay after it. *)
Variable func : nat -> result T.
Variable rnd : nat -> Q.

(** [status in config.retry_on_status] *)
Definition retryable_status (status : Z) : bool :=
  existsb (Z.eqb status) (retry_on_status config).

(** The body of [for attempt in range(config.max_attempts)], and the
    [raise last_exception] after it. *)
Fixpoint attempts (todo : list nat) (last_exception : option exn)
         (sl : list Q) (n : nat) : run T :=
  match todo with
  | [] =>
      mkRun
        (match last_exception with
         | Some e => Raise e
         | None => Raise (TypeError "exceptions must derive from BaseException")
         end) sl n
  | attempt :: rest =>
      match func attempt with
      | Ret v => mkRun (Ret v) sl (S n)
      | Raise e =>
          let reraise := mkRun (Raise e) sl (S n) in
          let retry (status : option Z) :=
            if (Z.of_nat attempt <? max_attempts config - 1)%Z
            then
              attempts rest (Some e)
                (sl ++ [calculate_delay attempt config status (rnd attempt)])
                (S n)
            else reraise in
          match e with
          | HTTPStatusError status _ =>
              if negb (retryable_status status) then reraise
              else retry (Some status)
          | ConnectError _ | TimeoutException _ => retry None
          | RetryableError _ => retry None
          | _ => reraise
          end
      end
  end.

(** [range(config.max_attempts)] *)
Definition attempt_range : list nat :=
  seq 0 (Z.to_nat (max_attempts config)).

(** [with_retry(config)(func)(...)] *)
Definition with_retry : run T := attempts attempt_range None [] 0.

(** The failures after which the wrapper goes on to another attempt
    when one is left. *)
Definition is_retryable (e : exn) : bool :=
  match e with
  | HTTPStatusError status _ => retryable_status status
  | ConnectError _ | TimeoutException _ | RetryableError _ => true
  | _ => false
  end.


End Wrapper.

End Retry.

(* ================================================================== *)
(** ** scraper/config.py *)

Module Config.

Import PyStr.
Local Open Scope string_scope.

Definition INSTAGRAM_BASE_URL : string := "https://www.instagram.com".

(** Every entry of [PATTERNS] is a regular expression of one shape: a
    literal text, the group [(\d+)], and a closing double quote.  An
    entry is kept as its literal text. *)
Record patterns : Type := mkPatterns {
  app_id : string;
  app_id_alt : string;
  asbd_id : string
}.

Definition PATTERNS : patterns :=
  {| app_id := quoted "X-IG-App-ID" ++ ":" ++ dquote;
     app_id_alt := "{" ++ quoted "APP_ID" ++ ":" ++ dquote;
     asbd_id := quoted "X-ASBD-ID" ++ ":" ++ dquote |}.

(** The keys of [PATTERNS], in the order of the table. *)
Definition PATTERNS_items : list (string * string) :=
  [ ("app_id", app_id PATTERNS);
    ("app_id_alt", app_id_alt PATTERNS);
    ("asbd_id", asbd_id PATTERNS) ].

Record fallback_values : Type := mkFallback {
  fallback_app_id : string;
  fallback_asbd_id : string
}.

Definition FALLBACK_VALUES : fallback_values :=
  {| fallback_app_id := "936619743392459";
     fallback_asbd_id := "129477" |}.

(** [BLOCK_PATTERNS], in the insertion order its [items()] iterates. *)
Definition BLOCK_PATTERNS : list (string * list string) :=
  [ ("login_required",
      [ "Login required";
        "Please wait a few minutes before you try again" ]);
    ("challenge_required", [ "checkpoint_required" ]);
    ("not_found", [ "Page not found"; "Sorry, this page isn" ]);
    ("rate_limited", [ "Please wait a few minutes"; "rate limit" ]) ].

(** [ScraperConfig]: the one field [scrape_full] reads. *)
Record ScraperConfig : Type := mkScraperConfig {
  max_posts : option Z
}.

Definition default_ScraperConfig : ScraperConfig :=
  {| max_posts := None |}.

End Config.

(* ================================================================== *)
(** ** Decoded JSON: the Python values the feed API hands to the parsers *)

Module PyVal.

Import PyStr PyNum.
Local Open Scope string_scope.

(** What [response.json()] yields.  A [dict] is kept as its items in
    insertion order, with distinct keys. *)
#[local] Set Warnings "-register-all".
Inductive json : Type :=
| JNull
| JBool (b : bool)
| JInt (z : Z)
| JFloat (f : pyfloat)
| JStr (s : string)
| JArr (l : list json)
| JObj (d : list (string * json)).
#[local] Set Warnings "register-all".

(** [bool(v)] *)
Definition truthy (v : json) : bool :=
  match v with
  | JNull => false
  | JBool b => b
  | JInt z => negb (z =? 0)%Z
  | JFloat (FFin q) => negb (Qeq_bool q 0)
  | JFloat _ => true
  | JStr s => negb (is_empty s)
  | JArr l => match l with [] => false | _ => true end
  | JObj d => match d with [] => false | _ => true end
  end.

Definition is_dict (v : json) : bool :=
  match v with JObj _ => true | _ => false end.

(** [v == n] for an [int] literal [n] *)
Definition eq_int (v : json) (n : Z) : bool :=
  match v with
  | JInt z => (z =? n)%Z
  | JBool b => ((if b then 1 else 0) =? n)%Z
  | JFloat (FFin q) => Qeq_bool q (inject_Z n)
  | _ => false
  end.

(** [v == s] for a [str] literal [s] *)
Definition eq_str (v : json) (s : string) : bool :=
  match v with
  | JStr t => String.eqb t s
  | _ => false
  end.

Fixpoint lookup (d : list (string * json)) (k : string) : option json :=
  match d with
  | [] => None
  | (k', v) :: rest => if String.eqb k' k then Some v else lookup rest k
  end.

(** [type(v).__name__], as the messages of [TypeError] and
    [AttributeError] quote it. *)
Definition type_name (v : json) : string :=
  match v with
  | JNull => "NoneType"
  | JBool _ => "bool"
  | JInt _ => "int"
  | JFloat _ => "float"
  | JStr _ => "str"
  | JArr _ => "list"
  | JObj _ => "dict"
  end.

(** [d.get(k, default)] on a [dict] *)
Definition dict_get (d : list (string * json)) (k : string) (default : json)
  : json :=
  match lookup d k with
  | Some x => x
  | None => default
  end.

(** [v.get(k, default)]: only a [dict] has the method. *)
Definition get (v : json) (k : string) (default : json) : result json :=
  match v with
  | JObj d => Ret (dict_get d k default)
  | _ =>
      Raise (AttributeError
               ("'" ++ type_name v ++ "' object has no attribute 'get'"))
  end.

(** [k in v] for a [str] literal [k] *)
Definition key_in (k : string) (v : json) : result bool :=
  match v with
  | JObj d => Ret (match lookup d k with Some _ => true | None => false end)
  | JStr s => Ret (contains k s)
  | JArr l => Ret (existsb (fun x => eq_str x k) l)
  | _ =>
      Raise (TypeError
               ("argument of type '" ++ type_name v ++ "' is not iterable"))
  end.

(** [v[k]] for a [str] literal [k] *)
Definition subscript (v : json) (k : string) : result json :=
  match v with
  | JObj d =>
      match lookup d k with
      | Some x => Ret x
      | None => Raise (KeyError ("'" ++ k ++ "'"))
      end
  | JStr _ | JArr _ => Raise (TypeError "indices must be integers")
  | _ => Raise (TypeError "object is not subscriptable")
  end.

(** [v[0]] *)
Definition index0 (v : json) : result json :=
  match v with
  | JArr (x :: _) => Ret x
  | JStr (String c _) => Ret (JStr (String c EmptyString))
  | JArr [] | JStr EmptyString => Raise (KeyError "index out of range")
  | JObj _ => Raise (KeyError "0")
  | _ => Raise (TypeError "object is not subscriptable")
  end.

Fixpoint chars (s : string) : list json :=
  match s with
  | EmptyString => []
  | String c rest => JStr (String c EmptyString) :: chars rest
  end.

(** The elements [for x in v] goes through. *)
Definition iter (v : json) : result (list json) :=
  match v with
  | JArr l => Ret l
  | JStr s => Ret (chars s)
  | JObj d => Ret (map (fun kv => JStr (fst kv)) d)
  | _ => Raise (TypeError ("'" ++ type_name v ++ "' object is not iterable"))
  end.

(** A naive UTC [datetime], named by the POSIX time it stands for. *)
Inductive datetime : Type := utc (seconds : Z).

(** The library behaviour the package leans on without fixing it:
    [str(v)], the coercions pydantic applies to a value offered to a
    field of type [str], [int], [float] or [bool], and the range of
    time stamps [datetime.utcfromtimestamp] accepts.  [None] of a
    coercion is a [ValidationError]. *)
Class Host : Type := mkHost {
  py_str : json -> string;
  as_str : json -> option string;
  as_int : json -> option Z;
  as_float : json -> option pyfloat;
  as_bool : json -> option bool;
  timestamp_in_range : Z -> bool
}.

(** A field annotated [Optional[X]]. *)
Definition optional {X : Type} (coerce : json -> option X) (v : json)
  : option (option X) :=
  match v with
  | JNull => Some None
  | _ => option_map Some (coerce v)
  end.

(** A field annotated [list[X]], offered a Python list. *)
Fixpoint each {X : Type} (coerce : json -> option X) (l : list json)
  : option (list X) :=
  match l with
  | [] => Some []
  | v :: rest =>
      match coerce v, each coerce rest with
      | Some x, Some xs => Some (x :: xs)
      | _, _ => None
      end
  end.

(** One field of a model, validated. *)
Definition field {X : Type} (name : string) (o : option X) : result X :=
  match o with
  | Some x => Ret x
  | None => Raise (ValidationError name)
  end.

(** A host that accepts a value of exactly the annotated type and
    nothing else, prints integers in decimal, and takes the time stamps
    of the years 1 to 9999. *)
Definition strict_host : Host :=
  {| py_str := fun v =>
       match v with
       | JStr s => s
       | JInt z => str_of_Z z
       | JNull => "None"
       | JBool true => "True"
       | JBool false => "False"
       | _ => "<object>"
       end;
     as_str := fun v => match v with JStr s => Some s | _ => None end;
     as_int := fun v => match v with JInt z => Some z | _ => None end;
     as_float := fun v => match v with JFloat f => Some f | _ => None end;
     as_bool := fun v => match v with JBool b => Some b | _ => None end;
     timestamp_in_range := fun t =>
       ((-62135596800 <=? t) && (t <=? 253402300799))%Z |}.

End PyVal.

(* ================================================================== *)
(** ** scraper/models.py *)

Module Models.

Import PyStr PyNum PyVal.
Local Open Scope string_scope.
Local Open Scope py_scope.

Module Location.
Record t : Type := mk {
  id : string;
  name : string;
  slug : option string
}.

(** [Location(id=..., name=..., slug=...)] with [id] already a [str] *)
Definition new `{Host} (id_ : string) (name_ slug_ : json) : result t :=
  n <- field "name" (as_str name_) ;;
  s <- field "slug" (optional as_str slug_) ;;
  Ret (mk id_ n s).
End Location.

(** [ProfileData]: the fields [ProfileParser.parse_from_html] fills; the
    rest keep their defaults, and [scraped_at] is the wall clock. *)
Module ProfileData.
Record t : Type := mk {
  user_id : string;
  username : string;
  full_name : string;
  biography : string;
  follower_count : Z;
  following_count : Z;
  posts_count : Z;
  profile_pic_url : string
}.

(** [profile.user_id = v] *)
Definition set_user_id (p : t) (v : string) : t :=
  mk v (username p) (full_name p) (biography p) (follower_count p)
     (following_count p) (posts_count p) (profile_pic_url p).
End ProfileData.

(** [PostData], without the wall-clock field [scraped_at]. *)
Module PostData.
Record t : Type := mk {
  id : string;
  shortcode : string;
  caption : option string;
  like_count : Z;
  comment_count : Z;
  view_count : option Z;
  timestamp : Z;
  taken_at_datetime : option datetime;
  media_type : string;
  is_video : bool;
  video_duration : option pyfloat;
  media_urls : list string;
  thumbnail_url : option string;
  location : option Location.t;
  permalink : string;
  owner_username : string;
  owner_id : string
}.

Definition set_permalink (p : t) (v : string) : t :=
  mk (id p) (shortcode p) (caption p) (like_count p) (comment_count p)
     (view_count p) (timestamp p) (taken_at_datetime p) (media_type p)
     (is_video p) (video_duration p) (media_urls p) (thumbnail_url p)
     (location p) v (owner_username p) (owner_id p).

Definition set_taken_at_datetime (p : t) (v : option datetime) : t :=
  mk (id p) (shortcode p) (caption p) (like_count p) (comment_count p)
     (view_count p) (timestamp p) v (media_type p)
     (is_video p) (video_duration p) (media_urls p) (thumbnail_url p)
     (location p) (permalink p) (owner_username p) (owner_id p).

(** [datetime.utcfromtimestamp(t)] *)
Definition utcfromtimestamp `{Host} (t : Z) : result datetime :=
  if timestamp_in_range t then Ret (utc t)
  else Raise (ValueError "timestamp out of range").

(** The f-string of the permalink. *)
Definition permalink_of (code : string) : string :=
  "https://www.instagram.com/p/" ++ code ++ "/".

(** [PostData.__init__] once the call of the parent constructor has
    validated the keyword arguments: [self] holds the validated
    fields, with the declared default where the caller passed
    nothing. *)
Definition __init__ `{Host} (self : t) : result t :=
  let self :=
    if is_empty (permalink self) && negb (is_empty (shortcode self))
    then set_permalink self (permalink_of (shortcode self))
    else self in
  if negb (timestamp self =? 0)%Z &&
     match taken_at_datetime self with None => true | Some _ => false end
  then
    d <- utcfromtimestamp (timestamp self) ;;
    Ret (set_taken_at_datetime self (Some d))
  else Ret self.
End PostData.

Module ScrapeResult.
Record t : Type := mk {
  profile : ProfileData.t;
  posts : list PostData.t;
  total_posts_scraped : Z;
  has_more_posts : bool;
  errors : list string
}.
End ScrapeResult.

Module SessionTokens.
Record t : Type := mk {
  app_id : string;
  csrf_token : string;
  asbd_id : option string
}.
End SessionTokens.

End Models.

(* ================================================================== *)
(** ** scraper/parsers.py *)

Module Parsers.

Import PyStr PyNum PyVal Models.
Local Open Scope string_scope.
Local Open Scope py_scope.

(** *** Token discovery *)
Module TokenDiscovery.

(** The longest run of digits at the head of a text, and the rest. *)
Fixpoint span_digits (s : string) : string * string :=
  match s with
  | String c rest =>
      if is_digit c then
        let (ds, tl) := span_digits rest in (String c ds, tl)
      else (EmptyString, s)
  | EmptyString => (EmptyString, EmptyString)
  end.

(** [s[n:]] *)
Definition skip (n : nat) (s : string) : string :=
  substring n (String.length s - n) s.

(** A match of the literal, [(\d+)] and the closing quote that starts
    at the head of [s]: the digits of group 1.  The group is greedy and the closing quote is
    no digit, so the group is the whole run of digits. *)
Definition match_at (literal s : string) : option string :=
  if prefix literal s then
    let (ds, rest) := span_digits (skip (String.length literal) s) in
    match ds, rest with
    | String _ _, String c _ =>
        if Ascii.eqb c (chr 34) then Some ds else None
    | _, _ => None
    end
  else None.

Fixpoint all_digits (s : string) : bool :=
  match s with
  | EmptyString => true
  | String c rest => is_digit c && all_digits rest
  end.

(** What it means for the pattern with literal part [literal] to
    match somewhere in [html] with [g] as its group: the literal, a
    non-empty run of digits [g] and a double quote stand there in a
    row. *)
Definition Occurs (literal html g : string) : Prop :=
  exists pre post : string,
    html = pre ++ literal ++ g ++ dquote ++ post
    /\ is_empty g = false /\ all_digits g = true.

(** [re.search(pattern, html)]: group 1 of the leftmost match. *)
Fixpoint re_search (literal html : string) : option string :=
  match match_at literal html with
  | Some g => Some g
  | None =>
      match html with
      | String _ rest => re_search literal rest
      | EmptyString => None
      end
  end.

(** The order the specification describes, for any two patterns and
    a constant: the first pattern, else the second, else the
    constant. *)
Definition two_tier (primary secondary fallback html : string) : string :=
  match re_search primary html with
  | Some g => g
  | None =>
      match re_search secondary html with
      | Some g => g
      | None => fallback
      end
  end.

Definition extract_app_id (html : string) : string :=
  match re_search (Config.app_id Config.PATTERNS) html with
  | Some g => g
  | None =>
      match re_search (Config.app_id_alt Config.PATTERNS) html with
      | Some g => g
      | None => Config.fallback_app_id Config.FALLBACK_VALUES
      end
  end.

Definition extract_asbd_id (html : string) : option string :=
  match re_search (Config.asbd_id Config.PATTERNS) html with
  | Some g => Some g
  | None => Some (Config.fallback_asbd_id Config.FALLBACK_VALUES)
  end.

Definition discover_all (html csrf_token : string) : SessionTokens.t :=
  SessionTokens.mk (extract_app_id html) csrf_token (extract_asbd_id html).

End TokenDiscovery.

(** *** Profile parsing: count strings *)
Module ProfileParser.

Definition multipliers : list (string * Z) :=
  [ ("K", 1000); ("M", 1000000); ("B", 1000000000) ]%Z.

(** [try: return m / except ValueError: return 0] *)
Definition or_zero_on_ValueError (m : result Z) : result Z :=
  match m with
  | Raise (ValueError _) => Ret 0%Z
  | _ => m
  end.

(** [float(s)] *)
Definition float (s : string) : result pyfloat :=
  match float_of_str s with
  | Some f => Ret f
  | None => Raise (ValueError "could not convert string to float")
  end.

(** [int(s)] *)
Definition int (s : string) : result Z :=
  match int_of_str s with
  | Some z => Ret z
  | None => Raise (ValueError "invalid literal for int() with base 10")
  end.

(** The loop over [multipliers.items()], then the plain [int]. *)
Fixpoint by_suffix (table : list (string * Z)) (count_str : string)
  : result Z :=
  match table with
  | (suffix, mult) :: rest =>
      if endswith count_str suffix then
        or_zero_on_ValueError
          (f <- float (drop_last count_str) ;;
           int_of_float (fmul f (float_of_Z mult)))
      else by_suffix rest count_str
  | [] => or_zero_on_ValueError (int count_str)
  end.

Definition parse_count_string (count_str : string) : result Z :=
  if is_empty count_str then Ret 0%Z
  else by_suffix multipliers (remove_char "," (strip count_str)).

End ProfileParser.

(** *** Post parsing *)
Module PostParser.

(** Lines 173-178: the media type from the code and the product type. *)
Definition media_type_of (media_type_code product_type : json) : string :=
  if eq_int media_type_code 8 then "carousel"
  else if eq_int media_type_code 2 then
    if eq_str product_type "clips" then "reel" else "video"
  else "image".

(** The [url] of [c[0]] (the empty string when it has none), appended
    when [c] is truthy. *)
Definition first_url (c : json) : result (list json) :=
  if truthy c then
    x <- index0 c ;;
    u <- get x "url" (JStr EmptyString) ;;
    Ret [u]
  else Ret [].

Definition image_urls (node : json) : result (list json) :=
  present <- key_in "image_versions2" node ;;
  if present : bool then
    iv <- subscript node "image_versions2" ;;
    candidates <- get iv "candidates" (JArr []) ;;
    first_url candidates
  else Ret [].

Definition video_urls (node : json) : result (list json) :=
  present <- key_in "video_versions" node ;;
  if present : bool then
    video_versions <- get node "video_versions" (JArr []) ;;
    first_url video_versions
  else Ret [].

Fixpoint carousel_urls (children : list json) (urls : list json)
  : result (list json) :=
  match children with
  | [] => Ret urls
  | child :: rest =>
      i <- image_urls child ;;
      v <- video_urls child ;;
      carousel_urls rest (urls ++ i ++ v)
  end.

Definition _extract_media_urls (item : json) : result (list json) :=
  i <- image_urls item ;;
  v <- video_urls item ;;
  cm <- get item "carousel_media" (JArr []) ;;
  children <- iter cm ;;
  carousel_urls children (i ++ v).

Definition parse_feed_item `{Host} (item : json) (owner_username : string)
  : result PostData.t :=
  id_ <- get item "id" (JStr EmptyString) ;;
  pk <- get item "pk" id_ ;;
  let post_id := py_str pk in
  shortcode <- get item "code" (JStr EmptyString) ;;
  caption_obj <- get item "caption" JNull ;;
  caption <- (if truthy caption_obj && is_dict caption_obj
              then get caption_obj "text" JNull
              else Ret JNull) ;;
  like_count <- get item "like_count" (JInt 0) ;;
  comment_count <- get item "comment_count" (JInt 0) ;;
  play_count <- get item "play_count" JNull ;;
  view_count <- (if truthy play_count then Ret play_count
                 else get item "view_count" JNull) ;;
  timestamp <- get item "taken_at" (JInt 0) ;;
  media_type_code <- get item "media_type" (JInt 1) ;;
  product_type <- get item "product_type" (JStr EmptyString) ;;
  let media_type := media_type_of media_type_code product_type in
  let is_video := eq_int media_type_code 2 in
  media_urls <- _extract_media_urls item ;;
  thumb <- image_urls item ;;
  let thumbnail_url :=
    match thumb with u :: _ => u | [] => JStr EmptyString end in
  loc_data <- get item "location" JNull ;;
  location <- (if truthy loc_data && is_dict loc_data then
                 loc_id <- get loc_data "id" (JStr EmptyString) ;;
                 loc_pk <- get loc_data "pk" loc_id ;;
                 loc_name <- get loc_data "name" (JStr EmptyString) ;;
                 loc_slug <- get loc_data "slug" JNull ;;
                 l <- Location.new (py_str loc_pk) loc_name loc_slug ;;
                 Ret (Some l)
               else Ret None) ;;
  owner <- get item "user" (JObj []) ;;
  owner_pk <- get owner "pk" (JStr EmptyString) ;;
  let owner_id := py_str owner_pk in
  owner_name <- (if is_empty owner_username
                 then get owner "username" (JStr EmptyString)
                 else Ret (JStr owner_username)) ;;
  (* PostData(...): validation of the keyword arguments, then __init__ *)
  f_shortcode <- field "shortcode" (as_str shortcode) ;;
  f_caption <- field "caption" (optional as_str caption) ;;
  f_like <- field "like_count" (as_int like_count) ;;
  f_comment <- field "comment_count" (as_int comment_count) ;;
  f_view <- field "view_count" (optional as_int view_count) ;;
  f_timestamp <- field "timestamp" (as_int timestamp) ;;
  duration <- get item "video_duration" JNull ;;
  f_duration <- field "video_duration" (optional as_float duration) ;;
  f_urls <- field "media_urls" (each as_str media_urls) ;;
  f_thumb <- field "thumbnail_url" (optional as_str thumbnail_url) ;;
  f_owner <- field "owner_username" (as_str owner_name) ;;
  PostData.__init__
    (PostData.mk post_id f_shortcode f_caption f_like f_comment f_view
       f_timestamp None media_type is_video f_duration f_urls f_thumb
       location EmptyString f_owner owner_id).

(** The [for item in items] loop with its [try] / [except Exception]:
    a post is appended, a failure is logged and dropped. *)
Fixpoint collect `{Host} (items : list json) (owner_username : string)
         (posts : list PostData.t) : list PostData.t :=
  match items with
  | [] => posts
  | item :: rest =>
      match parse_feed_item item owner_username with
      | Ret post => collect rest owner_username (posts ++ [post])
      | Raise _ => collect rest owner_username posts
      end
  end.

(** What the specification asks of the loop: the posts of the items
    that parse, in the order of the items. *)
Definition parsed_in_order `{Host} (items : list json)
           (owner_username : string) : list PostData.t :=
  flat_map
    (fun item =>
       match parse_feed_item item owner_username with
       | Ret post => [post]
       | Raise _ => []
       end) items.

Definition parse_feed_response `{Host} (data : json)
           (owner_username : string)
  : result (list PostData.t * json * json) :=
  items <- get data "items" (JArr []) ;;
  next_max_id <- get data "next_max_id" JNull ;;
  more_available <- get data "more_available" (JBool false) ;;
  elements <- iter items ;;
  Ret (collect elements owner_username [], next_max_id, more_available).

End PostParser.

End Parsers.

(* ================================================================== *)
(** ** scraper/client.py *)

Module Client.

Import PyStr PyNum PyVal Models Parsers.
Local Open Scope string_scope.
Local Open Scope py_scope.

(** [str(e)] *)
Definition exn_str (e : exn) : string :=
  match e with
  | BlockDetectedError block_type message =>
      "Block detected: " ++ block_type ++ ". " ++ message
  | HTTPStatusError _ msg => msg
  | ConnectError msg | TimeoutException msg | RetryableError msg
  | ParserError msg | ValueError msg | OverflowError msg | TypeError msg
  | AttributeError msg | KeyError msg | ValidationError msg => msg
  end.

(** *** Block detection *)

Definition og_title_marker : string := "property=" ++ quoted "og:title".

Definition og_description_marker : string :=
  "property=" ++ quoted "og:description".

(** The inner loop [for pattern in patterns]. *)
Fixpoint match_patterns (block_type : string) (patterns : list string)
         (html_lower : string) : option exn :=
  match patterns with
  | [] => None
  | pattern :: rest =>
      if contains (lower pattern) html_lower
      then Some (BlockDetectedError block_type ("Pattern matched: " ++ pattern))
      else match_patterns block_type rest html_lower
  end.

(** The outer loop [for block_type, patterns in BLOCK_PATTERNS.items()]. *)
Fixpoint match_blocks (table : list (string * list string))
         (html_lower : string) : option exn :=
  match table with
  | [] => None
  | (block_type, patterns) :: rest =>
      match match_patterns block_type patterns html_lower with
      | Some e => Some e
      | None => match_blocks rest html_lower
      end
  end.

(** [_check_for_blocks(response, html)], with [url_path] the path of
    [response.url]; [Ret tt] is the plain return. *)
Definition _check_for_blocks (url_path html : string) : result unit :=
  if contains "/accounts/login" url_path then
    Raise (BlockDetectedError "login_required" "Redirected to login page")
  else if contains "/challenge" url_path then
    Raise (BlockDetectedError "challenge_required"
             "Challenge/verification required")
  else if contains og_title_marker html &&
          contains og_description_marker html then
    Ret tt
  else
    match match_blocks Config.BLOCK_PATTERNS (lower html) with
    | Some e => Raise e
    | None =>
        if (String.length html <? 1000)%nat &&
           negb (contains "username" html)
        then Raise (RetryableError "Empty or minimal response received")
        else Ret tt
    end.

(** *** The full scrape *)

(** One call of [_fetch_feed_page(username, max_id)] as the loop sees
    it: from the cursor it is given to the page it returns or the
    exception it raises ([None] is [JNull]). *)
Definition fetch : Type := json -> result json.

(** The local variables of [scrape_full] during pagination, and the
    cursors requested so far. *)
Record loop_state : Type := mkState {
  profile : ProfileData.t;
  all_posts : list PostData.t;
  next_max_id : json;
  more_available : json;
  errors : list string;
  requests : list json
}.

Definition initial (p : ProfileData.t) : loop_state :=
  mkState p [] JNull (JBool true) [] [].

(** [max_posts and len(all_posts) >= max_posts] *)
Definition cap_reached (max_posts : option Z) (posts : list PostData.t)
  : bool :=
  match max_posts with
  | Some k => negb (k =? 0)%Z && (k <=? Z.of_nat (List.length posts))%Z
  | None => false
  end.

(** [max_posts and len(all_posts) > max_posts] *)
Definition over_cap (max_posts : option Z) (posts : list PostData.t)
  : bool :=
  match max_posts with
  | Some k => negb (k =? 0)%Z && (k <? Z.of_nat (List.length posts))%Z
  | None => false
  end.

(** [l[:k]] *)
Definition slice_to {A : Type} (k : Z) (l : list A) : list A :=
  if (0 <=? k)%Z then firstn (Z.to_nat k) l
  else firstn (Z.to_nat (Z.of_nat (List.length l) + k)) l.

(** Lines 313-315: the user id taken from the feed when the profile has
    none. *)
Definition backfill_user_id `{Host} (p : ProfileData.t) (data : json)
  : result ProfileData.t :=
  if is_empty (ProfileData.user_id p) then
    u <- get data "user" JNull ;;
    if truthy u then
      user <- subscript data "user" ;;
      pk <- get user "pk" (JStr EmptyString) ;;
      Ret (ProfileData.set_user_id p (py_str pk))
    else Ret p
  else Ret p.

(** The three [except] clauses: the message is recorded and the loop is
    left; what was assigned before the exception stays assigned. *)
Definition abort (st : loop_state) (e : exn) : loop_state * bool :=
  (mkState (profile st) (all_posts st) (next_max_id st) (more_available st)
     (errors st ++ [exn_str e]) (requests st), false).

(** One pass through the [try] block of the loop; the flag tells
    whether the loop goes back to its [while] test. *)
Definition page `{Host} (username : string) (f : fetch) (st : loop_state)
  : loop_state * bool :=
  let st :=
    mkState (profile st) (all_posts st) (next_max_id st)
      (more_available st) (errors st) (requests st ++ [next_max_id st]) in
  match f (next_max_id st) with
  | Raise e => abort st e
  | Ret data =>
      match backfill_user_id (profile st) data with
      | Raise e => abort st e
      | Ret p =>
          let st :=
            mkState p (all_posts st) (next_max_id st) (more_available st)
              (errors st) (requests st) in
          match PostParser.parse_feed_response data username with
          | Raise e => abort st e
          | Ret (posts, cursor, more) =>
              (mkState p (all_posts st ++ posts) cursor more (errors st)
                 (requests st), truthy cursor)
          end
      end
  end.

(** [while more_available: ...] over the scripted calls of
    [_fetch_feed_page]; [None] when the loop asks for a page the script
    does not have. *)
Fixpoint paginate `{Host} (max_posts : option Z) (username : string)
         (script : list fetch) (st : loop_state) : option loop_state :=
  if negb (truthy (more_available st)) then Some st
  else if cap_reached max_posts (all_posts st) then Some st
  else
    match script with
    | [] => None
    | f :: rest =>
        let (st', again) := page username f st in
        if again then paginate max_posts username rest st' else Some st'
    end.

(** [Fetched username st fs pss st']: starting in loop state [st], each
    of the scripted calls [fs] returns a page that parses and carries a
    cursor and a true continuation flag; [pss] lists the posts page by
    page and [st'] is the loop state after the last of them. *)
Inductive Fetched `{Host} (username : string)
  : loop_state -> list fetch -> list (list PostData.t) -> loop_state -> Prop :=
| Fetched_nil (st : loop_state) : Fetched username st [] [] st
| Fetched_cons (st : loop_state) (f : fetch) (fs : list fetch)
    (data : json) (p : ProfileData.t) (posts : list PostData.t)
    (cursor more : json) (pss : list (list PostData.t)) (st' : loop_state) :
    f (next_max_id st) = Ret data ->
    backfill_user_id (profile st) data = Ret p ->
    PostParser.parse_feed_response data username = Ret (posts, cursor, more) ->
    truthy cursor = true ->
    truthy more = true ->
    Fetched username
      (mkState p (all_posts st ++ posts) cursor more (errors st)
         (requests st ++ [next_max_id st])) fs pss st' ->
    Fetched username st (f :: fs) (posts :: pss) st'.

(** The ways one pass through the [try] block fails with [e]: the call
    of [_fetch_feed_page] raises it, or reading the user id off the
    response does, or parsing the response does. *)
Inductive PageFails `{Host} (username : string) (f : fetch)
          (st : loop_state) (e : exn) : Prop :=
| fails_in_fetch :
    f (next_max_id st) = Raise e -> PageFails username f st e
| fails_in_backfill (data : json) :
    f (next_max_id st) = Ret data ->
    backfill_user_id (profile st) data = Raise e ->
    PageFails username f st e
| fails_in_parse (data : json) (p : ProfileData.t) :
    f (next_max_id st) = Ret data ->
    backfill_user_id (profile st) data = Ret p ->
    PostParser.parse_feed_response data username = Raise e ->
    PageFails username f st e.

(** Lines 299-300: [if max_posts is None: max_posts = self.config.max_posts] *)
Definition effective_max_posts (config : Config.ScraperConfig)
           (max_posts : option Z) : option Z :=
  match max_posts with
  | None => Config.max_posts config
  | Some _ => max_posts
  end.

Record scrape_run : Type := mkScrape {
  returned : result ScrapeResult.t;
  requested : list json
}.

(** [scrape_full(username, max_posts)].  [profile_step] is the outcome
    of fetching and parsing the profile page. *)
Definition scrape_full `{Host} (config : Config.ScraperConfig)
           (username : string) (max_posts : option Z)
           (profile_step : result ProfileData.t) (script : list fetch)
  : option scrape_run :=
  match profile_step with
  | Raise e => Some (mkScrape (Raise e) [])
  | Ret p =>
      let max_posts := effective_max_posts config max_posts in
      match paginate max_posts username script (initial p) with
      | None => None
      | Some st =>
          let posts :=
            if over_cap max_posts (all_posts st)
            then slice_to (match max_posts with Some k => k | None => 0%Z end)
                   (all_posts st)
            else all_posts st in
          let has_more :=
            if truthy (more_available st)
            then Some (truthy (next_max_id st))
            else as_bool (more_available st) in
          Some (mkScrape
                  (more <- field "has_more_posts" has_more ;;
                   Ret (ScrapeResult.mk (profile st) posts
                          (Z.of_nat (List.length posts)) more (errors st)))
                  (requests st))
      end
  end.

End Client.

(* ================================================================== *)
(** ** Sample feeds *)

Module Fixtures.

Import PyStr PyNum PyVal Models Parsers Client.
Local Open Scope string_scope.

(** A well-formed feed item with primary key [n]. *)
Definition item (n : nat) : json :=
  JObj [ ("pk", JInt (Z.of_nat n));
         ("code", JStr ("P" ++ str_of_Z (Z.of_nat n)));
         ("taken_at", JInt 1700000000);
         ("media_type", JInt 1);
         ("like_count", JInt 3);
         ("user", JObj [ ("pk", JInt 42); ("username", JStr "alice") ]) ].

(** The feed response that carries the items [start .. start+count-1],
    a cursor if there is one, and the continuation flag. *)
Definition feed_page (start count : nat) (cursor : option string)
           (more : bool) : json :=
  JObj ( ("items", JArr (map item (seq start count))) ::
         match cursor with
         | Some c => [ ("next_max_id", JStr c) ]
         | None => []
         end ++
         [ ("more_available", JBool more); ("status", JStr "ok") ] ).

Definition cursor_is (expected : option string) (c : json) : bool :=
  match expected, c with
  | None, JNull => true
  | Some e, JStr s => String.eqb e s
  | _, _ => false
  end.

(** A server that answers [data] to the cursor it expects and fails on
    any other. *)
Definition serve (expected : option string) (data : json) : fetch :=
  fun c =>
    if cursor_is expected c then Ret data
    else Raise (ParserError "Feed API error: unexpected cursor").

(** A call that ends in a block, whatever the cursor. *)
Definition blocked : fetch :=
  fun _ => Raise (BlockDetectedError "login_required"
                    "Feed API returned login required").

Definition alice : ProfileData.t :=
  ProfileData.mk EmptyString "alice" "Alice" EmptyString 10 20 30
    EmptyString.

(** Pages of 12, 12 and 6 items; the last one has no cursor. *)
Definition three_pages : list fetch :=
  [ serve None (feed_page 1 12 (Some "C1") true);
    serve (Some "C1") (feed_page 13 12 (Some "C2") true);
    serve (Some "C2") (feed_page 25 6 None false) ].

(** Page 1 as above, then a block on page 2. *)
Definition blocked_on_page_2 : list fetch :=
  [ serve None (feed_page 1 12 (Some "C1") true); blocked ].

(** The posts of the three pages under the strict host, and the loop
    states after page 1 and after page 2. *)
Definition posts_of_page (start count : nat) : list PostData.t :=
  @PostParser.parsed_in_order strict_host (map item (seq start count))
    "alice".

Definition after_page_1 : loop_state :=
  mkState alice (posts_of_page 1 12) (JStr "C1") (JBool true) [] [JNull].

Definition after_page_2 : loop_state :=
  mkState alice (posts_of_page 1 12 ++ posts_of_page 13 12)%list
    (JStr "C2") (JBool true) [] [JNull; JStr "C1"].

(** A feed whose third item is no object. *)
Definition page_with_bad_item : json :=
  JObj [ ("items", JArr [ item 1; item 2; JInt 7; item 4 ]);
         ("more_available", JBool false) ].

(** A rendered profile page, both meta markers in place, whose text
    happens to carry a denial phrase. *)
Definition flagged_profile_page : string :=
  "<meta " ++ og_title_marker ++ " content=" ++ quoted "Alice (@alice)" ++ ">"
  ++ "<meta " ++ og_description_marker ++ " content="
  ++ quoted "10 Followers, 20 Following, 30 Posts" ++ ">"
  ++ "<p>checkpoint_required</p>".

(** The same text without the description marker. *)
Definition flagged_bare_page : string :=
  "<meta " ++ og_title_marker ++ " content=" ++ quoted "Alice (@alice)" ++ ">"
  ++ "<p>checkpoint_required</p>".

(** A home page that embeds the application id in its secondary form
    only. *)
Definition home_with_alt_app_id : string :=
  "<script>{" ++ quoted "APP_ID" ++ ":" ++ quoted "1217981644879628"
  ++ "}</script>".

(** A home page that embeds the application id in its primary form. *)
Definition home_with_app_id : string :=
  "<script>" ++ quoted "X-IG-App-ID" ++ ":" ++ quoted "936619743392459"
  ++ "</script>".

(** A reel: the video code with the product type of clips. *)
Definition reel_item : json :=
  JObj [ ("pk", JInt 7); ("code", JStr "R7");
         ("taken_at", JInt 1700000000);
         ("media_type", JInt 2); ("product_type", JStr "clips");
         ("user", JObj [ ("pk", JInt 42); ("username", JStr "alice") ]) ].

(** A carousel that carries the product type of clips all the same. *)
Definition carousel_item : json :=
  JObj [ ("pk", JInt 8); ("code", JStr "C8");
         ("taken_at", JInt 1700000000);
         ("media_type", JInt 8); ("product_type", JStr "clips");
         ("user", JObj [ ("pk", JInt 42); ("username", JStr "alice") ]) ].

(** A feed response whose [items] entry is [null]. *)
Definition null_items_response : json :=
  JObj [ ("items", JNull); ("more_available", JBool false);
         ("status", JStr "ok") ].

(** A count of 310 digits with a suffix, as the follower pattern of the
    description meta tag can capture it. *)
Definition huge_count : string :=
  "1" ++ string_of_list_ascii (repeat "0"%char 309) ++ "K".


(** A wrapped call that meets a 503 on every attempt. *)
Definition always_unavailable : nat -> result json :=
  fun _ => Raise (HTTPStatusError 503 "Server error '503 Service Unavailable'").

(** The jitter draws: always the middle of the interval. *)
Definition mid_draw : nat -> Q := fun _ => (1 # 2)%Q.

(** A record as validated from a constructor call that passes both a
    short code and a permalink of its own. *)
Definition post_with_own_permalink : PostData.t :=
  PostData.mk "1" "ABC123" None 0 0 None 0 None "image" false None []
    None None "https://example.com/elsewhere" "alice" "42".

End Fixtures.


(* ================================================================== *)
(** ** scraper/utils/retry.py: [calculate_delay] in binary64 *)

(** [Retry] above reads the delays as exact rationals, which is enough
    for the control flow of [with_retry].  This module computes
    [calculate_delay] as Python does, on binary64 floats: every product
    and sum is rounded, a power that overflows raises, and the
    non-finite floats take part in [min] and [max]. *)
Module Backoff.

Import PyNum.
Local Open Scope Q_scope.

(** [-x] *)
Definition fneg (x : pyfloat) : pyfloat :=
  match x with
  | FNan => FNan
  | FInf s => FInf (negb s)
  | FFin q => FFin (- q)
  end.

(** [x + y] *)
Definition fadd (a b : pyfloat) : pyfloat :=
  match a, b with
  | FNan, _ | _, FNan => FNan
  | FInf s, FInf t => if Bool.eqb s t then FInf s else FNan
  | FInf s, FFin _ => FInf s
  | FFin _, FInf t => FInf t
  | FFin x, FFin y => b64_round (x + y)
  end.

(** [x - y] *)
Definition fsub (a b : pyfloat) : pyfloat := fadd a (fneg b).

(** [x < y]; false when either side is a NaN. *)
Definition flt (a b : pyfloat) : bool :=
  match a, b with
  | FNan, _ | _, FNan => false
  | FInf true, FInf true => false
  | FInf true, _ => true
  | _, FInf true => false
  | FInf false, _ => false
  | FFin _, FInf false => true
  | FFin x, FFin y => negb (Qle_bool y x)
  end.

(** [x <= y]; false when either side is a NaN. *)
Definition fle (a b : pyfloat) : bool :=
  match a, b with
  | FNan, _ | _, FNan => false
  | FInf true, _ => true
  | _, FInf false => true
  | FInf false, _ => false
  | FFin _, FInf true => false
  | FFin x, FFin y => Qle_bool x y
  end.

(** [min(a, b)] and [max(a, b)]: the first argument, unless the second
    is smaller (greater) than it. *)
Definition fmin (a b : pyfloat) : pyfloat := if flt b a then b else a.
Definition fmax (a b : pyfloat) : pyfloat := if flt a b then b else a.

(** [float(n)] for an [int]: correctly rounded, [OverflowError] when the
    integer is too large. *)
Definition float_of_int (n : Z) : result Q :=
  match b64_round (inject_Z n) with
  | FFin q => Ret q
  | _ => Raise (OverflowError "int too large to convert to float")
  end.

(** The C library behind [float.__pow__]: [libm_pow x y] is [pow(x, y)]
    for a finite [x > 0] other than 1 and an integral [y > 0]; an
    infinite result is its [HUGE_VAL]. *)
Class Libm : Type := mkLibm {
  libm_pow : Q -> Z -> pyfloat
}.

(** A [pow] that rounds the exact power to the nearest float. *)
Definition round_to_nearest : Libm :=
  {| libm_pow := fun x y => b64_round (x ^ y) |}.

(** [v ** attempt] for a float [v] and an [int] [attempt >= 0]
    ([float_pow] of CPython): the exponent is converted to a float
    first; the cases [w == 0], NaN, infinity, zero and one are settled
    without the C library, a negative base is raised in absolute value
    and the sign put back for an odd exponent, and an overflow of [pow]
    is an [OverflowError]. *)
Definition float_pow `{Libm} (v : pyfloat) (attempt : nat) : result pyfloat :=
  match float_of_int (Z.of_nat attempt) with
  | Raise e => Raise e
  | Ret w =>
      let y := Qfloor w in
      if (y =? 0)%Z then Ret (FFin 1)
      else
        match v with
        | FNan => Ret FNan
        | FInf s => Ret (FInf (s && Z.odd y))
        | FFin x =>
            if Qeq_bool x 0 then Ret (FFin 0)
            else
              let negate := negb (Qle_bool 0 x) && Z.odd y in
              let sign (r : Q) := if negate then - r else r in
              if Qeq_bool (Qabs x) 1 then Ret (FFin (sign 1))
              else
                match libm_pow (Qabs x) y with
                | FInf _ =>
                    Raise (OverflowError
                             "(34, 'Numerical result out of range')")
                | FNan => Ret FNan
                | FFin r => Ret (FFin (sign r))
                end
        end
  end.

(** [RetryConfig], with its delays as floats. *)
Record RetryConfig : Type := mkRetryConfig {
  max_attempts : Z;
  base_delay : pyfloat;
  max_delay : pyfloat;
  exponential_base : pyfloat;
  jitter : bool;
  retry_on_status : list Z
}.

(** [RetryConfig()] *)
Definition default_config : RetryConfig :=
  {| max_attempts := 5;
     base_delay := FFin 2;
     max_delay := FFin 300;
     exponential_base := FFin 2;
     jitter := true;
     retry_on_status := [429; 500; 502; 503; 504]%Z |}.

(** [RetryConfig(exponential_base=0.5)] *)
Definition halving_config : RetryConfig :=
  {| max_attempts := max_attempts default_config;
     base_delay := base_delay default_config;
     max_delay := max_delay default_config;
     exponential_base := FFin (1 # 2);
     jitter := jitter default_config;
     retry_on_status := retry_on_status default_config |}.

(** [RetryConfig(base_delay=float("nan"))] *)
Definition nan_config : RetryConfig :=
  {| max_attempts := max_attempts default_config;
     base_delay := FNan;
     max_delay := max_delay default_config;
     exponential_base := exponential_base default_config;
     jitter := jitter default_config;
     retry_on_status := retry_on_status default_config |}.

(** The float literals [0.25] and [0.1], and the [5] of [base_delay * 5]
    as the float it is converted to. *)
Definition quarter : pyfloat := FFin (1 # 4).
Definition tenth : pyfloat := b64_round (1 # 10).
Definition five : pyfloat := FFin 5.

(** [random.uniform(a, b)] is [a + (b - a) * self.random()]; [u] is the
    draw of [random()], a float of the interval [0, 1). *)
Definition uniform (a b u : pyfloat) : pyfloat := fadd a (fmul (fsub b a) u).

(** The value of [delay] when [calculate_delay] reaches its jitter step:
    the exponential backoff, capped at [max_delay]. *)
Definition capped_delay `{Libm} (attempt : nat) (config : RetryConfig)
           (response_status : option Z) : result pyfloat :=
  let base :=
    if Retry.is_rate_limited response_status
    then fmul (base_delay config) five
    else base_delay config in
  match float_pow (exponential_base config) attempt with
  | Raise e => Raise e
  | Ret p =>
      let delay := fmul base p in
      Ret (fmin delay (max_delay config))
  end.

Definition calculate_delay `{Libm} (attempt : nat) (config : RetryConfig)
           (response_status : option Z) (u : pyfloat) : result pyfloat :=
  match capped_delay attempt config response_status with
  | Raise e => Raise e
  | Ret delay =>
      let delay :=
        if jitter config then
          let jitter_range := fmul delay quarter in
          fadd delay (uniform (fneg jitter_range) jitter_range u)
        else delay in
      Ret (fmax delay tenth)
  end.

(** A [pow] that does not decrease when the exponent grows, on a base
    above 1, and is at least 1 there; every [pow] that rounds the exact
    power in a monotone way is one. *)
Definition MonotonePow (L : Libm) : Prop :=
  forall (x : Q) (y1 y2 : Z),
    1 < x -> (0 < y1 <= y2)%Z ->
    fle (FFin 1) (libm_pow x y1) = true
    /\ fle (libm_pow x y1) (libm_pow x y2) = true.

(** The exponent of the last place of the float nearest to [q > 0], and
    the value of that float: what [b64_round] computes on its way. *)
Definition scale (q : Q) : Z := Z.max (floor_log2 q - 52) (-1074).

Definition rounded (q : Q) : Q :=
  inject_Z (round_half_even (Qred (q / 2 ^ scale q))) * 2 ^ scale q.

(** The rationals that are binary64 numbers, finite or not yet
    bounded: an integer of at most 53 bits times a power of two not
    below the least one; and the rationals that rounding leaves as
    they are. *)
Definition representable (v : Q) : Prop :=
  exists M P : Z,
    (-1074 <= P)%Z /\ (Z.abs M <= 2 ^ 53)%Z /\ v == inject_Z M * 2 ^ P.

Definition is_float (q : Q) : Prop :=
  exists v : Q, b64_round q = FFin v /\ v == q.

(** A float that is a number. *)
Definition is_number (x : pyfloat) : bool :=
  match x with FNan => false | _ => true end.

End Backoff.

(* ================================================================== *)
(** ** scraper/utils/headers.py *)

Module Headers.

Import PyStr.
Local Open Scope string_scope.

(** One entry of [UA_PROFILES]; a client-hint field is [None] where the
    table says [None]. *)
Record profile : Type := mkProfile {
  user_agent : string;
  sec_ch_ua : option string;
  sec_ch_ua_mobile : option string;
  sec_ch_ua_platform : option string;
  accept_language : string
}.

Definition chromium_brands (brand : string) : string :=
  quoted "Not_A Brand" ++ ";v=" ++ quoted "8" ++ ", "
  ++ quoted "Chromium" ++ ";v=" ++ quoted "120" ++ ", "
  ++ quoted brand ++ ";v=" ++ quoted "120".

(** [UA_PROFILES], in insertion order. *)
Definition UA_PROFILES : list (string * profile) :=
  [ ("chrome_windows",
      mkProfile
        ("Mozilla/5.0 (Windows NT 10.0; Win64; x64) "
         ++ "AppleWebKit/537.36 (KHTML, like Gecko) "
         ++ "Chrome/120.0.0.0 Safari/537.36")
        (Some (chromium_brands "Google Chrome")) (Some "?0")
        (Some (quoted "Windows")) "en-US,en;q=0.9");
    ("chrome_mac",
      mkProfile
        ("Mozilla/5.0 (Macintosh; Intel Mac OS X 10_15_7) "
         ++ "AppleWebKit/537.36 (KHTML, like Gecko) "
         ++ "Chrome/120.0.0.0 Safari/537.36")
        (Some (chromium_brands "Google Chrome")) (Some "?0")
        (Some (quoted "macOS")) "en-US,en;q=0.9");
    ("firefox_windows",
      mkProfile
        ("Mozilla/5.0 (Windows NT 10.0; Win64; x64; rv:121.0) "
         ++ "Gecko/20100101 Firefox/121.0")
        None None None "en-US,en;q=0.5");
    ("safari_mac",
      mkProfile
        ("Mozilla/5.0 (Macintosh; Intel Mac OS X 14_0) "
         ++ "AppleWebKit/605.1.15 (KHTML, like Gecko) "
         ++ "Version/17.0 Safari/605.1.15")
        None None None "en-US,en;q=0.9");
    ("edge_windows",
      mkProfile
        ("Mozilla/5.0 (Windows NT 10.0; Win64; x64) "
         ++ "AppleWebKit/537.36 (KHTML, like Gecko) "
         ++ "Chrome/120.0.0.0 Safari/537.36 Edg/120.0.0.0")
        (Some (chromium_brands "Microsoft Edge")) (Some "?0")
        (Some (quoted "Windows")) "en-US,en;q=0.9") ].

(** [UA_PROFILES[name]]; [None] is [KeyError]. *)
Fixpoint find_profile (table : list (string * profile)) (name : string)
  : option profile :=
  match table with
  | [] => None
  | (k, p) :: rest => if String.eqb k name then Some p else find_profile rest name
  end.

(** [random.choice(seq)] is [seq[_randbelow(len(seq))]]; [draw] is the
    random source and [_randbelow(n)] is read as [draw mod n]. *)
Definition choice {A : Type} (seq : list A) (draw : nat) : option A :=
  nth_error seq (draw mod List.length seq).

(** A [HeaderGenerator] after [__init__]. *)
Record HeaderGenerator : Type := mkGenerator {
  profile_name : string;
  profile_of : profile
}.

(** [HeaderGenerator.__init__(profile_name)]; [None] stands for the
    [IndexError] of a choice from an empty table and the [KeyError] of a
    name the table lacks. *)
Definition __init__ (name : option string) (draw : nat)
  : option HeaderGenerator :=
  let chosen :=
    match name with
    | Some n =>
        if negb (is_empty n) &&
           match find_profile UA_PROFILES n with Some _ => true | None => false end
        then Some n
        else choice (map fst UA_PROFILES) draw
    | None => choice (map fst UA_PROFILES) draw
    end in
  match chosen with
  | Some n =>
      match find_profile UA_PROFILES n with
      | Some p => Some (mkGenerator n p)
      | None => None
      end
  | None => None
  end.

(** A header dictionary in insertion order; a value is [None] where the
    code would store Python's [None]. *)
Definition headers : Type := list (string * option string).

Fixpoint header (h : headers) (name : string) : option (option string) :=
  match h with
  | [] => None
  | (k, v) :: rest => if String.eqb k name then Some v else header rest name
  end.

(** [h[name] = v] *)
Fixpoint set_header (h : headers) (name : string) (v : option string)
  : headers :=
  match h with
  | [] => [(name, v)]
  | (k, w) :: rest =>
      if String.eqb k name then (k, v) :: rest
      else (k, w) :: set_header rest name v
  end.

(** [not x] for an [Optional[str]] *)
Definition falsy (x : option string) : bool :=
  match x with
  | Some s => is_empty s
  | None => true
  end.

(** Lines 105-109 and 144-148: the client hints, when the profile has a
    truthy [sec_ch_ua]. *)
Definition add_client_hints (p : profile) (h : headers) : headers :=
  if negb (falsy (sec_ch_ua p)) then
    set_header
      (set_header
         (set_header h "Sec-CH-UA" (sec_ch_ua p))
         "Sec-CH-UA-Mobile" (sec_ch_ua_mobile p))
      "Sec-CH-UA-Platform" (sec_ch_ua_platform p)
  else h.

Definition get_base_headers (g : HeaderGenerator) : headers :=
  let p := profile_of g in
  add_client_hints p
    [ ("User-Agent", Some (user_agent p));
      ("Accept",
        Some ("text/html,application/xhtml+xml,application/xml;q=0.9,"
              ++ "image/avif,image/webp,image/apng,*/*;q=0.8"));
      ("Accept-Language", Some (accept_language p));
      ("Accept-Encoding", Some "gzip, deflate");
      ("Cache-Control", Some "no-cache");
      ("Pragma", Some "no-cache");
      ("Sec-Fetch-Dest", Some "document");
      ("Sec-Fetch-Mode", Some "navigate");
      ("Sec-Fetch-Site", Some "none");
      ("Sec-Fetch-User", Some "?1");
      ("Upgrade-Insecure-Requests", Some "1") ].

Definition get_ajax_headers (g : HeaderGenerator) (app_id csrf_token : string)
           (asbd_id : option string) : headers :=
  let p := profile_of g in
  let h :=
    [ ("User-Agent", Some (user_agent p));
      ("Accept", Some "*/*");
      ("Accept-Language", Some (accept_language p));
      ("Accept-Encoding", Some "gzip, deflate");
      ("X-Requested-With", Some "XMLHttpRequest");
      ("X-IG-App-ID", Some app_id);
      ("X-CSRFToken", Some csrf_token);
      ("Sec-Fetch-Dest", Some "empty");
      ("Sec-Fetch-Mode", Some "cors");
      ("Sec-Fetch-Site", Some "same-origin");
      ("Referer", Some "https://www.instagram.com/") ] in
  let h := if negb (falsy asbd_id) then set_header h "X-ASBD-ID" asbd_id else h in
  add_client_hints p h.

(** The three client-hint header names. *)
Definition client_hint_names : list string :=
  [ "Sec-CH-UA"; "Sec-CH-UA-Mobile"; "Sec-CH-UA-Platform" ].

End Headers.

(* ================================================================== *)
(** ** scraper/client.py: the two fetches *)

Module Fetch.

Import PyStr PyVal Models Parsers Client.
Local Open Scope string_scope.
Local Open Scope py_scope.

(** What the body of a fetch reads off an [httpx] response that passed
    [raise_for_status]: the path of its URL, its text, what
    [response.json()] gives ([None] when it raises [JSONDecodeError]),
    and the [csrftoken] cookie of the response, if any. *)
Record response : Type := mkResponse {
  url_path : string;
  text : string;
  decoded : option json;
  csrf_cookie : option string
}.

(** The fields of the client that the two fetches write: [self.tokens]
    and [self._request_count]. *)
Record session : Type := mkSession {
  tokens : option SessionTokens.t;
  request_count : nat
}.

(** [self.tokens.csrf_token = v] *)
Definition set_csrf (t : SessionTokens.t) (v : string) : SessionTokens.t :=
  SessionTokens.mk (SessionTokens.app_id t) v (SessionTokens.asbd_id t).

(** Lines 186-195 of [_fetch_profile_page]: from the response to the
    returned HTML. *)
Definition profile_body (s : session) (r : response)
  : result (string * session) :=
  _ <- _check_for_blocks (url_path r) (text r) ;;
  let toks :=
    match csrf_cookie r, tokens s with
    | Some new_csrf, Some t =>
        if negb (is_empty new_csrf) then Some (set_csrf t new_csrf) else Some t
    | _, t => t
    end in
  Ret (text r, mkSession toks (S (request_count s))).

(** Lines 246-250 of [_fetch_feed_page]: a response whose [status] is
    ["fail"]. *)
Definition api_failure (data : json) : result (json * session) :=
  error_msg <- get data "message" (JStr "Unknown error") ;;
  match error_msg with
  | JStr m =>
      if contains "rate" (lower m) || contains "wait" (lower m)
      then Raise (RetryableError ("Rate limited: " ++ m))
      else Raise (ParserError ("Feed API error: " ++ m))
  | _ =>
      Raise (AttributeError
               ("'" ++ type_name error_msg
                ++ "' object has no attribute 'lower'"))
  end.

(** Lines 235-253 of [_fetch_feed_page]: from the response to the
    returned data. *)
Definition feed_body (s : session) (r : response) : result (json * session) :=
  let t := lower (text r) in
  if contains "login" t && contains "required" t then
    Raise (BlockDetectedError "login_required"
             "Feed API returned login required")
  else
    match decoded r with
    | None => Raise (RetryableError "Invalid JSON response from feed API")
    | Some data =>
        status <- get data "status" JNull ;;
        if eq_str status "fail" then api_failure data
        else Ret (data, mkSession (tokens s) (S (request_count s)))
    end.

(** The decorator of both fetches: [with_retry(RetryConfig(max_attempts=3))]. *)
Definition fetch_config : Retry.RetryConfig := Retry.config_with_attempts 3.

(** [_fetch_profile_page] and [_fetch_feed_page] on a client that is
    initialised.  [attempt k] is what the [k]-th run of the function
    meets before its body reads the response: the response, or the
    exception of the transport or of [raise_for_status]. *)
Definition _fetch_profile_page (s : session) (attempt : nat -> result response)
           (rnd : nat -> Q) : Retry.run (string * session) :=
  Retry.with_retry fetch_config (fun k => r <- attempt k ;; profile_body s r) rnd.

Definition _fetch_feed_page (s : session) (attempt : nat -> result response)
           (rnd : nat -> Q) : Retry.run (json * session) :=
  Retry.with_retry fetch_config (fun k => r <- attempt k ;; feed_body s r) rnd.

(** Lines 224-228: the headers of a feed request, from the tokens of the
    session. *)
Definition feed_headers (g : Headers.HeaderGenerator) (s : session)
  : Headers.headers :=
  match tokens s with
  | Some t =>
      Headers.get_ajax_headers g (SessionTokens.app_id t)
        (SessionTokens.csrf_token t) (SessionTokens.asbd_id t)
  | None => Headers.get_ajax_headers g "936619743392459" EmptyString None
  end.

End Fetch.

(* ================================================================== *)
(** ** scraper/client.py: the start of a session *)

Module Startup.

Import PyStr PyVal Models Parsers Client Fetch.
Local Open Scope string_scope.
Local Open Scope py_scope.

(** What [initialize] reads off the answer to its request for the home
    page, once [raise_for_status] has passed: the text, what
    [response.cookies.get("csrftoken", ...)] gives with its default the
    empty string, and the cookies of the client's jar in the order of
    its iteration, each with its name and its value ([None] for a
    cookie without a value). *)
Record home : Type := mkHome {
  home_text : string;
  home_csrf : string;
  jar : list (string * option string)
}.

(** Lines 143-147: the value of the first cookie of the jar that is
    named [csrftoken]; [csrf_token] is kept when there is none. *)
Fixpoint first_csrf_cookie (cookies : list (string * option string))
         (csrf_token : option string) : option string :=
  match cookies with
  | [] => csrf_token
  | (name, value) :: rest =>
      if String.eqb name "csrftoken" then value
      else first_csrf_cookie rest csrf_token
  end.

(** Lines 140-151: the CSRF token [initialize] ends with. *)
Definition csrf_of (h : home) : string :=
  let csrf_token := Some (home_csrf h) in
  let csrf_token :=
    if Headers.falsy csrf_token then first_csrf_cookie (jar h) csrf_token
    else csrf_token in
  match csrf_token with
  | Some v => v
  | None => EmptyString
  end.

(** [initialize]: [answer] is the outcome of the request for the home
    page, the response or the exception of the transport or of
    [raise_for_status].  The request counter is not touched. *)
Definition initialize (answer : result home) (s : session) : result session :=
  h <- answer ;;
  Ret (mkSession
         (Some (TokenDiscovery.discover_all (home_text h) (csrf_of h)))
         (request_count s)).

(** [_ensure_initialized].  The flag [_initialized] is set right after
    [tokens] (lines 154-157) and neither is reset, so the client is
    initialised exactly when its tokens are there. *)
Definition _ensure_initialized (s : session) (answer : result home)
  : result session :=
  match tokens s with
  | Some _ => Ret s
  | None => initialize answer s
  end.

Section Profile.

(** The session at the call, the answer [initialize] meets in the
    [k]-th run of the function if it gets to ask, and what that run
    meets when it requests the profile page. *)
Variable s0 : session.
Variable homes : nat -> result home.
Variable attempt : nat -> result response.

(** The session at the start of the [k]-th run: a run that fails after
    [initialize] went through leaves the client initialised. *)
Fixpoint session_before (k : nat) : session :=
  match k with
  | O => s0
  | S k' =>
      match _ensure_initialized (session_before k') (homes k') with
      | Ret s1 => s1
      | Raise _ => session_before k'
      end
  end.

(** Lines 175-195: one run of the body of [_fetch_profile_page]. *)
Definition profile_run (k : nat) : result (string * session) :=
  s1 <- _ensure_initialized (session_before k) (homes k) ;;
  r <- attempt k ;;
  profile_body s1 r.

(** [_fetch_profile_page] on any client, initialised or not. *)
Definition _fetch_profile_page (rnd : nat -> Q)
  : Retry.run (string * session) :=
  Retry.with_retry fetch_config profile_run rnd.

End Profile.

End Startup.

(* ================================================================== *)
(** ** Vocabulary for the statements about the retry wrapper *)

Module RetryTrace.

Import Retry.

Section Trace.

Variable T : Type.
Variable config : RetryConfig.

(** The status [with_retry] hands to [calculate_delay] after an attempt:
    the code of an [HTTPStatusError], nothing for the other failures. *)
Definition failure_status (o : result T) : option Z :=
  match o with
  | Raise (HTTPStatusError status _) => Some status
  | _ => None
  end.

(** The attempt after which the wrapper makes no other: it returned, or
    it failed with a failure that is not retried, or it was the last of
    [max_attempts]. *)
Definition final (k : nat) (o : result T) : bool :=
  match o with
  | Ret _ => true
  | Raise e =>
      negb (is_retryable config e) || (max_attempts config - 1 <=? Z.of_nat k)%Z
  end.

(** The delay slept after attempt [k] when it is not final. *)
Definition delay_after (rnd : nat -> Q) (k : nat) (o : result T) : Q :=
  calculate_delay k config (failure_status o) (rnd k).

End Trace.

End RetryTrace.

(* ================================================================== *)
(** ** Vocabulary for the statements about block detection *)

Module BlockSpec.

Import PyStr.

(** A phrase of the table occurs in the body, letter case aside; [bt] is
    the block type of its entry and [p] the phrase. *)
Definition Denied (table : list (string * list string)) (html : string)
           (bt p : string) : Prop :=
  exists ps : list string,
    In (bt, ps) table /\ In p ps /\ Substring (lower p) (lower html).

End BlockSpec.

(* ================================================================== *)
(** ** Vocabulary for the statements about the feed fetch *)

Module FetchSpec.

Import PyStr PyVal Fetch.
Local Open Scope string_scope.

(** The text of the response holds both words, letter case aside. *)
Definition MentionsLoginRequired (r : response) : Prop :=
  Substring "login" (lower (text r)) /\ Substring "required" (lower (text r)).

(** The response decodes to an object whose [status] is ["fail"] and
    whose [message] is the string [m]. *)
Definition ApiFailure (r : response) (m : string) : Prop :=
  exists d : list (string * json),
    decoded r = Some (JObj d)
    /\ dict_get d "status" JNull = JStr "fail"
    /\ dict_get d "message" (JStr "Unknown error") = JStr m.

(** The message speaks of a rate or of waiting, letter case aside. *)
Definition SpeaksOfRate (m : string) : Prop :=
  Substring "rate" (lower m) \/ Substring "wait" (lower m).

End FetchSpec.

(* ================================================================== *)
(** ** Vocabulary for the statements about media URLs *)

Module MediaSpec.

Import PyVal Parsers.PostParser.
Local Open Scope py_scope.

(** The URLs one node (the item, or one of its carousel children)
    contributes: its first image candidate, then its first video
    version. *)
Definition node_urls (node : json) : result (list json) :=
  i <- image_urls node ;;
  v <- video_urls node ;;
  Ret (i ++ v).

(** [item.get("carousel_media", [])] as the loop iterates it. *)
Definition carousel_children (item : json) : result (list json) :=
  cm <- get item "carousel_media" (JArr []) ;;
  iter cm.

End MediaSpec.

(* ================================================================== *)
(** ** Sample responses, sessions and generators *)

Module Samples.

Import PyStr PyVal Models Client Fetch Headers.
Local Open Scope string_scope.

(** A body that asks the visitor to wait. *)
Definition wait_page : string :=
  "<html><body>Please wait a few minutes before you try again.</body></html>".

Definition feed_path : string := "/api/v1/feed/user/alice/username/".

(** A session after [initialize], four requests in. *)
Definition session0 : session :=
  mkSession
    (Some (SessionTokens.mk "936619743392459" "old-token" (Some "129477")))
    4.

Definition blocked_profile : response :=
  mkResponse "/alice/" wait_page None None.

(** A profile page with both og markers and a fresh csrf cookie. *)
Definition good_profile : response :=
  mkResponse "/alice/" Fixtures.flagged_profile_page None (Some "new-token").

Definition login_wall : response :=
  mkResponse feed_path "Login Required" None None.

(** A feed response that decodes to a failure with message [m]. *)
Definition feed_failure (m : string) : response :=
  mkResponse feed_path "fail"
    (Some (JObj [ ("status", JStr "fail"); ("message", JStr m) ])) None.


(** The same response at every attempt. *)
Definition always (r : response) : nat -> result response :=
  fun _ => Ret r.

(** A 503 at the first attempt, then the response. *)
Definition after_503 (r : response) : nat -> result response :=
  fun k =>
    match k with
    | O => Raise (HTTPStatusError 503 "Server error '503 Service Unavailable'")
    | S _ => Ret r
    end.

(** One image node and one node with an image and a video. *)
Definition image_node (url : string) : list (string * json) :=
  [ ("image_versions2",
      JObj [ ("candidates", JArr [ JObj [ ("url", JStr url) ] ]) ]) ].

Definition video_node (image_url video_url : string)
  : list (string * json) :=
  (image_node image_url
   ++ [ ("video_versions", JArr [ JObj [ ("url", JStr video_url) ] ]) ])%list.

(** A carousel with a cover and two children, the second a video. *)
Definition album : json :=
  JObj (("pk", JInt 9) :: ("media_type", JInt 8)
        :: image_node "https://cdn.example/cover.jpg"
        ++ [ ("carousel_media",
               JArr [ JObj (image_node "https://cdn.example/1.jpg");
                      JObj (video_node "https://cdn.example/2.jpg"
                              "https://cdn.example/2.mp4") ]) ])%list.

(** A client as [InstagramClient()] leaves it. *)
Definition fresh_session : session := mkSession None 0.

(** The home page with an application id, and a csrf cookie in the jar
    only. *)
Definition home_page : Startup.home :=
  Startup.mkHome Fixtures.home_with_app_id EmptyString
    [ ("mid", Some "Zx1"); ("csrftoken", Some "jar-token") ].

(** A 503 on the home page at the first run, then the home page. *)
Definition home_after_503 : nat -> result Startup.home :=
  fun k =>
    match k with
    | O => Raise (HTTPStatusError 503 "Server error '503 Service Unavailable'")
    | S _ => Ret home_page
    end.

(** The generator of a random draw. *)
Definition drawn (draw : nat) : HeaderGenerator :=
  match __init__ None draw with
  | Some g => g
  | None => mkGenerator EmptyString
              (mkProfile EmptyString None None None EmptyString)
  end.

End Samples.
(* ================================================================== *)
(** * Properties *)

(** ** The retry executor *)

Section WithRetryFacts.

Import Retry.

Variable T : Type.
Variable config : RetryConfig.
Variable func : nat -> result T.
Variable rnd : nat -> Q.






End WithRetryFacts.


(** ** Strings *)

Section StringFacts.

Import PyStr.
Local Open Scope string_scope.

Lemma append_assoc (a b c : string) : (a ++ b) ++ c = a ++ (b ++ c).
Proof. induction a as [|x a IH]; cbn; [reflexivity | now rewrite IH]. Qed.

Lemma append_empty_r (a : string) : a ++ EmptyString = a.
Proof. induction a as [|x a IH]; cbn; [reflexivity | now rewrite IH]. Qed.

Lemma prefix_empty (s : string) : prefix EmptyString s = true.
Proof. destruct s; reflexivity. Qed.

Lemma prefix_append (a b : string) : prefix a (a ++ b) = true.
Proof.
  induction a as [|x a IH]; cbn [append]; [apply prefix_empty|].
  cbn [prefix]. destruct (ascii_dec x x) as [_ | Hne];
    [exact IH | now elim Hne].
Qed.

Lemma prefix_split (a s : string) :
  prefix a s = true -> exists rest : string, s = a ++ rest.
Proof.
  revert s. induction a as [|x a IH]; intros s H.
  - exists s. reflexivity.
  - destruct s as [|y s]; cbn [prefix] in H; [discriminate|].
    destruct (ascii_dec x y) as [-> | _]; [|discriminate].
    destruct (IH s H) as (rest & ->). exists rest. reflexivity.
Qed.

(** [contains] decides the substring relation. *)
Lemma contains_spec (needle hay : string) :
  contains needle hay = true <-> Substring needle hay.
Proof.
  split.
  - induction hay as [|c hay IH]; cbn [contains]; intros H;
      apply orb_true_iff in H; destruct H as [H | H].
    + apply prefix_split in H. destruct H as (rest & ->).
      exists EmptyString, rest. reflexivity.
    + discriminate.
    + apply prefix_split in H. destruct H as (rest & ->).
      exists EmptyString, rest. reflexivity.
    + destruct (IH H) as (pre & post & ->).
      exists (String c pre), post. reflexivity.
  - intros (pre & post & ->). induction pre as [|c pre IH].
    + cbn [append]. destruct (needle ++ post) eqn:E;
        cbn [contains]; rewrite <- ?E, prefix_append; reflexivity.
    + cbn [append contains]. rewrite IH. apply orb_true_r.
Qed.

Lemma contains_false (needle hay : string) :
  contains needle hay = false <-> ~ Substring needle hay.
Proof.
  rewrite <- contains_spec. destruct (contains needle hay); split;
    intros H; try reflexivity; try discriminate; congruence.
Qed.

Lemma substring_skip (a b : string) :
  substring (String.length a) (String.length b) (a ++ b) = b.
Proof.
  induction a as [|x a IH]; cbn.
  - induction b as [|y b IHb]; cbn; [reflexivity | now rewrite IHb].
  - exact IH.
Qed.

Lemma length_append (a b : string) :
  String.length (a ++ b) = (String.length a + String.length b)%nat.
Proof. induction a as [|x a IH]; cbn; [reflexivity | now rewrite IH]. Qed.

End StringFacts.

(** ** Block detection *)

Section BlockFacts.

Import PyStr Client.
Local Open Scope string_scope.

(** C2.  When the path of the response URL shows neither a login nor a
    challenge redirect and the body holds both the og:title and the
    og:description marker, [_check_for_blocks] returns normally: no
    block is raised whatever else the body contains, a denial phrase of
    [BLOCK_PATTERNS] included. *)
Theorem og_markers_suppress_content_scan :
  forall url_path html : string,
    ~ Substring "/accounts/login" url_path ->
    ~ Substring "/challenge" url_path ->
    Substring og_title_marker html ->
    Substring og_description_marker html ->
    _check_for_blocks url_path html = Ret tt.
Proof.
  intros url_path html Hlogin Hchallenge Htitle Hdesc.
  apply contains_false in Hlogin, Hchallenge.
  apply contains_spec in Htitle, Hdesc.
  unfold _check_for_blocks.
  now rewrite Hlogin, Hchallenge, Htitle, Hdesc.
Qed.

(** A rendered page that carries the phrase of the challenge table: the
    content scan alone would flag it, the classifier lets it through. *)
Lemma og_markers_suppress_content_scan_witness :
  match_blocks Config.BLOCK_PATTERNS (lower Fixtures.flagged_profile_page)
  = Some (BlockDetectedError "challenge_required"
            "Pattern matched: checkpoint_required")
  /\ _check_for_blocks "/alice/" Fixtures.flagged_profile_page = Ret tt.
Proof.
  split.
  - vm_compute. reflexivity.
  - apply og_markers_suppress_content_scan.
    + apply contains_false. vm_compute. reflexivity.
    + apply contains_false. vm_compute. reflexivity.
    + apply contains_spec. vm_compute. reflexivity.
    + apply contains_spec. vm_compute. reflexivity.
Defined.

(** Without the description marker the same text is classified by the
    content scan. *)
Lemma content_scan_without_markers :
  _check_for_blocks "/alice/" Fixtures.flagged_bare_page
  = Raise (BlockDetectedError "challenge_required"
             "Pattern matched: checkpoint_required").
Proof. vm_compute. reflexivity. Qed.

(** A redirect to the challenge page is reported even for a body with
    both markers. *)
Lemma challenge_redirect_wins :
  _check_for_blocks "/challenge/" Fixtures.flagged_profile_page
  = Raise (BlockDetectedError "challenge_required"
             "Challenge/verification required").
Proof. vm_compute. reflexivity. Qed.

End BlockFacts.

(** ** Token discovery *)

Section TokenFacts.

Import PyStr Models Parsers Parsers.TokenDiscovery.
Local Open Scope string_scope.

Lemma skip_append (a b : string) : skip (String.length a) (a ++ b) = b.
Proof.
  unfold skip. rewrite length_append.
  replace (String.length a + String.length b - String.length a)%nat
    with (String.length b) by lia.
  apply substring_skip.
Qed.

Lemma span_digits_split (s ds rest : string) :
  span_digits s = (ds, rest) -> s = ds ++ rest /\ all_digits ds = true.
Proof.
  revert ds rest. induction s as [|c s IH]; intros ds rest H; cbn in H.
  - inversion H. split; reflexivity.
  - destruct (is_digit c) eqn:Hc.
    + destruct (span_digits s) as [ds' tl] eqn:E. inversion H; subst.
      destruct (IH ds' rest eq_refl) as (-> & Hd).
      split; [reflexivity|]. cbn. now rewrite Hc, Hd.
    + inversion H. split; reflexivity.
Qed.

Lemma span_digits_run (g post : string) (q : ascii) :
  all_digits g = true -> is_digit q = false ->
  span_digits (g ++ String q post) = (g, String q post).
Proof.
  intros Hg Hq. induction g as [|c g IH]; cbn.
  - now rewrite Hq.
  - cbn in Hg. apply andb_true_iff in Hg. destruct Hg as (Hc & Hg).
    now rewrite Hc, (IH Hg).
Qed.

Lemma match_at_sound (literal s g : string) :
  match_at literal s = Some g ->
  exists post : string,
    s = literal ++ g ++ dquote ++ post
    /\ is_empty g = false /\ all_digits g = true.
Proof.
  unfold match_at. intros H.
  destruct (prefix literal s) eqn:Hp; [|discriminate].
  apply prefix_split in Hp. destruct Hp as (r & ->).
  rewrite skip_append in H.
  destruct (span_digits r) as [ds rest] eqn:E.
  apply span_digits_split in E. destruct E as (-> & Hd).
  destruct ds as [|d ds]; [discriminate|].
  destruct rest as [|c rest]; [discriminate|].
  destruct (Ascii.eqb c (chr 34)) eqn:Hc; [|discriminate].
  apply Ascii.eqb_eq in Hc. subst c. inversion H; subst.
  exists rest. split; [reflexivity|]. split; [reflexivity | exact Hd].
Qed.

Lemma match_at_complete (literal g post : string) :
  is_empty g = false -> all_digits g = true ->
  match_at literal (literal ++ g ++ dquote ++ post) = Some g.
Proof.
  intros Hne Hd. unfold match_at.
  rewrite prefix_append, skip_append.
  change (dquote ++ post) with (String (chr 34) post).
  rewrite (@span_digits_run g post (chr 34) Hd eq_refl).
  destruct g; [discriminate|]. now rewrite Ascii.eqb_refl.
Qed.

(** What [re_search] finds is an occurrence of the pattern. *)
Lemma re_search_sound (literal html g : string) :
  re_search literal html = Some g -> Occurs literal html g.
Proof.
  induction html as [|c html IH]; cbn [re_search]; intros H.
  - destruct (match_at literal EmptyString) eqn:E; [|discriminate].
    inversion H; subst. apply match_at_sound in E.
    destruct E as (post & E & Hne & Hd).
    exists EmptyString, post. auto.
  - destruct (match_at literal (String c html)) eqn:E.
    + inversion H; subst. apply match_at_sound in E.
      destruct E as (post & E & Hne & Hd).
      exists EmptyString, post. auto.
    + destruct (IH H) as (pre & post & -> & Hne & Hd).
      exists (String c pre), post. auto.
Qed.

(** Where the pattern occurs, [re_search] finds a match. *)
Lemma re_search_complete (literal html g : string) :
  Occurs literal html g -> exists g' : string, re_search literal html = Some g'.
Proof.
  intros (pre & post & -> & Hne & Hd).
  induction pre as [|c pre IH].
  - exists g. cbn [append].
    pose proof (@match_at_complete literal g post Hne Hd) as E.
    destruct (literal ++ g ++ dquote ++ post); cbn [re_search]; now rewrite E.
  - cbn [append re_search].
    destruct (match_at literal (String c (pre ++ literal ++ g ++ dquote ++ post)))
      as [g'|]; [now exists g' | exact IH].
Qed.

Lemma re_search_none (literal html : string) :
  (~ exists g : string, Occurs literal html g) ->
  re_search literal html = None.
Proof.
  intros H. destruct (re_search literal html) as [g|] eqn:E; [|reflexivity].
  elim H. exists g. now apply re_search_sound.
Qed.

(** C9 (as amended).  [discover_all] hands back the csrf token it was
    given.  The application id is the group of an occurrence of the
    primary pattern when that pattern occurs in the page, else the
    group of an occurrence of the secondary pattern when that one
    occurs, else the fallback constant: the two-tier order.  The
    anti-bot signature id has one tier only: the group of an occurrence
    of its single pattern when it occurs, else its fallback constant. *)
Theorem token_discovery_tiers :
  forall html csrf : string,
    let t := discover_all html csrf in
    let P := Config.PATTERNS in
    let F := Config.FALLBACK_VALUES in
    SessionTokens.csrf_token t = csrf
    /\ SessionTokens.app_id t
       = two_tier (Config.app_id P) (Config.app_id_alt P)
           (Config.fallback_app_id F) html
    /\ ((exists g, Occurs (Config.app_id P) html g) ->
        Occurs (Config.app_id P) html (SessionTokens.app_id t))
    /\ ((~ exists g, Occurs (Config.app_id P) html g) ->
        (exists g, Occurs (Config.app_id_alt P) html g) ->
        Occurs (Config.app_id_alt P) html (SessionTokens.app_id t))
    /\ ((~ exists g, Occurs (Config.app_id P) html g) ->
        (~ exists g, Occurs (Config.app_id_alt P) html g) ->
        SessionTokens.app_id t = Config.fallback_app_id F)
    /\ ((exists g, Occurs (Config.asbd_id P) html g) ->
        exists g, SessionTokens.asbd_id t = Some g
                  /\ Occurs (Config.asbd_id P) html g)
    /\ ((~ exists g, Occurs (Config.asbd_id P) html g) ->
        SessionTokens.asbd_id t = Some (Config.fallback_asbd_id F)).
Proof.
  intros html csrf t P F. subst t. cbn [discover_all SessionTokens.csrf_token
    SessionTokens.app_id SessionTokens.asbd_id].
  unfold extract_app_id, extract_asbd_id, two_tier. fold P F.
  repeat split.
  - intros (g & Hg). destruct (re_search_complete Hg) as (g' & E).
    rewrite E. now apply re_search_sound.
  - intros Hno (g & Hg). rewrite (re_search_none Hno).
    destruct (re_search_complete Hg) as (g' & E).
    rewrite E. now apply re_search_sound.
  - intros Hno Hno'. now rewrite (re_search_none Hno), (re_search_none Hno').
  - intros (g & Hg). destruct (re_search_complete Hg) as (g' & E).
    rewrite E. exists g'. split; [reflexivity | now apply re_search_sound].
  - intros Hno. now rewrite (re_search_none Hno).
Qed.

(** A home page with the secondary embedding only: the second tier
    supplies the application id. *)
Lemma token_discovery_tiers_witness :
  SessionTokens.app_id (discover_all Fixtures.home_with_alt_app_id "tok")
  = "1217981644879628"
  /\ Occurs (Config.app_id_alt Config.PATTERNS) Fixtures.home_with_alt_app_id
       (SessionTokens.app_id (discover_all Fixtures.home_with_alt_app_id "tok"))
  /\ SessionTokens.csrf_token (discover_all Fixtures.home_with_alt_app_id "tok")
     = "tok".
Proof.
  pose proof (token_discovery_tiers Fixtures.home_with_alt_app_id "tok")
    as (Hcsrf & _ & _ & Halt & _).
  split; [vm_compute; reflexivity|]. split; [|exact Hcsrf].
  apply Halt.
  - intros (g & Hg). apply re_search_complete in Hg.
    destruct Hg as (g' & Hg). vm_compute in Hg. discriminate.
  - exists "1217981644879628". apply re_search_sound.
    vm_compute. reflexivity.
Defined.

(** C9, the claim as written, fails for the anti-bot signature id: no
    entry of [PATTERNS] other than [asbd_id] serves as a second tier of
    [extract_asbd_id].  On a page that carries an application id in
    either form and no signature id, the extraction goes straight to
    the fallback constant. *)
Lemma asbd_id_has_no_second_tier :
  ~ exists key secondary : string,
      In (key, secondary) Config.PATTERNS_items
      /\ key <> "asbd_id"
      /\ forall html : string,
           extract_asbd_id html
           = Some (two_tier (Config.asbd_id Config.PATTERNS) secondary
                     (Config.fallback_asbd_id Config.FALLBACK_VALUES) html).
Proof.
  intros (key & secondary & Hin & Hkey & Hall).
  cbn [Config.PATTERNS_items In] in Hin.
  destruct Hin as [E | [E | [E | []]]]; inversion E; subst.
  - specialize (Hall Fixtures.home_with_app_id).
    vm_compute in Hall. discriminate.
  - specialize (Hall Fixtures.home_with_alt_app_id).
    vm_compute in Hall. discriminate.
  - now elim Hkey.
Qed.

End TokenFacts.

(** ** Count strings *)

Section CountFacts.

Import PyStr PyNum Parsers Parsers.ProfileParser.
Local Open Scope string_scope.

Lemma or_zero_cases (m : result Z) :
  (forall e, m = Raise e ->
     (exists msg, e = ValueError msg) \/ (exists msg, e = OverflowError msg)) ->
  (exists n : Z, or_zero_on_ValueError m = Ret n)
  \/ (exists msg, or_zero_on_ValueError m = Raise (OverflowError msg)).
Proof.
  intros H. destruct m as [n | e]; [left; now exists n|].
  destruct (H e eq_refl) as [(msg & ->) | (msg & ->)]; cbn.
  - left. now exists 0%Z.
  - right. now exists msg.
Qed.

Lemma by_suffix_cases (table : list (string * Z)) (s : string) :
  (exists n : Z, by_suffix table s = Ret n)
  \/ (exists msg, by_suffix table s = Raise (OverflowError msg)).
Proof.
  induction table as [|[suffix mult] table IH]; cbn [by_suffix].
  - apply or_zero_cases. unfold int. intros e.
    destruct (int_of_str s); intros E; inversion E. left. eauto.
  - destruct (endswith s suffix); [|exact IH].
    apply or_zero_cases. unfold float. intros e.
    destruct (float_of_str (drop_last s)) as [f|]; cbn [bind].
    + destruct (fmul f (float_of_Z mult)); cbn [int_of_float];
        intros E; inversion E; eauto.
    + intros E. inversion E. left. eauto.
Qed.

(** Whatever the string, [parse_count_string] returns an integer or
    lets an [OverflowError] out; no other exception leaves it. *)
Lemma parse_count_string_cases (s : string) :
  (exists n : Z, parse_count_string s = Ret n)
  \/ (exists msg, parse_count_string s = Raise (OverflowError msg)).
Proof.
  unfold parse_count_string. destruct (is_empty s).
  - left. now exists 0%Z.
  - apply by_suffix_cases.
Qed.

(** C6.  The count strings of the specification parse as stated, and the
    empty string and a word parse to 0; but the function is not total:
    on a string whose numeric part converts to a float infinity the
    [OverflowError] of [int(...)] is not the [ValueError] the handler
    catches, and it leaves the function. *)
Theorem parse_count_string_overflow_escapes :
  parse_count_string "31K" = Ret 31000%Z
  /\ parse_count_string "1.5M" = Ret 1500000%Z
  /\ parse_count_string "2B" = Ret 2000000000%Z
  /\ parse_count_string "12,345" = Ret 12345%Z
  /\ parse_count_string EmptyString = Ret 0%Z
  /\ parse_count_string "followers" = Ret 0%Z
  /\ parse_count_string "nanK" = Ret 0%Z
  /\ parse_count_string "infK"
     = Raise (OverflowError "cannot convert float infinity to integer")
  /\ parse_count_string Fixtures.huge_count
     = Raise (OverflowError "cannot convert float infinity to integer").
Proof. repeat split; vm_compute; reflexivity. Qed.

End CountFacts.

(** ** Post records and the post parser *)

Lemma bind_ret_inv {A B : Type} (m : result A) (k : A -> result B) (b : B) :
  bind m k = Ret b -> exists a : A, m = Ret a /\ k a = Ret b.
Proof. destruct m as [a | e]; cbn; [eauto | discriminate]. Qed.

(** Peels the binds off a hypothesis that says a computation returned. *)
Ltac returned H :=
  repeat (cbv zeta in H;
          first
            [ progress cbn [bind PyVal.get] in H
            | let a := fresh "v" in
              let E := fresh "E" in
              apply bind_ret_inv in H; destruct H as (a & E & H) ]).

Section PostFacts.

Import PyStr PyNum PyVal Models Parsers Parsers.PostParser.
Local Open Scope string_scope.

Context {host : Host}.

(** What [__init__] leaves alone, and what it does to the permalink. *)
Lemma init_fields (self p : PostData.t) :
  PostData.__init__ self = Ret p ->
  PostData.shortcode p = PostData.shortcode self
  /\ PostData.media_type p = PostData.media_type self
  /\ PostData.permalink p
     = if is_empty (PostData.permalink self)
          && negb (is_empty (PostData.shortcode self))
       then PostData.permalink_of (PostData.shortcode self)
       else PostData.permalink self.
Proof.
  unfold PostData.__init__. intros H.
  destruct (is_empty (PostData.permalink self)
            && negb (is_empty (PostData.shortcode self)));
    match type of H with
    | (if ?c then _ else _) = _ => destruct c
    end;
    returned H; inversion H; subst; cbn; auto.
Qed.

Lemma init_returns (self : PostData.t) :
  PostData.timestamp self = 0%Z
  \/ PostData.taken_at_datetime self <> None
  \/ timestamp_in_range (PostData.timestamp self) = true ->
  exists p : PostData.t, PostData.__init__ self = Ret p.
Proof.
  intros Hok. unfold PostData.__init__, PostData.utcfromtimestamp.
  destruct (is_empty (PostData.permalink self)
            && negb (is_empty (PostData.shortcode self))); cbn;
    destruct (negb (PostData.timestamp self =? 0)%Z) eqn:Hz;
    destruct (PostData.taken_at_datetime self) eqn:Ht; cbn; eauto;
    destruct (timestamp_in_range (PostData.timestamp self)) eqn:Hr;
    cbn; eauto;
    destruct Hok as [H0 | [Hd | Hr']];
    try congruence;
    apply negb_true_iff, Z.eqb_neq in Hz; contradiction.
Qed.

(** The record [parse_feed_item] hands to [__init__]. *)
Lemma parse_feed_item_inv (item : json) (owner : string) (post : PostData.t) :
  parse_feed_item item owner = Ret post ->
  exists (d : list (string * json)) (self : PostData.t),
    item = JObj d
    /\ PostData.__init__ self = Ret post
    /\ PostData.media_type self
       = media_type_of (dict_get d "media_type" (JInt 1))
           (dict_get d "product_type" (JStr EmptyString))
    /\ PostData.permalink self = EmptyString
    /\ as_str (dict_get d "code" (JStr EmptyString))
       = Some (PostData.shortcode self).
Proof.
  intros H. unfold parse_feed_item in H.
  destruct item as [| | | | | |d]; try discriminate H.
  returned H.
  eexists d, _. split; [reflexivity|]. split; [exact H|].
  cbn. split; [reflexivity|]. split; [reflexivity|].
  match goal with
  | E : field "shortcode" _ = Ret _ |- _ =>
      unfold field in E;
      destruct (as_str (dict_get d "code" (JStr EmptyString)));
      inversion E; reflexivity
  end.
Qed.

Lemma collect_parsed (items : list json) (owner : string)
      (posts : list PostData.t) :
  collect items owner posts = (posts ++ parsed_in_order items owner)%list.
Proof.
  revert posts. induction items as [|item items IH]; intros posts; cbn.
  - now rewrite app_nil_r.
  - unfold parsed_in_order in IH.
    destruct (parse_feed_item item owner) as [post | e]; rewrite IH.
    + now rewrite <- app_assoc.
    + reflexivity.
Qed.

Lemma parsed_in_order_app (l1 l2 : list json) (owner : string) :
  parsed_in_order (l1 ++ l2)%list owner
  = (parsed_in_order l1 owner ++ parsed_in_order l2 owner)%list.
Proof. unfold parsed_in_order. apply flat_map_app. Qed.

Lemma parsed_in_order_length (items : list json) (owner : string) :
  (length (parsed_in_order items owner) <= length items)%nat.
Proof.
  unfold parsed_in_order.
  induction items as [|item items IH]; cbn [flat_map length]; [lia|].
  rewrite length_app.
  destruct (parse_feed_item item owner); cbn [length]; lia.
Qed.

(** C7.  The media type follows a fixed priority on the media-type
    code [c] and the product type of the item: ["carousel"] when
    [c == 8], whatever the product type; otherwise, when [c == 2],
    ["reel"] if the product type is ["clips"] and ["video"] if it is
    anything else; ["image"] for every other code.  Every post that
    [parse_feed_item] returns carries the media type so resolved from
    the [media_type] entry of its item (1 when absent) and its
    [product_type] entry (the empty string when absent). *)
Theorem media_type_priority :
  (forall code product : json,
      eq_int code 8 = true -> media_type_of code product = "carousel")
  /\ (forall code product : json,
        eq_int code 8 = false -> eq_int code 2 = true ->
        eq_str product "clips" = true ->
        media_type_of code product = "reel")
  /\ (forall code product : json,
        eq_int code 8 = false -> eq_int code 2 = true ->
        eq_str product "clips" = false ->
        media_type_of code product = "video")
  /\ (forall code product : json,
        eq_int code 8 = false -> eq_int code 2 = false ->
        media_type_of code product = "image")
  /\ (forall (item : json) (owner : string) (post : PostData.t),
        parse_feed_item item owner = Ret post ->
        exists d : list (string * json),
          item = JObj d
          /\ PostData.media_type post
             = media_type_of (dict_get d "media_type" (JInt 1))
                 (dict_get d "product_type" (JStr EmptyString))).
Proof.
  unfold media_type_of. repeat split.
  - intros code product H8. now rewrite H8.
  - intros code product H8 H2 Hc. now rewrite H8, H2, Hc.
  - intros code product H8 H2 Hc. now rewrite H8, H2, Hc.
  - intros code product H8 H2. now rewrite H8, H2.
  - intros item owner post H.
    destruct (parse_feed_item_inv _ _ H) as (d & self & -> & Hinit & Hm & _).
    exists d. split; [reflexivity|].
    destruct (init_fields _ Hinit) as (_ & -> & _). exact Hm.
Qed.

(** C8 (as amended).  For a record with a non-empty short code whose
    construction goes through, the stored permalink is the canonical
    URL of the short code when the caller supplied no permalink (or an
    empty one), and the supplied permalink when the caller supplied
    one; the short code itself is stored unchanged.  [parse_feed_item]
    supplies none: every post it returns with a non-empty short code
    has the canonical URL of that short code as its permalink. *)
Theorem permalink_derived_unless_supplied :
  (forall self : PostData.t,
      is_empty (PostData.shortcode self) = false ->
      PostData.timestamp self = 0%Z
      \/ PostData.taken_at_datetime self <> None
      \/ timestamp_in_range (PostData.timestamp self) = true ->
      exists p : PostData.t,
        PostData.__init__ self = Ret p
        /\ PostData.shortcode p = PostData.shortcode self
        /\ PostData.permalink p
           = if is_empty (PostData.permalink self)
             then PostData.permalink_of (PostData.shortcode self)
             else PostData.permalink self)
  /\ (forall (item : json) (owner : string) (post : PostData.t),
        parse_feed_item item owner = Ret post ->
        is_empty (PostData.shortcode post) = false ->
        PostData.permalink post
        = PostData.permalink_of (PostData.shortcode post)).
Proof.
  split.
  - intros self Hcode Hts.
    destruct (init_returns self Hts) as (p & Hp).
    exists p. split; [exact Hp|].
    destruct (init_fields _ Hp) as (Hs & _ & Hl).
    split; [exact Hs|]. rewrite Hl, Hcode. cbn [negb].
    now rewrite andb_true_r.
  - intros item owner post H Hcode.
    destruct (parse_feed_item_inv _ _ H)
      as (d & self & _ & Hinit & _ & Hperm & _).
    destruct (init_fields _ Hinit) as (Hs & _ & Hl).
    rewrite Hs in Hcode |- *. rewrite Hl, Hperm, Hcode. reflexivity.
Qed.

(** C10 (as amended).  For every feed response [dict] whose [items]
    entry is absent or can be iterated (a list; also a string or an
    object, which yield their characters or keys),
    [parse_feed_response] returns normally: it returns the cursor and
    the flag of the response and, as posts, those of the items that
    parse, in the order of the items.  An item whose parsing raises is
    skipped and costs the page nothing else. *)
Theorem feed_response_skips_bad_items :
  forall (d : list (string * json)) (owner : string) (elements : list json),
    iter (dict_get d "items" (JArr [])) = Ret elements ->
    parse_feed_response (JObj d) owner
    = Ret (parsed_in_order elements owner,
           dict_get d "next_max_id" JNull,
           dict_get d "more_available" (JBool false))
    /\ (forall (before after : list json) (bad : json) (e : exn),
          elements = (before ++ bad :: after)%list ->
          parse_feed_item bad owner = Raise e ->
          parsed_in_order elements owner
          = (parsed_in_order before owner ++ parsed_in_order after owner)%list)
    /\ (forall post : PostData.t,
          In post (parsed_in_order elements owner) <->
          exists item : json,
            In item elements /\ parse_feed_item item owner = Ret post).
Proof.
  intros d owner elements Hiter. split; [|split].
  - unfold parse_feed_response. cbn [get bind]. rewrite Hiter. cbn [bind].
    now rewrite collect_parsed.
  - intros before after bad e -> Hbad.
    rewrite parsed_in_order_app. f_equal.
    unfold parsed_in_order. cbn [flat_map]. now rewrite Hbad.
  - intros post. unfold parsed_in_order. rewrite in_flat_map.
    split; intros (item & Hin & H); exists item; (split; [exact Hin|]).
    + destruct (parse_feed_item item owner) as [p | e];
        [destruct H as [-> | []]; reflexivity | destruct H].
    + rewrite H. now left.
Qed.

End PostFacts.

(** A reel, and a carousel whose product type is that of a reel. *)
Lemma media_type_priority_witness :
  (exists post : Models.PostData.t,
      @Parsers.PostParser.parse_feed_item PyVal.strict_host
        Fixtures.reel_item EmptyString = Ret post
      /\ Models.PostData.media_type post = "reel"%string)
  /\ (exists post : Models.PostData.t,
        @Parsers.PostParser.parse_feed_item PyVal.strict_host
          Fixtures.carousel_item EmptyString = Ret post
        /\ Models.PostData.media_type post = "carousel"%string).
Proof.
  pose proof (@media_type_priority PyVal.strict_host)
    as (H8 & Hreel & _ & _ & Hpost).
  split.
  - destruct (@Parsers.PostParser.parse_feed_item PyVal.strict_host
                Fixtures.reel_item EmptyString) as [post | e] eqn:E;
      [|vm_compute in E; discriminate].
    exists post. split; [reflexivity|].
    destruct (Hpost _ _ _ E) as (d & Hd & ->). inversion Hd; subst.
    apply Hreel; reflexivity.
  - destruct (@Parsers.PostParser.parse_feed_item PyVal.strict_host
                Fixtures.carousel_item EmptyString) as [post | e] eqn:E;
      [|vm_compute in E; discriminate].
    exists post. split; [reflexivity|].
    destruct (Hpost _ _ _ E) as (d & Hd & ->). inversion Hd; subst.
    apply H8; reflexivity.
Defined.

(** The permalink of a parsed sample item. *)
Lemma permalink_derived_unless_supplied_witness :
  exists post : Models.PostData.t,
    @Parsers.PostParser.parse_feed_item PyVal.strict_host
      (Fixtures.item 3) EmptyString = Ret post
    /\ Models.PostData.shortcode post = "P3"%string
    /\ Models.PostData.permalink post
       = "https://www.instagram.com/p/P3/"%string.
Proof.
  destruct (@Parsers.PostParser.parse_feed_item PyVal.strict_host
              (Fixtures.item 3) EmptyString) as [post | e] eqn:E;
    [|vm_compute in E; discriminate].
  exists post. split; [reflexivity|].
  assert (Hs : Models.PostData.shortcode post = "P3"%string).
  { vm_compute in E. inversion E. reflexivity. }
  split; [exact Hs|].
  rewrite (proj2 (@permalink_derived_unless_supplied PyVal.strict_host)
             _ _ _ E); rewrite Hs; reflexivity.
Defined.

(** C8, the claim as written, fails: a permalink handed to the
    constructor next to the short code is stored as given, and differs
    from the URL derived from the short code. *)
Lemma supplied_permalink_is_kept :
  exists p : Models.PostData.t,
    @Models.PostData.__init__ PyVal.strict_host
      Fixtures.post_with_own_permalink = Ret p
    /\ PyStr.is_empty (Models.PostData.shortcode p) = false
    /\ Models.PostData.permalink p
       <> Models.PostData.permalink_of (Models.PostData.shortcode p).
Proof.
  eexists. split; [vm_compute; reflexivity|].
  split; [reflexivity|]. vm_compute. discriminate.
Qed.

(** A page of four items, the third of which is a number: the other
    three come back, in order. *)
Lemma feed_response_skips_bad_items_witness :
  exists posts : list Models.PostData.t,
    @Parsers.PostParser.parse_feed_response PyVal.strict_host
      Fixtures.page_with_bad_item EmptyString
    = Ret (posts, PyVal.JNull, PyVal.JBool false)
    /\ map Models.PostData.id posts = ["1"; "2"; "4"]%string.
Proof.
  eexists. split.
  - apply (@feed_response_skips_bad_items PyVal.strict_host).
    vm_compute. reflexivity.
  - vm_compute. reflexivity.
Defined.

(** C10, the claim as written, fails: a feed response [dict] whose
    [items] entry is [null] makes [parse_feed_response] raise, outside
    the handler that guards the single items. *)
Lemma feed_response_with_null_items_raises :
  @Parsers.PostParser.parse_feed_response PyVal.strict_host
    Fixtures.null_items_response EmptyString
  = Raise (TypeError "'NoneType' object is not iterable").
Proof. vm_compute. reflexivity. Qed.

(** ** Pagination *)

Section ScrapeFacts.

Import PyStr PyNum PyVal Models Parsers Client.

Context {host : Host}.
Variable username : string.

Lemma cap_reached_mono {max_posts : option Z} (l1 l2 : list PostData.t) :
  cap_reached max_posts l2 = false -> (length l1 <= length l2)%nat ->
  cap_reached max_posts l1 = false.
Proof.
  unfold cap_reached. destruct max_posts as [k|]; [|reflexivity].
  intros H Hlen. apply andb_false_iff in H. apply andb_false_iff.
  destruct H as [H | H]; [left; exact H | right].
  apply Z.leb_gt in H. apply Z.leb_gt. lia.
Qed.

Lemma over_cap_reached {max_posts : option Z} (l : list PostData.t) :
  cap_reached max_posts l = false -> over_cap max_posts l = false.
Proof.
  unfold cap_reached, over_cap. destruct max_posts as [k|]; [|reflexivity].
  intros H. apply andb_false_iff in H. apply andb_false_iff.
  destruct H as [H | H]; [left; exact H | right].
  apply Z.leb_gt in H. apply Z.ltb_ge. lia.
Qed.

Lemma concat_firstn_length {A : Type} (k : nat) (l : list (list A)) :
  (length (concat (firstn k l)) <= length (concat l))%nat.
Proof.
  revert k. induction l as [|x l IH]; intros [|k]; cbn; try lia.
  rewrite !length_app. specialize (IH k). lia.
Qed.

Lemma concat_uniform_length {A : Type} (s : nat) (l : list (list A)) :
  (forall x, In x l -> length x = s) ->
  length (concat l) = (length l * s)%nat.
Proof.
  induction l as [|x l IH]; intros H; cbn; [reflexivity|].
  rewrite length_app, (H x (or_introl eq_refl)), IH; [lia|].
  intros y Hy. apply H. now right.
Qed.

(** A page that is fetched and parsed sends the loop back to its test. *)
Lemma page_fetched (st : loop_state) (f : fetch) (data : json)
      (p : ProfileData.t) (posts : list PostData.t) (cursor more : json) :
  f (next_max_id st) = Ret data ->
  backfill_user_id (profile st) data = Ret p ->
  PostParser.parse_feed_response data username = Ret (posts, cursor, more) ->
  page username f st
  = (mkState p (all_posts st ++ posts) cursor more (errors st)
       (requests st ++ [next_max_id st]), truthy cursor).
Proof.
  intros Hf Hb Hp. unfold page. cbn. now rewrite Hf, Hb, Hp.
Qed.

(** A page that fails ends the loop: the posts, the cursor and the flag
    stay as they were, one error and one request are added. *)
Lemma page_failed (st : loop_state) (f : fetch) (e : exn) :
  PageFails username f st e ->
  exists p : ProfileData.t,
    page username f st
    = (mkState p (all_posts st) (next_max_id st)
         (more_available st) (errors st ++ [exn_str e])
         (requests st ++ [next_max_id st]), false).
Proof.
  intros [Hf | data Hf Hb | data p Hf Hb Hp]; unfold page; cbn.
  - rewrite Hf. now exists (profile st).
  - rewrite Hf, Hb. now exists (profile st).
  - rewrite Hf, Hb, Hp. now exists p.
Qed.

Lemma Fetched_state (st st' : loop_state) (fs : list fetch)
      (pss : list (list PostData.t)) :
  Fetched username st fs pss st' ->
  all_posts st' = all_posts st ++ concat pss
  /\ errors st' = errors st
  /\ length (requests st') = (length (requests st) + length fs)%nat
  /\ length pss = length fs.
Proof.
  induction 1 as [st | st f fs data p posts cursor more pss st'
                       Hf Hb Hp Hc Hm Hrest IH]; cbn.
  - rewrite app_nil_r. repeat split; lia.
  - cbn in IH. destruct IH as (Ha & He & Hr & Hl).
    rewrite Ha, He, Hr, Hl, length_app, <- app_assoc. cbn.
    repeat split; lia.
Qed.

(** After at least one fetched page the loop holds a cursor and a true
    continuation flag. *)
Lemma Fetched_running (st st' : loop_state) (fs : list fetch)
      (pss : list (list PostData.t)) :
  Fetched username st fs pss st' ->
  (fs = [] /\ st' = st)
  \/ (fs <> [] /\ truthy (more_available st') = true
      /\ truthy (next_max_id st') = true).
Proof.
  induction 1 as [st | st f fs data p posts cursor more pss st'
                       Hf Hb Hp Hc Hm Hrest IH].
  - left. split; reflexivity.
  - right. split; [discriminate|].
    destruct IH as [(_ & ->) | (_ & H1 & H2)]; cbn; auto.
Qed.

(** The loop runs through fetched pages as long as the cap is not met
    before any of them. *)
Lemma paginate_fetched (st st' : loop_state) (fs : list fetch)
      (pss : list (list PostData.t)) :
  Fetched username st fs pss st' ->
  forall (max_posts : option Z) (rest : list fetch),
    truthy (more_available st) = true ->
    (forall k : nat, (k < length pss)%nat ->
       cap_reached max_posts (all_posts st ++ concat (firstn k pss)) = false) ->
    paginate max_posts username (fs ++ rest) st
    = paginate max_posts username rest st'.
Proof.
  induction 1 as [st | st f fs data p posts cursor more pss st'
                       Hf Hb Hp Hc Hm Hrest IH];
    intros max_posts rest Hmore Hcap.
  - reflexivity.
  - cbn [app paginate]. rewrite Hmore. cbn [negb].
    pose proof (Hcap 0%nat ltac:(cbn; lia)) as H0.
    cbn [firstn concat] in H0. rewrite app_nil_r in H0. rewrite H0.
    rewrite (page_fetched _ _ Hf Hb Hp), Hc.
    apply IH; [exact Hm|].
    intros k Hk. cbn [all_posts]. rewrite <- app_assoc.
    apply (Hcap (S k)). cbn. lia.
Qed.

Lemma paginate_stops (max_posts : option Z) (script : list fetch)
      (st : loop_state) :
  truthy (more_available st) = false
  \/ cap_reached max_posts (all_posts st) = true ->
  paginate max_posts username script st = Some st.
Proof.
  intros [H | H]; destruct script; cbn [paginate]; rewrite H; cbn [negb];
    try reflexivity; destruct (negb (truthy (more_available st)));
    reflexivity.
Qed.

Lemma Fetched_more (profile0 : ProfileData.t) (st : loop_state)
      (fs : list fetch) (pss : list (list PostData.t)) :
  Fetched username (initial profile0) fs pss st ->
  truthy (more_available st) = true
  /\ truthy (next_max_id st) = match fs with [] => false | _ :: _ => true end.
Proof.
  intros H. destruct (Fetched_running H) as [(-> & ->) | (Hne & Hm & Hc)].
  - split; reflexivity.
  - split; [exact Hm|]. destruct fs; [now elim Hne | exact Hc].
Qed.

(** C1 (as amended).  Let the pages [fs] of a full scrape be fetched
    and parsed, each with a cursor and a true continuation flag, and
    let the next page, asked for because the cap is not met, fail with
    [e]: a block or any other exception out of the fetch, or an
    exception while the response is read.  Then [scrape_full] returns a
    result, whose posts are exactly those of the pages [fs] in order,
    whose error list is the one message [str(e)], and whose
    [has_more_posts] flag repeats the state left by the last good page:
    [True] when at least one page was fetched, [False] when the very
    first page failed. *)
Theorem abort_keeps_earlier_pages :
  forall (config : Config.ScraperConfig) (max_posts : option Z)
         (profile0 : ProfileData.t) (fs : list fetch)
         (pss : list (list PostData.t)) (st : loop_state)
         (f : fetch) (e : exn) (rest : list fetch),
    Fetched username (initial profile0) fs pss st ->
    cap_reached (effective_max_posts config max_posts) (all_posts st) = false ->
    PageFails username f st e ->
    exists r : ScrapeResult.t,
      scrape_full config username max_posts (Ret profile0) (fs ++ f :: rest)
      = Some (mkScrape (Ret r) (requests st ++ [next_max_id st]))
      /\ ScrapeResult.posts r = concat pss
      /\ ScrapeResult.total_posts_scraped r = Z.of_nat (length (concat pss))
      /\ ScrapeResult.errors r = [exn_str e]
      /\ ScrapeResult.has_more_posts r
         = match fs with [] => false | _ :: _ => true end.
Proof.
  intros config max_posts profile0 fs pss st f e rest Hfetched Hcap Hfail.
  destruct (Fetched_state Hfetched) as (Hposts & Herr & _ & _).
  destruct (Fetched_more Hfetched) as (Hmore & Hcursor).
  destruct (page_failed Hfail) as (p & Hpage).
  cbn [initial all_posts errors app] in Hposts, Herr.
  unfold scrape_full.
  rewrite (paginate_fetched Hfetched); [|reflexivity|].
  - cbn [paginate]. rewrite Hmore, Hcap, Hpage.
    cbn [negb all_posts more_available next_max_id errors requests profile].
    rewrite (@over_cap_reached _ _ Hcap), Hmore, Hcursor, Herr, Hposts.
    cbn [field bind app].
    eexists. split; [reflexivity|]. cbn. auto.
  - intros k Hk. cbn [initial all_posts app].
    eapply cap_reached_mono; [exact Hcap|]. rewrite Hposts.
    apply concat_firstn_length.
Qed.

Lemma in_firstn {A : Type} (x : A) (k : nat) (l : list A) :
  In x (firstn k l) -> In x l.
Proof.
  revert k. induction l as [|y l IH]; intros [|k] H; cbn in H;
    try contradiction.
  destruct H as [-> | H]; [now left | right; eauto].
Qed.

Lemma concat_firstn_uniform {A : Type} (s k : nat) (l : list (list A)) :
  (forall x, In x l -> length x = s) -> (k <= length l)%nat ->
  length (concat (firstn k l)) = (k * s)%nat.
Proof.
  intros H Hk.
  rewrite (@concat_uniform_length A s).
  - now rewrite firstn_length_le.
  - intros x Hx. apply H. eapply in_firstn; eassumption.
Qed.

(** C5.  (1) A scrape capped at [K > 0] over pages of one size [s],
    each fetched and parsed with a cursor and a true continuation flag,
    stops after the first page that brings the total to [K] or more:
    when [n] pages are scripted before anything else and
    [(n-1) * s < K <= n * s], exactly those [n] pages are requested and
    the result is the first [K] posts, [K] of them.  (2) An uncapped
    scrape over fetched pages followed by a page without a cursor
    returns all the posts of all those pages and no error; its length
    is the sum of the page sizes, 30 for pages of 12, 12 and 6. *)
Theorem capped_scrape_truncates :
  (forall (config : Config.ScraperConfig) (max_posts : option Z) (K : Z)
          (profile0 : ProfileData.t) (fs : list fetch)
          (pss : list (list PostData.t)) (st : loop_state)
          (rest : list fetch) (s : nat),
      effective_max_posts config max_posts = Some K -> (0 < K)%Z ->
      Fetched username (initial profile0) fs pss st ->
      (forall ps, In ps pss -> length ps = s) ->
      (Z.of_nat ((length fs - 1) * s) < K <= Z.of_nat (length fs * s))%Z ->
      exists r : ScrapeResult.t,
        scrape_full config username max_posts (Ret profile0) (fs ++ rest)
        = Some (mkScrape (Ret r) (requests st))
        /\ length (requests st) = length fs
        /\ ScrapeResult.posts r = firstn (Z.to_nat K) (concat pss)
        /\ Z.of_nat (length (ScrapeResult.posts r)) = K
        /\ ScrapeResult.total_posts_scraped r = K
        /\ ScrapeResult.errors r = [])
  /\
  (forall (config : Config.ScraperConfig) (profile0 : ProfileData.t)
          (fs : list fetch) (pss : list (list PostData.t))
          (st : loop_state) (f : fetch) (data : json) (p : ProfileData.t)
          (posts : list PostData.t) (cursor more : json)
          (rest : list fetch),
      Config.max_posts config = None ->
      Fetched username (initial profile0) fs pss st ->
      f (next_max_id st) = Ret data ->
      backfill_user_id (profile st) data = Ret p ->
      PostParser.parse_feed_response data username = Ret (posts, cursor, more) ->
      truthy cursor = false ->
      truthy more = true \/ as_bool more = Some false ->
      exists r : ScrapeResult.t,
        scrape_full config username None (Ret profile0) (fs ++ f :: rest)
        = Some (mkScrape (Ret r) (requests st ++ [next_max_id st]))
        /\ ScrapeResult.posts r = concat pss ++ posts
        /\ length (ScrapeResult.posts r)
           = (length (concat pss) + length posts)%nat
        /\ ScrapeResult.errors r = []
        /\ ScrapeResult.has_more_posts r = false).
Proof.
  split.
  - intros config max_posts K profile0 fs pss st rest s HK Hpos Hfetched
           Hsize Hbounds.
    destruct (Fetched_state Hfetched) as (Hposts & Herr & Hreq & Hlen).
    destruct (Fetched_more Hfetched) as (Hmore & Hcursor).
    cbn [initial all_posts errors requests app length] in Hposts, Herr, Hreq.
    assert (Htotal : length (all_posts st) = (length fs * s)%nat).
    { rewrite Hposts, <- Hlen. now apply concat_uniform_length. }
    assert (Hn : fs <> []).
    { intros ->. cbn in Hbounds. lia. }
    unfold scrape_full. rewrite HK.
    rewrite (paginate_fetched Hfetched); [|reflexivity|].
    + rewrite paginate_stops.
      2:{ right. unfold cap_reached. rewrite Htotal.
          apply andb_true_iff. split.
          - apply negb_true_iff, Z.eqb_neq. lia.
          - apply Z.leb_le. lia. }
      rewrite Hmore. destruct fs as [|f0 fs0]; [now elim Hn|].
      rewrite Hcursor, Herr. cbn [field bind].
      eexists. split; [reflexivity|]. cbn [ScrapeResult.posts
        ScrapeResult.total_posts_scraped ScrapeResult.errors].
      split; [exact Hreq|].
      assert (Hsel :
        (if over_cap (Some K) (all_posts st)
         then slice_to K (all_posts st) else all_posts st)
        = firstn (Z.to_nat K) (concat pss)).
      { unfold over_cap, slice_to. rewrite Htotal, <- Hposts.
        destruct (K <? Z.of_nat (length (f0 :: fs0) * s))%Z eqn:Hlt.
        - replace (negb (K =? 0)%Z) with true
            by (symmetry; apply negb_true_iff, Z.eqb_neq; lia).
          cbn [andb]. replace (0 <=? K)%Z with true
            by (symmetry; apply Z.leb_le; lia).
          reflexivity.
        - rewrite andb_false_r. symmetry. apply firstn_all2.
          apply Z.ltb_ge in Hlt. lia. }
      rewrite Hsel.
      assert (Hk : length (firstn (Z.to_nat K) (concat pss)) = Z.to_nat K).
      { apply firstn_length_le. rewrite <- Hposts, Htotal. lia. }
      rewrite Hk. repeat split; lia.
    + intros k Hk. cbn [initial all_posts app].
      unfold cap_reached. apply andb_false_iff. right. apply Z.leb_gt.
      rewrite (concat_firstn_uniform _ Hsize); [|lia].
      rewrite Hlen in Hk.
      assert ((k * s <= (length fs - 1) * s)%nat)
        by (apply Nat.mul_le_mono_r; lia).
      lia.
  - intros config profile0 fs pss st f data p posts cursor more rest
           Hcfg Hfetched Hf Hb Hp Hc Hflag.
    destruct (Fetched_state Hfetched) as (Hposts & Herr & _ & _).
    destruct (Fetched_more Hfetched) as (Hmore & _).
    cbn [initial all_posts errors app] in Hposts, Herr.
    unfold scrape_full, effective_max_posts. rewrite Hcfg.
    rewrite (paginate_fetched Hfetched); [|reflexivity|reflexivity].
    cbn [paginate cap_reached]. rewrite Hmore.
    rewrite (page_fetched _ _ Hf Hb Hp), Hc.
    cbn [negb over_cap all_posts more_available next_max_id errors
         requests profile].
    rewrite Hc, Herr, Hposts.
    assert (Hmore' :
      (if truthy more then Some false else as_bool more) = Some false).
    { destruct Hflag as [-> | Hb']; [reflexivity|].
      rewrite Hb'. now destruct (truthy more). }
    rewrite Hmore'. cbn [field bind].
    eexists. split; [reflexivity|]. cbn. rewrite length_app. auto.
Qed.

End ScrapeFacts.

(** The sample feeds under the strict host. *)
Section SampleRuns.

Import PyVal Models Parsers Client Fixtures.
Local Open Scope string_scope.

Lemma page_1_fetched :
  @Fetched strict_host "alice" (initial alice)
    [serve None (feed_page 1 12 (Some "C1") true)]
    [posts_of_page 1 12] after_page_1.
Proof.
  eapply (@Fetched_cons strict_host "alice" (initial alice) _ []
            (feed_page 1 12 (Some "C1") true) alice (posts_of_page 1 12)
            (JStr "C1") (JBool true) [] after_page_1).
  - vm_compute. reflexivity.
  - vm_compute. reflexivity.
  - vm_compute. reflexivity.
  - reflexivity.
  - reflexivity.
  - apply Fetched_nil.
Qed.

Lemma pages_1_2_fetched :
  @Fetched strict_host "alice" (initial alice)
    [serve None (feed_page 1 12 (Some "C1") true);
     serve (Some "C1") (feed_page 13 12 (Some "C2") true)]
    [posts_of_page 1 12; posts_of_page 13 12] after_page_2.
Proof.
  eapply (@Fetched_cons strict_host "alice" (initial alice) _ _
            (feed_page 1 12 (Some "C1") true) alice (posts_of_page 1 12)
            (JStr "C1") (JBool true) _ after_page_2).
  - vm_compute. reflexivity.
  - vm_compute. reflexivity.
  - vm_compute. reflexivity.
  - reflexivity.
  - reflexivity.
  - eapply (@Fetched_cons strict_host "alice" after_page_1 _ []
              (feed_page 13 12 (Some "C2") true) alice (posts_of_page 13 12)
              (JStr "C2") (JBool true) [] after_page_2).
    + vm_compute. reflexivity.
    + vm_compute. reflexivity.
    + vm_compute. reflexivity.
    + reflexivity.
    + reflexivity.
    + apply Fetched_nil.
Qed.

End SampleRuns.

(** Page 1 returns 12 items and a cursor, page 2 ends in a block. *)
Lemma abort_keeps_earlier_pages_witness :
  exists r : Models.ScrapeResult.t,
    @Client.scrape_full PyVal.strict_host Config.default_ScraperConfig
      "alice" None (Ret Fixtures.alice) Fixtures.blocked_on_page_2
    = Some (Client.mkScrape (Ret r) [PyVal.JNull; PyVal.JStr "C1"])
    /\ Models.ScrapeResult.posts r = Fixtures.posts_of_page 1 12
    /\ length (Models.ScrapeResult.posts r) = 12%nat
    /\ Models.ScrapeResult.errors r
       = ["Block detected: login_required. Feed API returned login required"%string]
    /\ Models.ScrapeResult.has_more_posts r = true.
Proof.
  destruct (@abort_keeps_earlier_pages PyVal.strict_host "alice"
              Config.default_ScraperConfig None Fixtures.alice _ _ _
              Fixtures.blocked
              (BlockDetectedError "login_required"
                 "Feed API returned login required")
              [] page_1_fetched eq_refl
            (@Client.fails_in_fetch PyVal.strict_host _ _ _ _ eq_refl))
    as (r & Hrun & Hposts & _ & Herr & Hmore).
  exists r. split; [exact Hrun|].
  split; [rewrite Hposts; vm_compute; reflexivity|].
  split; [rewrite Hposts; vm_compute; reflexivity|].
  split; [exact Herr | exact Hmore].
Defined.

(** C1, the claim as written, fails on the flag: in the run where page 1
    returns 12 items with a cursor and page 2 raises a block error, the
    12 posts and the error are in the result, and [has_more_posts] is
    [True], the continuation state of page 1, not [False]. *)
Lemma abort_leaves_flag_set :
  exists r : Models.ScrapeResult.t,
    @Client.scrape_full PyVal.strict_host Config.default_ScraperConfig
      "alice" None (Ret Fixtures.alice) Fixtures.blocked_on_page_2
    = Some (Client.mkScrape (Ret r) [PyVal.JNull; PyVal.JStr "C1"])
    /\ length (Models.ScrapeResult.posts r) = 12%nat
    /\ Models.ScrapeResult.errors r <> []
    /\ Models.ScrapeResult.has_more_posts r <> false.
Proof.
  eexists. split; [vm_compute; reflexivity|].
  cbn. repeat split; discriminate.
Qed.

(** Pages of 12, 12 and 6 items: capped at 20 the scrape asks for two
    pages and returns 20 posts; uncapped it returns all 30. *)
Lemma capped_scrape_truncates_witness :
  (exists r : Models.ScrapeResult.t,
      @Client.scrape_full PyVal.strict_host Config.default_ScraperConfig
        "alice" (Some 20%Z) (Ret Fixtures.alice) Fixtures.three_pages
      = Some (Client.mkScrape (Ret r) [PyVal.JNull; PyVal.JStr "C1"])
      /\ Z.of_nat (length (Models.ScrapeResult.posts r)) = 20%Z
      /\ Models.ScrapeResult.posts r
         = firstn 20 (Fixtures.posts_of_page 1 12 ++ Fixtures.posts_of_page 13 12))
  /\
  (exists r : Models.ScrapeResult.t,
      @Client.scrape_full PyVal.strict_host Config.default_ScraperConfig
        "alice" None (Ret Fixtures.alice) Fixtures.three_pages
      = Some (Client.mkScrape (Ret r)
                [PyVal.JNull; PyVal.JStr "C1"; PyVal.JStr "C2"])
      /\ length (Models.ScrapeResult.posts r) = 30%nat
      /\ Models.ScrapeResult.errors r = []
      /\ Models.ScrapeResult.has_more_posts r = false).
Proof.
  pose proof (@capped_scrape_truncates PyVal.strict_host "alice")
    as (Hcapped & Hopen).
  split.
  - destruct (Hcapped Config.default_ScraperConfig (Some 20%Z) 20%Z
                Fixtures.alice _ _ _
                [Fixtures.serve (Some "C2"%string)
                   (Fixtures.feed_page 25 6 None false)]
                12%nat eq_refl eq_refl pages_1_2_fetched)
      as (r & Hrun & _ & Hposts & Hlen & _).
    + intros ps [<- | [<- | []]]; vm_compute; reflexivity.
    + cbn. lia.
    + exists r. split; [exact Hrun|]. split; [exact Hlen|].
      rewrite Hposts. cbn [concat]. now rewrite app_nil_r.
  - destruct (Hopen Config.default_ScraperConfig Fixtures.alice _ _ _
                (Fixtures.serve (Some "C2"%string)
                   (Fixtures.feed_page 25 6 None false))
                (Fixtures.feed_page 25 6 None false) Fixtures.alice
                (Fixtures.posts_of_page 25 6) PyVal.JNull (PyVal.JBool false)
                [] eq_refl pages_1_2_fetched eq_refl eq_refl)
      as (r & Hrun & _ & Hlen & Herr & Hmore).
    + vm_compute. reflexivity.
    + reflexivity.
    + right. reflexivity.
    + exists r. split; [exact Hrun|].
      split; [rewrite Hlen; vm_compute; reflexivity|].
      split; [exact Herr | exact Hmore].
Defined.

(** ** More on the retry wrapper and the delays *)

From Stdlib Require Import Lqa.

Unset Implicit Arguments.

Section RetryTraceFacts.

Import Retry RetryTrace.

Variable T : Type.
Variable config : RetryConfig.
Variable func : nat -> result T.
Variable rnd : nat -> Q.

(** One step of the loop on an attempt that is not final. *)
Lemma attempts_step (a : nat) (rest : list nat) (last : option exn)
      (sl : list Q) (n : nat) :
  final config a (func a) = false ->
  exists e : exn,
    func a = Raise e
    /\ attempts config func rnd (a :: rest) last sl n
       = attempts config func rnd rest (Some e)
           (sl ++ [delay_after config rnd a (func a)]) (S n).
Proof.
  unfold final, delay_after, failure_status. intros H.
  destruct (func a) as [v | e] eqn:Hf; [discriminate|].
  apply orb_false_iff in H. destruct H as (Hr & Hlt).
  apply negb_false_iff in Hr. apply Z.leb_gt in Hlt. apply Z.ltb_lt in Hlt.
  exists e. split; [reflexivity|].
  cbn [attempts]. rewrite Hf.
  destruct e; cbn [is_retryable] in Hr; try discriminate;
    rewrite ?Hr, ?Hlt; reflexivity.
Qed.

(** One step of the loop on a final attempt. *)
Lemma attempts_final (a : nat) (rest : list nat) (last : option exn)
      (sl : list Q) (n : nat) :
  final config a (func a) = true ->
  attempts config func rnd (a :: rest) last sl n = mkRun (func a) sl (S n).
Proof.
  unfold final. intros H. cbn [attempts].
  destruct (func a) as [v | e] eqn:Hf; [reflexivity|].
  apply orb_true_iff in H. destruct H as [Hr | Hge].
  - apply negb_true_iff in Hr.
    destruct e; cbn [is_retryable] in Hr; try discriminate;
      rewrite ?Hr; reflexivity.
  - apply Z.leb_le, Z.ltb_ge in Hge. rewrite Hge.
    destruct e; try reflexivity.
    destruct (negb (retryable_status config status)); reflexivity.
Qed.

Lemma attempts_trace (k : nat) :
  final config k (func k) = true ->
  forall (m a : nat) (last : option exn) (sl : list Q) (n : nat),
    (a <= k < a + m)%nat ->
    (forall i : nat, (a <= i < k)%nat -> final config i (func i) = false) ->
    attempts config func rnd (seq a m) last sl n
    = mkRun (func k)
        (sl ++ map (fun i => delay_after config rnd i (func i)) (seq a (k - a)))
        (n + (k - a) + 1).
Proof.
  intros Hk m. induction m as [|m IH]; intros a last sl n Hrange Hbefore;
    [lia|].
  cbn [seq]. destruct (Nat.eq_dec a k) as [-> | Hne].
  - rewrite (attempts_final k _ _ _ _ Hk). rewrite Nat.sub_diag. cbn [seq map].
    rewrite app_nil_r. f_equal. lia.
  - destruct (attempts_step a (seq (S a) m) last sl n) as (e & _ & ->);
      [apply Hbefore; lia|].
    rewrite IH; [|lia|intros i Hi; apply Hbefore; lia].
    replace (k - a)%nat with (S (k - S a)) by lia. cbn [seq map].
    rewrite <- app_assoc. cbn [app]. f_equal. lia.
Qed.

(** The first final attempt exists among the [max_attempts] when there
    is at least one attempt. *)
Lemma first_final_exists (N : nat) :
  (0 < N)%nat -> Z.of_nat N = max_attempts config ->
  exists k : nat,
    (k < N)%nat /\ final config k (func k) = true
    /\ forall i : nat, (i < k)%nat -> final config i (func i) = false.
Proof.
  intros HN HNmax.
  assert (Hlast : final config (N - 1) (func (N - 1)) = true).
  { unfold final. destruct (func (N - 1)); [reflexivity|].
    apply orb_true_iff. right. apply Z.leb_le. lia. }
  assert (Hsearch : forall j : nat, (j <= N - 1)%nat ->
            (forall i, (i < N - 1 - j)%nat -> final config i (func i) = false) ->
            exists k : nat,
              (k < N)%nat /\ final config k (func k) = true
              /\ forall i : nat, (i < k)%nat -> final config i (func i) = false).
  { induction j as [|j IH]; intros Hj Hpre.
    - exists (N - 1)%nat. repeat split; [lia | exact Hlast |].
      intros i Hi. apply Hpre. lia.
    - destruct (final config (N - 1 - S j) (func (N - 1 - S j))) eqn:E.
      + exists (N - 1 - S j)%nat. repeat split; [lia | exact E | exact Hpre].
      + apply IH; [lia|]. intros i Hi.
        destruct (Nat.eq_dec i (N - 1 - S j)) as [-> | Hne]; [exact E|].
        apply Hpre. lia. }
  apply (Hsearch (N - 1)%nat); [lia|]. intros i Hi. lia.
Qed.

(** The run of [with_retry] up to its first final attempt. *)
Lemma with_retry_stops_at (k : nat) :
  (Z.of_nat k < max_attempts config)%Z ->
  (forall i : nat, (i < k)%nat -> final config i (func i) = false) ->
  final config k (func k) = true ->
  with_retry config func rnd
  = mkRun (func k)
      (map (fun i => delay_after config rnd i (func i)) (seq 0 k))
      (S k).
Proof.
  intros Hlt Hbefore Hk. unfold with_retry, attempt_range.
  rewrite (attempts_trace k Hk (Z.to_nat (max_attempts config)) 0%nat);
    [|lia|intros i Hi; apply Hbefore; lia].
  rewrite Nat.sub_0_r. cbn [app]. f_equal. lia.
Qed.



(** X3.  With [max_attempts] zero or negative the wrapped function is
    never called and the wrapper raises the [TypeError] of
    [raise None]. *)
Theorem with_retry_no_attempt :
  (max_attempts config <= 0)%Z ->
  with_retry config func rnd
  = mkRun (Raise (TypeError "exceptions must derive from BaseException")) [] 0.
Proof.
  intros H. unfold with_retry, attempt_range.
  replace (Z.to_nat (max_attempts config)) with 0%nat by lia. reflexivity.
Qed.

(** A value handed back by the wrapper is the value of its last call. *)
Lemma with_retry_returned (v : T) :
  outcome (with_retry config func rnd) = Ret v ->
  exists k : nat,
    (Z.of_nat k < max_attempts config)%Z
    /\ func k = Ret v
    /\ calls (with_retry config func rnd) = S k
    /\ length (slept (with_retry config func rnd)) = k.
Proof.
  intros H.
  destruct (Z_le_gt_dec (max_attempts config) 0) as [Hle | Hgt].
  - unfold with_retry, attempt_range in H.
    replace (Z.to_nat (max_attempts config)) with 0%nat in H by lia.
    discriminate H.
  - destruct (first_final_exists (Z.to_nat (max_attempts config)))
      as (k & Hk & Hfin & Hbefore); [lia | lia |].
    rewrite (with_retry_stops_at k) in H |- *;
      [|lia|exact Hbefore|exact Hfin|lia|exact Hbefore|exact Hfin].
    cbn [outcome calls slept] in H |- *.
    exists k. rewrite length_map, length_seq. repeat split; [lia | exact H].
Qed.

End RetryTraceFacts.


(** ** More on block detection *)

Section BlockScanFacts.

Import PyStr Client BlockSpec.
Local Open Scope string_scope.

Lemma match_patterns_some (bt : string) (ps : list string) (h : string)
      (e : exn) :
  match_patterns bt ps h = Some e ->
  exists p : string,
    In p ps /\ contains (lower p) h = true
    /\ e = BlockDetectedError bt ("Pattern matched: " ++ p).
Proof.
  induction ps as [|p ps IH]; cbn [match_patterns]; [discriminate|].
  destruct (contains (lower p) h) eqn:E; intros H.
  - inversion H. exists p. split; [now left|]. split; [exact E | reflexivity].
  - destruct (IH H) as (q & Hq & Hc & He).
    exists q. split; [now right|]. split; assumption.
Qed.

Lemma match_patterns_none (bt : string) (ps : list string) (h : string) :
  match_patterns bt ps h = None <->
  forall p : string, In p ps -> contains (lower p) h = false.
Proof.
  induction ps as [|p ps IH]; cbn [match_patterns].
  - split; [intros _ p [] | reflexivity].
  - destruct (contains (lower p) h) eqn:E; split.
    + discriminate.
    + intros H. rewrite (H p (or_introl eq_refl)) in E. discriminate.
    + intros H q [<- | Hq]; [exact E | now apply IH].
    + intros H. apply IH. intros q Hq. apply H. now right.
Qed.

Lemma match_blocks_some (table : list (string * list string)) (h : string)
      (e : exn) :
  match_blocks table h = Some e ->
  exists (bt : string) (ps : list string) (p : string),
    In (bt, ps) table /\ In p ps /\ contains (lower p) h = true
    /\ e = BlockDetectedError bt ("Pattern matched: " ++ p).
Proof.
  induction table as [|[bt ps] table IH]; cbn [match_blocks]; [discriminate|].
  destruct (match_patterns bt ps h) as [e'|] eqn:E; intros H.
  - inversion H; subst.
    destruct (match_patterns_some bt ps h e E) as (p & Hp & Hc & He).
    exists bt, ps, p. split; [now left|]. auto.
  - destruct (IH H) as (bt' & ps' & p & Hin & Hp & Hc & He).
    exists bt', ps', p. split; [now right|]. auto.
Qed.

Lemma match_blocks_none (table : list (string * list string)) (h : string) :
  match_blocks table h = None <->
  forall (bt : string) (ps : list string) (p : string),
    In (bt, ps) table -> In p ps -> contains (lower p) h = false.
Proof.
  induction table as [|[bt ps] table IH]; cbn [match_blocks].
  - split; [intros _ bt ps p [] | reflexivity].
  - destruct (match_patterns bt ps h) as [e|] eqn:E; split.
    + discriminate.
    + intros H.
      assert (N : match_patterns bt ps h = None).
      { apply match_patterns_none. intros p Hp.
        apply (H bt ps p); [now left | exact Hp]. }
      rewrite N in E. discriminate.
    + intros H bt' ps' p [Heq | Hin] Hp.
      * inversion Heq; subst.
        now apply (proj1 (match_patterns_none bt' ps' h) E).
      * now apply (proj1 IH H bt' ps' p).
    + intros H. apply IH. intros bt' ps' p Hin Hp.
      apply (H bt' ps' p); [now right | exact Hp].
Qed.

Lemma scan_clean (html : string) :
  match_blocks Config.BLOCK_PATTERNS (lower html) = None <->
  forall bt p : string, ~ Denied Config.BLOCK_PATTERNS html bt p.
Proof.
  rewrite match_blocks_none. split.
  - intros H bt p (ps & Hin & Hp & Hs).
    apply contains_spec in Hs. rewrite (H bt ps p Hin Hp) in Hs. discriminate.
  - intros H bt ps p Hin Hp. apply contains_false. intros Hs.
    apply (H bt p). exists ps. auto.
Qed.

(** X6.  [_check_for_blocks] returns normally exactly when the path of
    the URL shows neither a login nor a challenge redirect and either
    the body carries both og markers, or no phrase of [BLOCK_PATTERNS]
    occurs in it (letter case aside) and it has at least 1000
    characters or contains [username]. *)
Theorem check_for_blocks_passes_iff :
  forall url_path html : string,
    _check_for_blocks url_path html = Ret tt <->
    ~ Substring "/accounts/login" url_path
    /\ ~ Substring "/challenge" url_path
    /\ ((Substring og_title_marker html /\ Substring og_description_marker html)
        \/ ((forall bt p : string, ~ Denied Config.BLOCK_PATTERNS html bt p)
            /\ ((1000 <= String.length html)%nat
                \/ Substring "username" html))).
Proof.
  intros url_path html. split.
  - unfold _check_for_blocks. intros H.
    destruct (contains "/accounts/login" url_path) eqn:E1; [discriminate|].
    destruct (contains "/challenge" url_path) eqn:E2; [discriminate|].
    split; [now apply contains_false|]. split; [now apply contains_false|].
    destruct (contains og_title_marker html
              && contains og_description_marker html) eqn:E3.
    + left. apply andb_true_iff in E3. destruct E3 as (Ht & Hd).
      split; now apply contains_spec.
    + right.
      destruct (match_blocks Config.BLOCK_PATTERNS (lower html)) eqn:E4;
        [discriminate|].
      split; [now apply scan_clean|].
      destruct (String.length html <? 1000)%nat eqn:El.
      * right. destruct (contains "username" html) eqn:Eu;
          [now apply contains_spec | discriminate].
      * left. now apply Nat.ltb_ge.
  - intros (H1 & H2 & H3). apply contains_false in H1, H2.
    unfold _check_for_blocks. rewrite H1, H2.
    destruct H3 as [(Ht & Hd) | (Hclean & Hbig)].
    + apply contains_spec in Ht, Hd. now rewrite Ht, Hd.
    + destruct (contains og_title_marker html
                && contains og_description_marker html); [reflexivity|].
      apply scan_clean in Hclean. rewrite Hclean.
      destruct Hbig as [Hlen | Hu].
      * apply Nat.ltb_ge in Hlen. now rewrite Hlen.
      * apply contains_spec in Hu. rewrite Hu. now rewrite andb_false_r.
Qed.

(** X7.  Whatever [_check_for_blocks] raises is one of: the login
    redirect block, the challenge redirect block, a block whose type and
    phrase are an entry of [BLOCK_PATTERNS] occurring in the body
    (letter case aside), or the retryable signal for a body of fewer
    than 1000 characters without [username]. *)
Theorem check_for_blocks_raises_only :
  forall (url_path html : string) (e : exn),
    _check_for_blocks url_path html = Raise e ->
    (e = BlockDetectedError "login_required" "Redirected to login page"
     /\ Substring "/accounts/login" url_path)
    \/ (e = BlockDetectedError "challenge_required"
              "Challenge/verification required"
        /\ Substring "/challenge" url_path)
    \/ (exists bt p : string,
          Denied Config.BLOCK_PATTERNS html bt p
          /\ In bt ["login_required"; "challenge_required"; "not_found";
                    "rate_limited"]
          /\ e = BlockDetectedError bt ("Pattern matched: " ++ p))
    \/ (e = RetryableError "Empty or minimal response received"
        /\ (String.length html < 1000)%nat
        /\ ~ Substring "username" html).
Proof.
  intros url_path html e. unfold _check_for_blocks.
  destruct (contains "/accounts/login" url_path) eqn:E1.
  { intros H. inversion H. left. split; [reflexivity|].
    now apply contains_spec. }
  destruct (contains "/challenge" url_path) eqn:E2.
  { intros H. inversion H. right. left. split; [reflexivity|].
    now apply contains_spec. }
  destruct (contains og_title_marker html && contains og_description_marker html);
    [discriminate|].
  destruct (match_blocks Config.BLOCK_PATTERNS (lower html)) as [e'|] eqn:E3.
  { intros H. inversion H; subst. right. right. left.
    destruct (match_blocks_some _ _ _ E3) as (bt & ps & p & Hin & Hp & Hc & ->).
    exists bt, p. split; [exists ps; split; [exact Hin|]; split;
                          [exact Hp | now apply contains_spec]|].
    split; [|reflexivity].
    cbn [Config.BLOCK_PATTERNS In] in Hin |- *.
    destruct Hin as [H1 | [H1 | [H1 | [H1 | []]]]]; inversion H1; auto. }
  destruct (String.length html <? 1000)%nat eqn:El; cbn [andb];
    [|discriminate].
  destruct (contains "username" html) eqn:Eu; cbn [negb]; [discriminate|].
  intros H. inversion H. right. right. right.
  split; [reflexivity|]. split; [now apply Nat.ltb_lt | now apply contains_false].
Qed.

(** X8.  A body that carries the phrase [Please wait a few minutes
    before you try again] (letter case aside), on a response that no
    redirect and no pair of og markers settles first, is reported as
    [login_required]: the entry of that type is scanned before the
    [rate_limited] entry, whose shorter phrase the body also contains. *)
Theorem wait_phrase_is_login_required :
  forall url_path html : string,
    ~ Substring "/accounts/login" url_path ->
    ~ Substring "/challenge" url_path ->
    ~ (Substring og_title_marker html /\ Substring og_description_marker html) ->
    Substring (lower "Please wait a few minutes before you try again")
      (lower html) ->
    Denied Config.BLOCK_PATTERNS html "rate_limited" "Please wait a few minutes"
    /\ exists p : string,
         _check_for_blocks url_path html
         = Raise (BlockDetectedError "login_required" ("Pattern matched: " ++ p)).
Proof.
  intros url_path html Hlogin Hchallenge Hmarkers Hphrase. split.
  - exists ["Please wait a few minutes"; "rate limit"].
    split; [cbn; auto|]. split; [now left|].
    destruct Hphrase as (pre & post & E).
    exists pre, (" before you try again" ++ post). rewrite E.
    reflexivity.
  - apply contains_false in Hlogin, Hchallenge.
    apply contains_spec in Hphrase.
    unfold _check_for_blocks. rewrite Hlogin, Hchallenge.
    replace (contains og_title_marker html
             && contains og_description_marker html) with false.
    2:{ symmetry. apply not_true_is_false. intros H.
        apply andb_true_iff in H. destruct H as (H1 & H2).
        apply Hmarkers. split; now apply contains_spec. }
    cbn [Config.BLOCK_PATTERNS match_blocks match_patterns].
    destruct (contains (lower "Login required") (lower html)).
    + eexists. reflexivity.
    + rewrite Hphrase. eexists. reflexivity.
Qed.

End BlockScanFacts.

(** ** The two fetches under the retry wrapper *)

Section FetchFacts.

Import PyStr PyVal Models Client Retry RetryTrace Fetch FetchSpec.
Local Open Scope string_scope.

Variable s : session.
Variable attempt : nat -> result response.
Variable rnd : nat -> Q.

(** A failure that is not retried, met at the first attempt, ends the
    wrapper after one call and no delay. *)
Lemma not_retried_at_once (T : Type) (func : nat -> result T) (e : exn) :
  func 0%nat = Raise e -> is_retryable fetch_config e = false ->
  with_retry fetch_config func rnd = mkRun (Raise e) [] 1.
Proof.
  intros Hf Hr.
  rewrite (with_retry_stops_at T fetch_config func rnd 0%nat).
  - rewrite Hf. reflexivity.
  - reflexivity.
  - intros i Hi. lia.
  - unfold final. rewrite Hf, Hr. reflexivity.
Qed.

Lemma feed_body_login (r : response) :
  MentionsLoginRequired r ->
  feed_body s r
  = Raise (BlockDetectedError "login_required" "Feed API returned login required").
Proof.
  intros (Hl & Hr). apply contains_spec in Hl, Hr.
  unfold feed_body. now rewrite Hl, Hr.
Qed.

Lemma feed_body_api_failure (r : response) (m : string) :
  ~ MentionsLoginRequired r -> ApiFailure r m ->
  feed_body s r
  = if contains "rate" (lower m) || contains "wait" (lower m)
    then Raise (RetryableError ("Rate limited: " ++ m))
    else Raise (ParserError ("Feed API error: " ++ m)).
Proof.
  intros Hno (d & Hd & Hstatus & Hmsg). unfold feed_body.
  replace (contains "login" (lower (text r))
           && contains "required" (lower (text r))) with false.
  2:{ symmetry. apply not_true_is_false. intros H.
      apply andb_true_iff in H. destruct H as (H1 & H2).
      apply Hno. split; now apply contains_spec. }
  rewrite Hd. cbn [get bind]. rewrite Hstatus. cbn [eq_str String.eqb].
  unfold api_failure. cbn [get bind]. rewrite Hmsg.
  change (String.eqb "fail" "fail") with true. cbn iota. reflexivity.
Qed.

Lemma speaks_of_rate_spec (m : string) :
  contains "rate" (lower m) || contains "wait" (lower m) = true
  <-> SpeaksOfRate m.
Proof.
  unfold SpeaksOfRate. rewrite orb_true_iff, !contains_spec. reflexivity.
Qed.

(** X9.  A profile response that [_check_for_blocks] reports as blocked
    is not retried: [_fetch_profile_page] raises the block after that
    one request, without any delay, and the session is not touched
    (nothing is returned). *)
Theorem profile_block_not_retried :
  forall (r : response) (bt msg : string),
    attempt 0%nat = Ret r ->
    _check_for_blocks (url_path r) (text r)
    = Raise (BlockDetectedError bt msg) ->
    _fetch_profile_page s attempt rnd
    = mkRun (Raise (BlockDetectedError bt msg)) [] 1.
Proof.
  intros r bt msg Ha Hc. unfold _fetch_profile_page.
  apply not_retried_at_once; [|reflexivity].
  rewrite Ha. cbn [bind]. unfold profile_body. rewrite Hc. reflexivity.
Qed.

(** X11.  A feed response whose text holds the words [login] and
    [required], letter case aside, is reported as a [login_required]
    block whatever it decodes to, and [_fetch_feed_page] does not retry
    it: one request, no delay. *)
Theorem feed_login_words_not_retried :
  forall r : response,
    attempt 0%nat = Ret r ->
    MentionsLoginRequired r ->
    _fetch_feed_page s attempt rnd
    = mkRun (Raise (BlockDetectedError "login_required"
                      "Feed API returned login required")) [] 1.
Proof.
  intros r Ha Hm. unfold _fetch_feed_page.
  apply not_retried_at_once; [|reflexivity].
  rewrite Ha. cbn [bind]. now apply feed_body_login.
Qed.

(** X12.  A feed response that decodes to a failure ([status] equal to
    [fail]) whose message speaks neither of a rate nor of waiting makes
    [_fetch_feed_page] raise a [ParserError] with that message after the
    one request, without retrying. *)
Theorem feed_api_failure_not_retried :
  forall (r : response) (m : string),
    attempt 0%nat = Ret r ->
    ~ MentionsLoginRequired r ->
    ApiFailure r m ->
    ~ SpeaksOfRate m ->
    _fetch_feed_page s attempt rnd
    = mkRun (Raise (ParserError ("Feed API error: " ++ m))) [] 1.
Proof.
  intros r m Ha Hno Hfail Hrate. unfold _fetch_feed_page.
  apply not_retried_at_once; [|reflexivity].
  rewrite Ha. cbn [bind]. rewrite (feed_body_api_failure r m Hno Hfail).
  destruct (contains "rate" (lower m) || contains "wait" (lower m)) eqn:E;
    [|reflexivity].
  elim Hrate. now apply speaks_of_rate_spec.
Qed.



End FetchFacts.

(** ** The profile fetch from the start of a session *)

Section StartupFacts.

Import PyStr PyVal Models Parsers Client Retry RetryTrace Fetch Startup.
Local Open Scope string_scope.

Variable s0 : session.
Variable homes : nat -> result home.
Variable attempt : nat -> result response.
Variable rnd : nat -> Q.

Lemma session_before_count (k : nat) :
  request_count (session_before s0 homes k) = request_count s0.
Proof.
  induction k as [|k IH]; cbn [session_before]; [reflexivity|].
  unfold _ensure_initialized, initialize.
  destruct (tokens (session_before s0 homes k)); [exact IH|].
  destruct (homes k); cbn [bind request_count]; exact IH.
Qed.

Lemma session_before_warm (k : nat) (t0 : SessionTokens.t) :
  tokens s0 = Some t0 -> session_before s0 homes k = s0.
Proof.
  intros H. induction k as [|k IH]; cbn [session_before]; [reflexivity|].
  rewrite IH. unfold _ensure_initialized. now rewrite H.
Qed.

(** On a client without tokens: every run so far failed in
    [initialize], or the tokens are those of the first home page that
    came through. *)
Lemma session_before_cold (k : nat) :
  tokens s0 = None ->
  (tokens (session_before s0 homes k) = None
   /\ forall i : nat, (i < k)%nat -> exists e : exn, homes i = Raise e)
  \/ (exists (j : nat) (h : home),
        (j < k)%nat /\ homes j = Ret h
        /\ (forall i : nat, (i < j)%nat -> exists e : exn, homes i = Raise e)
        /\ tokens (session_before s0 homes k)
           = Some (TokenDiscovery.discover_all (home_text h) (csrf_of h))).
Proof.
  intros H0. induction k as [|k IH]; cbn [session_before].
  - left. split; [exact H0 | intros i Hi; lia].
  - unfold _ensure_initialized, initialize.
    destruct IH as [(Hn & Hfail) | (j & h & Hj & Hh & Hfail & Ht)].
    + rewrite Hn. destruct (homes k) as [h | e] eqn:Hk; cbn [bind].
      * right. exists k, h. repeat split; [lia | exact Hk | exact Hfail].
      * left. split; [exact Hn|]. intros i Hi.
        destruct (Nat.eq_dec i k) as [-> | Hne]; [eauto | apply Hfail; lia].
    + rewrite Ht. right. exists j, h. repeat split; try assumption. lia.
Qed.

(** What [_ensure_initialized] hands to the body of the [k]-th run. *)
Lemma ensure_initialized_spec (k : nat) (s1 : session) :
  _ensure_initialized (session_before s0 homes k) (homes k) = Ret s1 ->
  request_count s1 = request_count s0
  /\ exists t : SessionTokens.t,
       tokens s1 = Some t
       /\ match tokens s0 with
          | Some t0 => t = t0
          | None =>
              exists (j : nat) (h : home),
                (j <= k)%nat /\ homes j = Ret h
                /\ (forall i : nat, (i < j)%nat ->
                      exists e : exn, homes i = Raise e)
                /\ t = TokenDiscovery.discover_all (home_text h) (csrf_of h)
          end.
Proof.
  intros H. destruct (tokens s0) as [t0|] eqn:H0.
  - rewrite (session_before_warm k t0 H0) in H.
    unfold _ensure_initialized in H. rewrite H0 in H. injection H as <-.
    split; [reflexivity|]. now exists t0.
  - pose proof (session_before_count k) as Hc.
    unfold _ensure_initialized, initialize in H.
    destruct (session_before_cold k H0)
      as [(Hn & Hfail) | (j & h & Hj & Hh & Hfail & Ht)].
    + rewrite Hn in H. destruct (homes k) as [h | e] eqn:Hk;
        cbn [bind] in H; [|discriminate H].
      injection H as <-. cbn [request_count tokens].
      split; [exact Hc|]. eexists. split; [reflexivity|].
      exists k, h. repeat split; [lia | exact Hk | exact Hfail].
    + rewrite Ht in H. injection H as <-.
      split; [exact Hc|]. eexists. split; [exact Ht|].
      exists j, h. repeat split; try assumption. lia.
Qed.

(** The run of [_fetch_profile_page] that returns. *)
Lemma profile_fetch_returned (html : string) (s' : session) :
  outcome (_fetch_profile_page s0 homes attempt rnd) = Ret (html, s') ->
  exists (k : nat) (r : response) (t : SessionTokens.t),
    (k < 3)%nat
    /\ calls (_fetch_profile_page s0 homes attempt rnd) = S k
    /\ attempt k = Ret r
    /\ html = text r
    /\ _check_for_blocks (url_path r) (text r) = Ret tt
    /\ request_count s' = S (request_count s0)
    /\ match tokens s0 with
       | Some t0 => t = t0
       | None =>
           exists (j : nat) (h : home),
             (j <= k)%nat /\ homes j = Ret h
             /\ (forall i : nat, (i < j)%nat ->
                   exists e : exn, homes i = Raise e)
             /\ t = TokenDiscovery.discover_all (home_text h) (csrf_of h)
       end
    /\ tokens s'
       = Some (match csrf_cookie r with
               | Some c => if is_empty c then t else set_csrf t c
               | None => t
               end).
Proof.
  intros H. unfold _fetch_profile_page in *.
  destruct (with_retry_returned _ _ _ _ _ H) as (k & Hk & Hf & Hc & _).
  unfold profile_run in Hf.
  destruct (_ensure_initialized (session_before s0 homes k) (homes k))
    as [s1 | e] eqn:He; [|discriminate Hf].
  cbn [bind] in Hf.
  destruct (attempt k) as [r | e] eqn:Ha; [|discriminate Hf].
  cbn [bind] in Hf. unfold profile_body in Hf.
  destruct (_check_for_blocks (url_path r) (text r)) as [[] | e] eqn:Hb;
    [|discriminate Hf].
  cbn [bind] in Hf. injection Hf as <- <-.
  destruct (ensure_initialized_spec k s1 He) as (Hcount & t & Ht & Horigin).
  exists k, r, t. cbn in Hk.
  split; [lia|]. split; [exact Hc|]. split; [exact Ha|].
  split; [reflexivity|]. split; [exact Hb|].
  cbn [request_count tokens]. split; [now rewrite Hcount|].
  split; [exact Horigin|].
  rewrite Ht. destruct (csrf_cookie r) as [c|]; [|reflexivity].
  now destruct (is_empty c).
Qed.

End StartupFacts.

Section WarmStart.

Import PyStr PyVal Models Parsers Client Retry RetryTrace Fetch Startup.
Local Open Scope string_scope.

(** The wrapper sees the wrapped function through its outcomes only. *)
Lemma attempts_ext (T : Type) (config : RetryConfig)
      (f g : nat -> result T) (rnd : nat -> Q) :
  (forall k : nat, f k = g k) ->
  forall (todo : list nat) (last : option exn) (sl : list Q) (n : nat),
    attempts config f rnd todo last sl n
    = attempts config g rnd todo last sl n.
Proof.
  intros H todo. induction todo as [|a rest IH]; intros last sl n;
    cbn [attempts]; [reflexivity|].
  rewrite H. destruct (g a) as [v | e]; [reflexivity|].
  destruct e; cbv zeta;
    repeat match goal with
           | |- context [if ?b then _ else _] => destruct b
           end;
    rewrite ?IH; reflexivity.
Qed.

(** On a client that has its tokens the start of the session is no
    step at all: the fetch is the one of [Fetch]. *)
Lemma warm_fetch_agrees (s0 : session) (homes : nat -> result home)
      (attempt : nat -> result response) (rnd : nat -> Q)
      (t0 : SessionTokens.t) :
  tokens s0 = Some t0 ->
  Startup._fetch_profile_page s0 homes attempt rnd
  = Fetch._fetch_profile_page s0 attempt rnd.
Proof.
  intros H0. unfold Startup._fetch_profile_page, Fetch._fetch_profile_page,
    with_retry.
  apply attempts_ext. intros k. unfold profile_run.
  rewrite (session_before_warm s0 homes k t0 H0).
  unfold _ensure_initialized. now rewrite H0.
Qed.

(** X10.  When [_fetch_profile_page] returns, on a client that had its
    tokens or on one that had none, after whatever retries: the HTML is
    the text of its last response, which passed [_check_for_blocks];
    the request counter has grown by exactly one; the client has
    tokens, whose application id and signature id are those it had
    before, or, on a client without tokens, those discovered on the
    first home page that [initialize] received; and the csrf token is
    the cookie of the profile response when that carries a non-empty
    one, and otherwise the token the client had or discovered. *)
Theorem profile_fetch_effects :
  forall (s0 : session) (homes : nat -> result home)
         (attempt : nat -> result response) (rnd : nat -> Q)
         (html : string) (s' : session),
    outcome (Startup._fetch_profile_page s0 homes attempt rnd)
    = Ret (html, s') ->
    exists (k : nat) (r : response) (t t' : SessionTokens.t),
      (k < 3)%nat
      /\ calls (Startup._fetch_profile_page s0 homes attempt rnd) = S k
      /\ attempt k = Ret r
      /\ html = text r
      /\ _check_for_blocks (url_path r) (text r) = Ret tt
      /\ request_count s' = S (request_count s0)
      /\ tokens s' = Some t'
      /\ match tokens s0 with
         | Some t0 => t = t0
         | None =>
             exists (j : nat) (h : home),
               (j <= k)%nat /\ homes j = Ret h
               /\ (forall i : nat, (i < j)%nat ->
                     exists e : exn, homes i = Raise e)
               /\ t = TokenDiscovery.discover_all (home_text h) (csrf_of h)
         end
      /\ SessionTokens.app_id t' = SessionTokens.app_id t
      /\ SessionTokens.asbd_id t' = SessionTokens.asbd_id t
      /\ SessionTokens.csrf_token t'
         = match csrf_cookie r with
           | Some c => if is_empty c then SessionTokens.csrf_token t else c
           | None => SessionTokens.csrf_token t
           end.
Proof.
  intros s0 homes attempt rnd html s' H.
  destruct (profile_fetch_returned s0 homes attempt rnd html s' H)
    as (k & r & t & Hk & Hc & Ha & Hh & Hb & Hn & Ho & Ht).
  exists k, r, t. eexists.
  split; [exact Hk|]. split; [exact Hc|]. split; [exact Ha|].
  split; [exact Hh|]. split; [exact Hb|]. split; [exact Hn|].
  split; [exact Ht|]. split; [exact Ho|].
  destruct (csrf_cookie r) as [c|]; [|auto].
  destruct (is_empty c); cbn; auto.
Qed.

End WarmStart.
(** ** More on the pagination loop *)

Section ScrapeInvariants.

Import PyStr PyNum PyVal Models Parsers Client.

Context {host : Host}.
Variable username : string.

(** What one pass through the [try] block does to the loop state. *)
Lemma page_cases (f : fetch) (st st' : loop_state) (again : bool) :
  page username f st = (st', again) ->
  requests st' = requests st ++ [next_max_id st]
  /\ (profile st' = profile st
      \/ (is_empty (ProfileData.user_id (profile st)) = true
          /\ exists v : string,
               profile st' = ProfileData.set_user_id (profile st) v))
  /\ ((again = false
       /\ (exists e : exn, errors st' = errors st ++ [exn_str e])
       /\ all_posts st' = all_posts st
       /\ next_max_id st' = next_max_id st
       /\ more_available st' = more_available st)
      \/ (again = truthy (next_max_id st')
          /\ errors st' = errors st
          /\ exists posts : list PostData.t,
               all_posts st' = all_posts st ++ posts)).
Proof.
  unfold page. cbn [next_max_id profile all_posts more_available errors requests].
  destruct (f (next_max_id st)) as [data | e].
  - assert (Hb : forall p, backfill_user_id (profile st) data = Ret p ->
              p = profile st
              \/ (is_empty (ProfileData.user_id (profile st)) = true
                  /\ exists v, p = ProfileData.set_user_id (profile st) v)).
    { unfold backfill_user_id. intros p.
      destruct (is_empty (ProfileData.user_id (profile st))) eqn:Eu.
      - destruct (get data "user" JNull) as [u | e']; cbn [bind];
          [|discriminate].
        destruct (truthy u).
        + destruct (subscript data "user") as [user | e']; cbn [bind];
            [|discriminate].
          destruct (get user "pk" (JStr EmptyString)) as [pk | e'];
            cbn [bind]; [|discriminate].
          intros H. inversion H. right. split; [reflexivity|]. eauto.
        + intros H. inversion H. now left.
      - intros H. inversion H. now left. }
    destruct (backfill_user_id (profile st) data) as [p | e] eqn:Eb.
    + cbn [profile all_posts next_max_id more_available errors requests].
      destruct (PostParser.parse_feed_response data username)
        as [[[posts cursor] more] | e].
      * intros H. inversion H; subst; clear H. cbn.
        split; [reflexivity|]. split; [now apply Hb|].
        right. split; [reflexivity|]. split; [reflexivity|]. now exists posts.
      * unfold abort. intros H. inversion H; subst; clear H. cbn.
        split; [reflexivity|]. split; [now apply Hb|].
        left. split; [reflexivity|]. split; [now exists e|]. auto.
    + unfold abort. intros H. inversion H; subst; clear H. cbn.
      split; [reflexivity|]. split; [now left|].
      left. split; [reflexivity|]. split; [now exists e|]. auto.
  - unfold abort. intros H. inversion H; subst; clear H. cbn.
    split; [reflexivity|]. split; [now left|].
    left. split; [reflexivity|]. split; [now exists e|]. auto.
Qed.

(** An invariant [P] of the running loop yields [Q] at its exit. *)
Lemma paginate_invariant (P Q : loop_state -> Prop)
      (max_posts : option Z) :
  (forall st, P st -> Q st) ->
  (forall st f st' again,
      P st -> page username f st = (st', again) ->
      if again then P st' else Q st') ->
  forall (script : list fetch) (st st' : loop_state),
    P st -> paginate max_posts username script st = Some st' -> Q st'.
Proof.
  intros Hexit Hstep script.
  induction script as [|f script IH]; intros st st' HP; cbn [paginate].
  - destruct (negb (truthy (more_available st)));
      [intros H; inversion H; subst; auto|].
    destruct (cap_reached max_posts (all_posts st));
      [intros H; inversion H; subst; auto | discriminate].
  - destruct (negb (truthy (more_available st)));
      [intros H; inversion H; subst; auto|].
    destruct (cap_reached max_posts (all_posts st));
      [intros H; inversion H; subst; auto|].
    destruct (page username f st) as [st1 again] eqn:Ep.
    pose proof (Hstep st f st1 again HP Ep) as Hnext.
    destruct again.
    + intros H. exact (IH st1 st' Hnext H).
    + intros H. inversion H; subst. exact Hnext.
Qed.

(** What [scrape_full] returns, in terms of the state the loop ends in. *)
Lemma scrape_full_result (config : Config.ScraperConfig)
      (max_posts : option Z) (profile_step : result ProfileData.t)
      (script : list fetch) (run : scrape_run) (r : ScrapeResult.t) :
  scrape_full config username max_posts profile_step script = Some run ->
  returned run = Ret r ->
  exists (p0 : ProfileData.t) (st : loop_state),
    profile_step = Ret p0
    /\ paginate (effective_max_posts config max_posts) username script
         (initial p0) = Some st
    /\ requested run = requests st
    /\ ScrapeResult.profile r = profile st
    /\ ScrapeResult.errors r = errors st
    /\ ScrapeResult.total_posts_scraped r
       = Z.of_nat (length (ScrapeResult.posts r))
    /\ ScrapeResult.posts r
       = if over_cap (effective_max_posts config max_posts) (all_posts st)
         then slice_to
                (match effective_max_posts config max_posts with
                 | Some k => k
                 | None => 0%Z
                 end) (all_posts st)
         else all_posts st.
Proof.
  unfold scrape_full. intros H Hret.
  destruct profile_step as [p0 | e];
    [|inversion H; subst; discriminate Hret].
  destruct (paginate (effective_max_posts config max_posts) username script
              (initial p0)) as [st|] eqn:Ep; [|discriminate H].
  inversion H; subst; clear H. cbn [returned requested] in *.
  exists p0, st. split; [reflexivity|]. split; [exact Ep|].
  split; [reflexivity|].
  destruct (if truthy (more_available st)
            then Some (truthy (next_max_id st))
            else as_bool (more_available st)) as [b|];
    cbn [field bind] in Hret; [|discriminate Hret].
  inversion Hret; subst; clear Hret. cbn. auto.
Qed.

(** X15.  Under a cap [K > 0] (given to the call or, failing that, set
    in the configuration) a result of [scrape_full] never holds more
    than [K] posts, whatever the feed returns, and its
    [total_posts_scraped] is the length of its post list. *)
Theorem scrape_never_exceeds_cap :
  forall (config : Config.ScraperConfig) (max_posts : option Z) (K : Z)
         (profile_step : result ProfileData.t) (script : list fetch)
         (run : scrape_run) (r : ScrapeResult.t),
    effective_max_posts config max_posts = Some K -> (0 < K)%Z ->
    scrape_full config username max_posts profile_step script = Some run ->
    returned run = Ret r ->
    (Z.of_nat (length (ScrapeResult.posts r)) <= K)%Z
    /\ ScrapeResult.total_posts_scraped r
       = Z.of_nat (length (ScrapeResult.posts r)).
Proof.
  intros config max_posts K profile_step script run r HK Hpos Hrun Hret.
  destruct (scrape_full_result _ _ _ _ _ _ Hrun Hret)
    as (p0 & st & _ & _ & _ & _ & _ & Htotal & Hposts).
  split; [|exact Htotal].
  rewrite Hposts, HK. unfold over_cap, slice_to.
  replace (negb (K =? 0)%Z) with true
    by (symmetry; apply negb_true_iff, Z.eqb_neq; lia).
  replace (0 <=? K)%Z with true by (symmetry; apply Z.leb_le; lia).
  cbn [andb].
  destruct (K <? Z.of_nat (length (all_posts st)))%Z eqn:E.
  - pose proof (firstn_le_length (Z.to_nat K) (all_posts st)). lia.
  - apply Z.ltb_ge in E. exact E.
Qed.

(** X16.  A result of [scrape_full] carries at most one error message:
    the loop is left at the first page that fails. *)
Theorem scrape_errors_at_most_one :
  forall (config : Config.ScraperConfig) (max_posts : option Z)
         (profile_step : result ProfileData.t) (script : list fetch)
         (run : scrape_run) (r : ScrapeResult.t),
    scrape_full config username max_posts profile_step script = Some run ->
    returned run = Ret r ->
    (length (ScrapeResult.errors r) <= 1)%nat.
Proof.
  intros config max_posts profile_step script run r Hrun Hret.
  destruct (scrape_full_result _ _ _ _ _ _ Hrun Hret)
    as (p0 & st & _ & Hpag & _ & _ & -> & _).
  apply (paginate_invariant
           (fun st => errors st = [])
           (fun st => (length (errors st) <= 1)%nat)
           (effective_max_posts config max_posts)) with (4 := Hpag).
  - intros st0 H. rewrite H. cbn. lia.
  - intros st0 f st1 again HP Hpage.
    destruct (page_cases f st0 st1 again Hpage)
      as (_ & _ & [(-> & (e & He) & _) | (Ha & He & _)]).
    + rewrite He, HP. cbn. lia.
    + rewrite Ha. destruct (truthy (next_max_id st1));
        rewrite He, HP; [reflexivity | cbn; lia].
  - reflexivity.
Qed.

(** X17.  [scrape_full] changes nothing of the profile it parsed but,
    possibly, the user id, and that only when the profile came without
    one: a profile with a user id is returned as it was. *)
Theorem scrape_keeps_profile :
  forall (config : Config.ScraperConfig) (max_posts : option Z)
         (p0 : ProfileData.t) (script : list fetch)
         (run : scrape_run) (r : ScrapeResult.t),
    scrape_full config username max_posts (Ret p0) script = Some run ->
    returned run = Ret r ->
    (exists v : string,
       ScrapeResult.profile r = ProfileData.set_user_id p0 v)
    /\ (is_empty (ProfileData.user_id p0) = false ->
        ScrapeResult.profile r = p0).
Proof.
  intros config max_posts p0 script run r Hrun Hret.
  destruct (scrape_full_result _ _ _ _ _ _ Hrun Hret)
    as (p0' & st & Hp0 & Hpag & _ & -> & _).
  inversion Hp0; subst p0'; clear Hp0.
  set (Inv := fun st : loop_state =>
         profile st = p0
         \/ (is_empty (ProfileData.user_id p0) = true
             /\ exists v, profile st = ProfileData.set_user_id p0 v)).
  assert (HInv : Inv st).
  { apply (paginate_invariant Inv Inv
             (effective_max_posts config max_posts)) with (4 := Hpag).
    - auto.
    - intros st0 f st1 again HP Hpage.
      assert (H1 : Inv st1).
      { unfold Inv in HP |- *.
        destruct (page_cases f st0 st1 again Hpage)
          as (_ & [Hsame | (Hempty & v & Hv)] & _).
        - rewrite Hsame. exact HP.
        - destruct HP as [HP | (He0 & w & Hw)]; right.
          + rewrite HP in Hempty, Hv. split; [exact Hempty|]. now exists v.
          + split; [exact He0|]. exists v. rewrite Hv, Hw.
            destruct p0; reflexivity. }
      destruct again; exact H1.
    - now left. }
  unfold Inv in HInv. destruct HInv as [-> | (Hempty & v & ->)].
  - split.
    + exists (ProfileData.user_id p0). destruct p0; reflexivity.
    + reflexivity.
  - split; [now exists v|]. intros H. rewrite H in Hempty. discriminate.
Qed.

(** X18.  Of the feed requests of a scrape only the first goes without a
    cursor: the log of requested cursors is empty, or starts with
    [None] and holds a truthy cursor at every later place. *)
Theorem scrape_requests_chain :
  forall (config : Config.ScraperConfig) (max_posts : option Z)
         (profile_step : result ProfileData.t) (script : list fetch)
         (run : scrape_run) (r : ScrapeResult.t),
    scrape_full config username max_posts profile_step script = Some run ->
    returned run = Ret r ->
    requested run = []
    \/ exists later : list json,
         requested run = JNull :: later
         /\ Forall (fun c => truthy c = true) later.
Proof.
  intros config max_posts profile_step script run r Hrun Hret.
  destruct (scrape_full_result _ _ _ _ _ _ Hrun Hret)
    as (p0 & st & _ & Hpag & -> & _).
  set (Q := fun st : loop_state =>
         requests st = []
         \/ exists later, requests st = JNull :: later
                          /\ Forall (fun c => truthy c = true) later).
  set (P := fun st : loop_state =>
         (requests st = [] /\ next_max_id st = JNull)
         \/ (truthy (next_max_id st) = true
             /\ exists later, requests st = JNull :: later
                              /\ Forall (fun c => truthy c = true) later)).
  assert (Hnext : forall st0 st1 : loop_state,
            P st0 -> requests st1 = requests st0 ++ [next_max_id st0] ->
            exists later, requests st1 = JNull :: later
                          /\ Forall (fun c => truthy c = true) later).
  { intros st0 st1 [(Hr & Hn) | (Ht & later & Hr & Hall)] Hreq.
    - exists []. rewrite Hreq, Hr, Hn. split; [reflexivity | constructor].
    - exists (later ++ [next_max_id st0]). rewrite Hreq, Hr.
      split; [reflexivity|]. apply Forall_app. split; [exact Hall|].
      constructor; [exact Ht | constructor]. }
  apply (paginate_invariant P Q (effective_max_posts config max_posts))
    with (4 := Hpag).
  - intros st0 [(Hr & _) | (_ & later & Hr & Hall)];
      [now left | right; now exists later].
  - intros st0 f st1 again HP Hpage.
    destruct (page_cases f st0 st1 again Hpage) as (Hreq & _ & Hcase).
    destruct (Hnext st0 st1 HP Hreq) as (later & Hl & Hall).
    destruct again.
    + right. split; [|now exists later].
      destruct Hcase as [(Hf & _) | (Ha & _)]; [discriminate | now symmetry].
    + right. now exists later.
  - left. split; reflexivity.
Qed.

(** X19.  A cap of 0 is no cap: [scrape_full] with [max_posts=0] behaves,
    for every configuration and every feed, as an uncapped scrape (the
    cap of the configuration is not consulted either). *)
Theorem scrape_zero_cap_is_uncapped :
  forall (config : Config.ScraperConfig)
         (profile_step : result ProfileData.t) (script : list fetch),
    scrape_full config username (Some 0%Z) profile_step script
    = scrape_full Config.default_ScraperConfig username None profile_step
        script.
Proof.
  intros config profile_step script. unfold scrape_full.
  destruct profile_step as [p0 | e]; [|reflexivity].
  cbn [effective_max_posts Config.max_posts Config.default_ScraperConfig].
  assert (Hpag : forall (sc : list fetch) (st : loop_state),
            paginate (Some 0%Z) username sc st = paginate None username sc st).
  { induction sc as [|f sc IH]; intros st; cbn [paginate cap_reached];
      cbn [Z.eqb negb andb]; [reflexivity|].
    destruct (negb (truthy (more_available st))); [reflexivity|].
    destruct (page username f st) as [st1 again].
    destruct again; [apply IH | reflexivity]. }
  rewrite Hpag. reflexivity.
Qed.

(** X20.  Under a negative cap [scrape_full] asks for no feed page and
    returns the parsed profile with no posts, no error and
    [has_more_posts] false, whatever the feed would have returned. *)
Theorem scrape_negative_cap_fetches_nothing :
  forall (config : Config.ScraperConfig) (K : Z) (p0 : ProfileData.t)
         (script : list fetch),
    (K < 0)%Z ->
    scrape_full config username (Some K) (Ret p0) script
    = Some (mkScrape (Ret (ScrapeResult.mk p0 [] 0 false [])) []).
Proof.
  intros config K p0 script HK. unfold scrape_full.
  cbn [effective_max_posts].
  rewrite paginate_stops.
  2:{ right. unfold cap_reached. cbn [initial all_posts length].
      apply andb_true_iff. split.
      - apply negb_true_iff, Z.eqb_neq. lia.
      - apply Z.leb_le. lia. }
  cbn [initial all_posts more_available next_max_id errors requests profile
       truthy field bind].
  unfold over_cap, slice_to. cbn [length].
  replace (negb (K =? 0)%Z) with true
    by (symmetry; apply negb_true_iff, Z.eqb_neq; lia).
  replace (K <? Z.of_nat 0)%Z with true by (symmetry; apply Z.ltb_lt; lia).
  cbn [andb].
  destruct (0 <=? K)%Z; rewrite !firstn_nil; reflexivity.
Qed.

End ScrapeInvariants.

(** ** More on the parsers and the post record *)

Section TokenShape.

Import PyStr Models Parsers Parsers.TokenDiscovery.
Local Open Scope string_scope.

Lemma re_search_digits (literal html g : string) :
  re_search literal html = Some g ->
  all_digits g = true /\ is_empty g = false.
Proof.
  intros H. apply re_search_sound in H.
  destruct H as (_ & _ & _ & Hne & Hd). auto.
Qed.

(** What [discover_all] returns is there and not empty. *)
Lemma discovered_ids_present (html csrf : string) :
  is_empty (SessionTokens.app_id (discover_all html csrf)) = false
  /\ exists b : string,
       SessionTokens.asbd_id (discover_all html csrf) = Some b
       /\ is_empty b = false.
Proof.
  cbn. unfold extract_app_id, extract_asbd_id. split.
  - destruct (re_search (Config.app_id Config.PATTERNS) html) eqn:E1;
      [now apply (re_search_digits _ _ _ E1)|].
    destruct (re_search (Config.app_id_alt Config.PATTERNS) html) eqn:E2;
      [now apply (re_search_digits _ _ _ E2) | reflexivity].
  - destruct (re_search (Config.asbd_id Config.PATTERNS) html) as [g|] eqn:E.
    + exists g. split; [reflexivity|]. now apply (re_search_digits _ _ _ E).
    + eexists. split; reflexivity.
Qed.

(** X21.  On a page made of the code points U+0000 to U+00FF, the range
    of the strings here, where the digits [\d] matches are [0] to [9]:
    the application id [discover_all] returns is a string of the digits
    [0] to [9] that is not empty, and the signature id is present and
    is such a string too, each taken from the page or from the fallback
    constants. *)
Theorem discovered_ids_are_numeric :
  forall html csrf : string,
    let t := discover_all html csrf in
    all_digits (SessionTokens.app_id t) = true
    /\ is_empty (SessionTokens.app_id t) = false
    /\ exists a : string,
         SessionTokens.asbd_id t = Some a
         /\ all_digits a = true /\ is_empty a = false.
Proof.
  intros html csrf. cbn. unfold extract_app_id, extract_asbd_id.
  split; [|split].
  - destruct (re_search (Config.app_id Config.PATTERNS) html) eqn:E1;
      [now apply (re_search_digits _ _ _ E1)|].
    destruct (re_search (Config.app_id_alt Config.PATTERNS) html) eqn:E2;
      [now apply (re_search_digits _ _ _ E2) | reflexivity].
  - destruct (re_search (Config.app_id Config.PATTERNS) html) eqn:E1;
      [now apply (re_search_digits _ _ _ E1)|].
    destruct (re_search (Config.app_id_alt Config.PATTERNS) html) eqn:E2;
      [now apply (re_search_digits _ _ _ E2) | reflexivity].
  - destruct (re_search (Config.asbd_id Config.PATTERNS) html) as [g|] eqn:E.
    + exists g. split; [reflexivity|]. now apply (re_search_digits _ _ _ E).
    + eexists. split; [reflexivity|]. split; reflexivity.
Qed.

End TokenShape.

Section PostRecordFacts.

Import PyStr PyNum PyVal Models Parsers Parsers.PostParser MediaSpec.
Local Open Scope string_scope.

Context {host : Host}.

(** What [__init__] does to the time fields, and that it leaves the
    video flag alone. *)
Lemma init_time_fields (self p : PostData.t) :
  PostData.__init__ self = Ret p ->
  PostData.is_video p = PostData.is_video self
  /\ PostData.timestamp p = PostData.timestamp self
  /\ (PostData.taken_at_datetime self = None ->
      if (PostData.timestamp self =? 0)%Z
      then PostData.taken_at_datetime p = None
      else PostData.taken_at_datetime p = Some (utc (PostData.timestamp self))
           /\ timestamp_in_range (PostData.timestamp self) = true).
Proof.
  unfold PostData.__init__, PostData.utcfromtimestamp. intros H.
  destruct (is_empty (PostData.permalink self)
            && negb (is_empty (PostData.shortcode self)));
    destruct (PostData.timestamp self =? 0)%Z eqn:Ez;
    destruct (PostData.taken_at_datetime self) eqn:Et;
    cbn [negb andb PostData.timestamp PostData.taken_at_datetime
         PostData.set_permalink] in H;
    rewrite ?Ez, ?Et in H; cbn [negb andb] in H;
    try (inversion H; subst; cbn; rewrite ?Ez; repeat split;
         solve [auto | discriminate]);
    destruct (timestamp_in_range (PostData.timestamp self)) eqn:Er;
    cbn [bind] in H; inversion H; subst; cbn; rewrite ?Ez;
    repeat split; auto.
Qed.

(** More of the record [parse_feed_item] hands to [__init__]. *)
Lemma parse_feed_item_fields (item : json) (owner : string)
      (post : PostData.t) :
  parse_feed_item item owner = Ret post ->
  exists (d : list (string * json)) (self : PostData.t),
    item = JObj d
    /\ PostData.__init__ self = Ret post
    /\ PostData.media_type self
       = media_type_of (dict_get d "media_type" (JInt 1))
           (dict_get d "product_type" (JStr EmptyString))
    /\ PostData.is_video self = eq_int (dict_get d "media_type" (JInt 1)) 2
    /\ PostData.taken_at_datetime self = None
    /\ PostData.id self
       = py_str (dict_get d "pk" (dict_get d "id" (JStr EmptyString))).
Proof.
  intros H. unfold parse_feed_item in H.
  destruct item as [| | | | | |d]; try discriminate H.
  returned H.
  eexists d, _. split; [reflexivity|]. split; [exact H|].
  cbn. repeat split.
Qed.

Lemma eq_int_2_not_8 (v : json) :
  eq_int v 2 = true -> eq_int v 8 = false.
Proof.
  destruct v as [|b|z|[| |q]|s|l|d]; cbn [eq_int]; try discriminate.
  - destruct b; discriminate.
  - intros H. apply Z.eqb_eq in H. subst. reflexivity.
  - intros H. apply Qeq_bool_iff in H.
    destruct (Qeq_bool q (inject_Z 8)) eqn:E; [|reflexivity].
    apply Qeq_bool_iff in E. rewrite H in E. discriminate E.
Qed.

(** X22.  In every post [parse_feed_item] returns, the media type is one
    of [image], [video], [carousel], [reel], and the video flag is set
    exactly for [video] and [reel]: a carousel is never flagged as a
    video. *)
Theorem video_flag_matches_media_type :
  forall (item : json) (owner : string) (post : PostData.t),
    parse_feed_item item owner = Ret post ->
    In (PostData.media_type post) ["image"; "video"; "carousel"; "reel"]
    /\ (PostData.is_video post = true <->
        PostData.media_type post = "video"
        \/ PostData.media_type post = "reel").
Proof.
  intros item owner post H.
  destruct (parse_feed_item_fields _ _ _ H)
    as (d & self & _ & Hinit & Hm & Hv & _).
  destruct (init_fields _ Hinit) as (_ & Hm' & _).
  destruct (init_time_fields _ _ Hinit) as (Hv' & _).
  rewrite Hm', Hv', Hm, Hv. unfold media_type_of.
  destruct (eq_int (dict_get d "media_type" (JInt 1)) 2) eqn:E2.
  - rewrite (eq_int_2_not_8 _ E2).
    destruct (eq_str (dict_get d "product_type" (JStr EmptyString)) "clips");
      cbn; split; auto; tauto.
  - destruct (eq_int (dict_get d "media_type" (JInt 1)) 8); cbn;
      (split; [auto|]); split; try discriminate;
      intros [Hc | Hc]; discriminate Hc.
Qed.

(** X23.  In every post [parse_feed_item] returns, the calendar time is
    derived from the time stamp: absent when the time stamp is 0,
    otherwise the UTC time of that very time stamp, which then lies in
    the range [datetime.utcfromtimestamp] accepts (an item whose time
    stamp lies outside is not returned at all). *)
Theorem taken_at_follows_timestamp :
  forall (item : json) (owner : string) (post : PostData.t),
    parse_feed_item item owner = Ret post ->
    if (PostData.timestamp post =? 0)%Z
    then PostData.taken_at_datetime post = None
    else PostData.taken_at_datetime post = Some (utc (PostData.timestamp post))
         /\ timestamp_in_range (PostData.timestamp post) = true.
Proof.
  intros item owner post H.
  destruct (parse_feed_item_fields _ _ _ H)
    as (d & self & _ & Hinit & _ & _ & Ht & _).
  destruct (init_time_fields _ _ Hinit) as (_ & Hts & Htime).
  rewrite Hts. exact (Htime Ht).
Qed.

(** X24.  [PostData.__init__] is idempotent: run again on a record it
    returned, it returns that record unchanged. *)
Theorem post_init_idempotent :
  forall self p : PostData.t,
    PostData.__init__ self = Ret p -> PostData.__init__ p = Ret p.
Proof.
  intros self p H. unfold PostData.__init__, PostData.utcfromtimestamp in *.
  destruct self as [i sc cap lk cm vw ts tk mt iv vd mu th loc pl ou oi].
  cbn in H.
  destruct (is_empty pl) eqn:Epl; destruct (is_empty sc) eqn:Esc;
    cbn in H;
    destruct (ts =? 0)%Z eqn:Ez; destruct tk as [t|];
    cbn in H;
    try destruct (timestamp_in_range ts) eqn:Er;
    cbn in H; try discriminate H;
    inversion H; subst; clear H;
    cbn; rewrite ?Epl, ?Esc, ?Ez; cbn; rewrite ?Epl, ?Esc, ?Ez; cbn;
    reflexivity.
Qed.

(** X25.  Elements of a feed that are no JSON objects never become
    posts: [parse_feed_item] raises on each of them, and leaving them
    out of the list does not change what the page yields. *)
Theorem non_objects_never_parse :
  forall (elements : list json) (owner : string),
    (forall item : json, is_dict item = false ->
       exists e : exn, parse_feed_item item owner = Raise e)
    /\ parsed_in_order (filter is_dict elements) owner
       = parsed_in_order elements owner.
Proof.
  intros elements owner.
  assert (Hraise : forall item : json, is_dict item = false ->
            exists e : exn, parse_feed_item item owner = Raise e).
  { intros item Hd. unfold parse_feed_item.
    destruct item; try discriminate Hd; cbn [get bind]; eauto. }
  split; [exact Hraise|].
  unfold parsed_in_order.
  induction elements as [|item elements IH]; [reflexivity|].
  cbn [filter flat_map]. destruct (is_dict item) eqn:Ed.
  - cbn [flat_map]. now rewrite IH.
  - destruct (Hraise item Ed) as (e & ->). exact IH.
Qed.

End PostRecordFacts.

(** ** Media URLs *)

Section MediaFacts.

Import PyStr PyVal Parsers Parsers.PostParser MediaSpec.
Local Open Scope string_scope.

Lemma first_url_short (c : json) (us : list json) :
  first_url c = Ret us -> (length us <= 1)%nat.
Proof.
  unfold first_url. destruct (truthy c).
  - intros H. returned H. inversion H. cbn. lia.
  - intros H. inversion H. cbn. lia.
Qed.

Lemma image_urls_short (node : json) (us : list json) :
  image_urls node = Ret us -> (length us <= 1)%nat.
Proof.
  unfold image_urls. intros H.
  apply bind_ret_inv in H. destruct H as ([|] & _ & H).
  - returned H. now apply first_url_short in H.
  - inversion H. cbn. lia.
Qed.

Lemma video_urls_short (node : json) (us : list json) :
  video_urls node = Ret us -> (length us <= 1)%nat.
Proof.
  unfold video_urls. intros H.
  apply bind_ret_inv in H. destruct H as ([|] & _ & H).
  - returned H. now apply first_url_short in H.
  - inversion H. cbn. lia.
Qed.

Lemma node_urls_short (node : json) (us : list json) :
  node_urls node = Ret us -> (length us <= 2)%nat.
Proof.
  unfold node_urls. intros H.
  apply bind_ret_inv in H. destruct H as (i & Hi & H).
  apply bind_ret_inv in H. destruct H as (v & Hv & H).
  inversion H. rewrite length_app.
  apply image_urls_short in Hi. apply video_urls_short in Hv. lia.
Qed.

(** The loop over the carousel children, without its accumulator. *)
Lemma carousel_urls_spec (children : list json) (acc r : list json) :
  carousel_urls children acc = Ret r <->
  exists per : list (list json),
    Forall2 (fun child us => node_urls child = Ret us) children per
    /\ r = (acc ++ concat per)%list.
Proof.
  revert acc. induction children as [|child children IH]; intros acc;
    cbn [carousel_urls].
  - split.
    + intros H. inversion H. exists []. split; [constructor|].
      cbn. now rewrite app_nil_r.
    + intros (per & Hper & ->). inversion Hper. cbn. now rewrite app_nil_r.
  - split.
    + intros H.
      apply bind_ret_inv in H. destruct H as (i & Hi & H).
      apply bind_ret_inv in H. destruct H as (v & Hv & H).
      apply IH in H. destruct H as (per & Hper & ->).
      exists ((i ++ v)%list :: per). split.
      * constructor; [|exact Hper]. unfold node_urls. now rewrite Hi, Hv.
      * cbn [concat]. now rewrite <- !app_assoc.
    + intros (per & Hper & ->). inversion Hper as [|c us cs pers Hc Hrest];
        subst.
      unfold node_urls in Hc.
      apply bind_ret_inv in Hc. destruct Hc as (i & Hi & Hc).
      apply bind_ret_inv in Hc. destruct Hc as (v & Hv & Hc).
      inversion Hc; subst. rewrite Hi, Hv. cbn [bind].
      apply IH. exists pers. split; [exact Hrest|].
      cbn [concat]. now rewrite <- !app_assoc.
Qed.

Lemma concat_short {A : Type} (n : nat) (l : list (list A)) :
  Forall (fun x => (length x <= n)%nat) l ->
  (length (concat l) <= n * length l)%nat.
Proof.
  induction 1 as [|x l Hx _ IH]; cbn [concat length]; [lia|].
  rewrite length_app. lia.
Qed.

(** X26.  [_extract_media_urls] returns one flat list in a fixed order:
    the first image candidate of the item and then its first video
    version (each only if present), followed by the same pair for every
    carousel child, in the order of the children.  It returns exactly
    when the item and every child can be read, and the list has at most
    two URLs for the item and two per child. *)
Theorem media_urls_order :
  forall (item : json) (urls : list json),
    _extract_media_urls item = Ret urls <->
    exists (own : list json) (children : list json)
           (per : list (list json)),
      node_urls item = Ret own
      /\ carousel_children item = Ret children
      /\ Forall2 (fun child us => node_urls child = Ret us) children per
      /\ urls = (own ++ concat per)%list
      /\ (length urls <= 2 + 2 * length children)%nat.
Proof.
  intros item urls. unfold _extract_media_urls, carousel_children. split.
  - intros H.
    apply bind_ret_inv in H. destruct H as (i & Hi & H).
    apply bind_ret_inv in H. destruct H as (v & Hv & H).
    apply bind_ret_inv in H. destruct H as (cm & Hcm & H).
    apply bind_ret_inv in H. destruct H as (children & Hch & H).
    apply carousel_urls_spec in H. destruct H as (per & Hper & ->).
    exists (i ++ v)%list, children, per.
    split; [unfold node_urls; now rewrite Hi, Hv|].
    split; [now rewrite Hcm|]. split; [exact Hper|]. split; [reflexivity|].
    rewrite !length_app.
    apply image_urls_short in Hi. apply video_urls_short in Hv.
    assert (Hlen : (length (concat per) <= 2 * length per)%nat).
    { apply concat_short. clear - Hper.
      induction Hper as [|c us cs pers Hc _ IH]; constructor;
        [now apply node_urls_short in Hc | exact IH]. }
    rewrite (Forall2_length Hper). lia.
  - intros (own & children & per & Hown & Hch & Hper & -> & _).
    unfold node_urls in Hown.
    apply bind_ret_inv in Hown. destruct Hown as (i & Hi & Hown).
    apply bind_ret_inv in Hown. destruct Hown as (v & Hv & Hown).
    inversion Hown; subst. rewrite Hi, Hv. cbn [bind].
    apply bind_ret_inv in Hch. destruct Hch as (cm & Hcm & Hch).
    rewrite Hcm. cbn [bind]. rewrite Hch. cbn [bind].
    apply carousel_urls_spec. exists per. split; [exact Hper | reflexivity].
Qed.

End MediaFacts.

(** ** Header profiles *)

Section HeaderFacts.

Import PyStr Models Headers.
Local Open Scope string_scope.

Lemma header_set_same (h : headers) (k : string) (v : option string) :
  header (set_header h k v) k = Some v.
Proof.
  induction h as [|[k' w] h IH]; cbn [set_header header].
  - now rewrite String.eqb_refl.
  - destruct (String.eqb k' k) eqn:E; cbn [header]; rewrite E;
      [reflexivity | exact IH].
Qed.

Lemma header_set_other (h : headers) (k k' : string) (v : option string) :
  k' <> k -> header (set_header h k v) k' = header h k'.
Proof.
  intros Hne. induction h as [|[k0 w] h IH]; cbn [set_header header].
  - destruct (String.eqb k k') eqn:E; [|reflexivity].
    apply String.eqb_eq in E. now elim Hne.
  - destruct (String.eqb k0 k) eqn:E; cbn [header].
    + apply String.eqb_eq in E. subst k0.
      destruct (String.eqb k k') eqn:E'; [|reflexivity].
      apply String.eqb_eq in E'. now elim Hne.
    + now rewrite IH.
Qed.

Lemma set_header_names (h : headers) (k : string) (v : option string) :
  map fst (set_header h k v)
  = if existsb (String.eqb k) (map fst h) then map fst h
    else (map fst h ++ [k])%list.
Proof.
  induction h as [|[k0 w] h IH]; cbn [set_header map fst existsb app];
    [reflexivity|].
  rewrite (String.eqb_sym k k0).
  destruct (String.eqb k0 k) eqn:E; cbn [orb map fst]; [reflexivity|].
  rewrite IH. now destruct (existsb (String.eqb k) (map fst h)).
Qed.

Lemma set_header_nodup (h : headers) (k : string) (v : option string) :
  NoDup (map fst h) -> NoDup (map fst (set_header h k v)).
Proof.
  intros H. rewrite set_header_names.
  destruct (existsb (String.eqb k) (map fst h)) eqn:E; [exact H|].
  apply NoDup_app; [exact H | repeat constructor; intros [] |].
  intros x Hx [Hk | []]. subst x.
  assert (Ht : existsb (String.eqb k) (map fst h) = true).
  { apply existsb_exists. exists k. split; [exact Hx | apply String.eqb_refl]. }
  rewrite Ht in E. discriminate.
Qed.

Lemma set_header_values (h : headers) (k : string) (v : option string)
      (k' : string) (v' : option string) :
  In (k', v') (set_header h k v) -> In (k', v') h \/ (k' = k /\ v' = v).
Proof.
  induction h as [|[k0 w] h IH]; cbn [set_header].
  - intros [H | []]. inversion H. now right.
  - destruct (String.eqb k0 k) eqn:E.
    + apply String.eqb_eq in E. subst k0.
      intros [H | H]; [inversion H; now right | left; now right].
    + intros [H | H]; [left; now left|].
      destruct (IH H) as [Hin | Heq]; [left; now right | now right].
Qed.

Lemma find_profile_in (table : list (string * profile)) (n : string)
      (p : profile) :
  find_profile table n = Some p -> In (n, p) table.
Proof.
  induction table as [|[k q] table IH]; cbn [find_profile]; [discriminate|].
  destruct (String.eqb k n) eqn:E.
  - apply String.eqb_eq in E. subst k. intros H. inversion H. now left.
  - intros H. right. now apply IH.
Qed.

(** The constructor always ends with an entry of the table. *)
Lemma init_from_catalog (name : option string) (draw : nat) :
  exists g : HeaderGenerator,
    __init__ name draw = Some g
    /\ In (profile_name g, profile_of g) UA_PROFILES.
Proof.
  assert (Hchoice : forall d : nat,
            exists n p, choice (map fst UA_PROFILES) d = Some n
                        /\ find_profile UA_PROFILES n = Some p).
  { intros d. unfold choice.
    assert (Hlt : (d mod length (map fst UA_PROFILES) < 5)%nat)
      by (apply Nat.mod_upper_bound; discriminate).
    destruct (d mod length (map fst UA_PROFILES))%nat as [|[|[|[|[|i]]]]];
      try lia; eexists _, _; split; reflexivity. }
  assert (Hdraw : exists g : HeaderGenerator,
            match choice (map fst UA_PROFILES) draw with
            | Some n =>
                match find_profile UA_PROFILES n with
                | Some p => Some (mkGenerator n p)
                | None => None
                end
            | None => None
            end = Some g
            /\ In (profile_name g, profile_of g) UA_PROFILES).
  { destruct (Hchoice draw) as (n & p & -> & Hp). rewrite Hp.
    eexists. split; [reflexivity|]. cbn [profile_name profile_of].
    now apply find_profile_in. }
  unfold __init__. destruct name as [n|]; [|exact Hdraw].
  destruct (negb (is_empty n)
            && match find_profile UA_PROFILES n with
               | Some _ => true
               | None => false
               end) eqn:E; [|exact Hdraw].
  destruct (find_profile UA_PROFILES n) as [p|] eqn:Hp.
  - eexists. split; [reflexivity|]. cbn [profile_name profile_of].
    now apply find_profile_in.
  - rewrite andb_false_r in E. discriminate.
Qed.

(** X27.  A [HeaderGenerator] is always built, and always on an entry of
    [UA_PROFILES]: the named profile when a non-empty name of the table
    is given, whatever the random draw, and a drawn entry of the table
    when the name is absent, empty or unknown. *)
Theorem generator_always_from_catalog :
  forall (name : option string) (draw : nat),
    exists g : HeaderGenerator,
      __init__ name draw = Some g
      /\ In (profile_name g, profile_of g) UA_PROFILES
      /\ (forall n : string,
            name = Some n -> is_empty n = false ->
            (exists p, In (n, p) UA_PROFILES) ->
            profile_name g = n).
Proof.
  intros name draw.
  destruct (init_from_catalog name draw) as (g & Hg & Hin).
  exists g. split; [exact Hg|]. split; [exact Hin|].
  intros n -> Hne (p & Hp). unfold __init__ in Hg. rewrite Hne in Hg.
  assert (Hfound : exists q, find_profile UA_PROFILES n = Some q).
  { cbn [UA_PROFILES In] in Hp.
    destruct Hp as [H | [H | [H | [H | [H | []]]]]]; inversion H; subst;
      eexists; reflexivity. }
  destruct Hfound as (q & Hq). rewrite Hq in Hg. cbn [negb andb] in Hg.
  rewrite Hq in Hg. inversion Hg. reflexivity.
Qed.

Lemma hints_keep_header (p : profile) (h : headers) (k : string) :
  ~ In k client_hint_names ->
  header (add_client_hints p h) k = header h k.
Proof.
  intros Hk. unfold add_client_hints.
  destruct (negb (falsy (sec_ch_ua p))); [|reflexivity].
  rewrite !header_set_other; [reflexivity | | |];
    intros ->; apply Hk; cbn; auto.
Qed.

Lemma hints_names_nodup (p : profile) (h : headers) :
  NoDup (map fst h) -> NoDup (map fst (add_client_hints p h)).
Proof.
  intros H. unfold add_client_hints.
  destruct (negb (falsy (sec_ch_ua p))); [|exact H].
  now repeat apply set_header_nodup.
Qed.

(** A header name occurs once in either dictionary, as in a [dict]. *)
Lemma header_names_distinct (g : HeaderGenerator) (app_id csrf_token : string)
      (asbd_id : option string) :
  NoDup (map fst (get_base_headers g))
  /\ NoDup (map fst (get_ajax_headers g app_id csrf_token asbd_id)).
Proof.
  assert (Hstr : forall l : list string,
            (forallb (fun k => Nat.eqb (count_occ string_dec l k) 1) l = true)
            -> NoDup l).
  { intros l Hl. apply (NoDup_count_occ' string_dec). intros x Hx.
    rewrite forallb_forall in Hl. now apply Nat.eqb_eq, Hl. }
  split; unfold get_base_headers, get_ajax_headers;
    apply hints_names_nodup.
  - apply Hstr. vm_compute. reflexivity.
  - destruct (negb (falsy asbd_id)).
    + apply set_header_nodup. apply Hstr. vm_compute. reflexivity.
    + apply Hstr. vm_compute. reflexivity.
Qed.

Ltac no_none_value H :=
  vm_compute in H;
  repeat (destruct H as [H | H]; [inversion H; subst; discriminate|]);
  destruct H.

Ltac hints_all_or_none :=
  first
    [ left; intros k Hk; cbn [client_hint_names In] in Hk;
      destruct Hk as [<- | [<- | [<- | []]]]; vm_compute; reflexivity
    | right; intros k Hk; cbn [client_hint_names In] in Hk;
      destruct Hk as [<- | [<- | [<- | []]]];
      eexists; (split; [reflexivity | reflexivity]) ].

(** X28.  With a generator built on an entry of [UA_PROFILES], neither
    header dictionary ever holds a [None] value, and the three client
    hint headers come together: all three absent (the Firefox and
    Safari entries) or all three present with a non-empty value (the
    Chromium entries), whatever tokens are passed. *)
Theorem catalog_headers_well_formed :
  forall (g : HeaderGenerator) (app_id csrf_token : string)
         (asbd_id : option string) (h : headers),
    In (profile_name g, profile_of g) UA_PROFILES ->
    h = get_base_headers g
    \/ h = get_ajax_headers g app_id csrf_token asbd_id ->
    (forall (k : string) (v : option string), In (k, v) h -> v <> None)
    /\ ((forall k : string, In k client_hint_names -> header h k = None)
        \/ (forall k : string,
              In k client_hint_names ->
              exists s : string,
                header h k = Some (Some s) /\ is_empty s = false)).
Proof.
  intros [n p] app_id csrf_token asbd_id h Hin Hh.
  cbn [profile_name profile_of UA_PROFILES In] in Hin.
  destruct Hin as [Hin | [Hin | [Hin | [Hin | [Hin | []]]]]];
    inversion Hin; subst n p; clear Hin;
    (destruct Hh as [-> | ->];
     [ split; [intros k v H; no_none_value H | hints_all_or_none]
     | destruct asbd_id as [[|c a]|];
       (split; [intros k v H; no_none_value H | hints_all_or_none]) ]).
Qed.

End HeaderFacts.

Section FeedHeaderFacts.

Import PyStr Models Parsers Parsers.TokenDiscovery Retry Headers Fetch Startup.
Local Open Scope string_scope.

Lemma ajax_token_headers (g : HeaderGenerator) (app_id csrf_token : string)
      (asbd_id : option string) :
  header (get_ajax_headers g app_id csrf_token asbd_id) "X-IG-App-ID"
  = Some (Some app_id)
  /\ header (get_ajax_headers g app_id csrf_token asbd_id) "X-CSRFToken"
     = Some (Some csrf_token)
  /\ header (get_ajax_headers g app_id csrf_token asbd_id) "X-ASBD-ID"
     = (if falsy asbd_id then None else Some asbd_id).
Proof.
  unfold get_ajax_headers.
  rewrite !hints_keep_header
    by (cbn [client_hint_names In]; intros [H | [H | [H | []]]];
        discriminate H).
  destruct (falsy asbd_id); cbn [negb].
  - repeat split; reflexivity.
  - rewrite header_set_same.
    rewrite !header_set_other by discriminate.
    repeat split; reflexivity.
Qed.

(** X29.  After [_fetch_profile_page] has returned, a feed request takes
    its token headers from the tokens of the client, never from the
    fallback values of a client without tokens: [X-IG-App-ID] and
    [X-CSRFToken] are the application id and the csrf token the client
    holds then (the csrf token as the profile fetch left it), and
    [X-ASBD-ID] is sent exactly when the signature id is there and not
    empty.  On a client that started without tokens the application id
    is not empty and [X-ASBD-ID] is sent. *)
Theorem feed_headers_after_profile_fetch :
  forall (g : HeaderGenerator) (s0 : session) (homes : nat -> result home)
         (attempt : nat -> result response) (rnd : nat -> Q)
         (html : string) (s' : session),
    outcome (Startup._fetch_profile_page s0 homes attempt rnd)
    = Ret (html, s') ->
    exists t' : SessionTokens.t,
      tokens s' = Some t'
      /\ header (feed_headers g s') "X-IG-App-ID"
         = Some (Some (SessionTokens.app_id t'))
      /\ header (feed_headers g s') "X-CSRFToken"
         = Some (Some (SessionTokens.csrf_token t'))
      /\ header (feed_headers g s') "X-ASBD-ID"
         = (if falsy (SessionTokens.asbd_id t') then None
            else Some (SessionTokens.asbd_id t'))
      /\ (tokens s0 = None ->
          is_empty (SessionTokens.app_id t') = false
          /\ exists b : string,
               SessionTokens.asbd_id t' = Some b /\ is_empty b = false
               /\ header (feed_headers g s') "X-ASBD-ID" = Some (Some b)).
Proof.
  intros g s0 homes attempt rnd html s' H.
  destruct (profile_fetch_returned s0 homes attempt rnd html s' H)
    as (k & r & t & _ & _ & _ & _ & _ & _ & Ho & Ht).
  remember (match csrf_cookie r with
            | Some c => if is_empty c then t else set_csrf t c
            | None => t
            end) as t' eqn:Et'.
  assert (Hsame : SessionTokens.app_id t' = SessionTokens.app_id t
                  /\ SessionTokens.asbd_id t' = SessionTokens.asbd_id t).
  { subst t'. destruct (csrf_cookie r) as [c|]; [destruct (is_empty c)|];
      split; reflexivity. }
  destruct Hsame as (Ea & Eb).
  exists t'. split; [exact Ht|].
  unfold feed_headers. rewrite Ht.
  destruct (ajax_token_headers g (SessionTokens.app_id t')
              (SessionTokens.csrf_token t') (SessionTokens.asbd_id t'))
    as (Happ & Hcsrf & Hasbd).
  split; [exact Happ|]. split; [exact Hcsrf|]. split; [exact Hasbd|].
  intros H0. rewrite H0 in Ho. destruct Ho as (j & h & _ & _ & _ & Hdisc).
  destruct (discovered_ids_present (home_text h) (csrf_of h))
    as (Hne & b & Hb & Hbne).
  rewrite <- Hdisc in Hne, Hb.
  split; [now rewrite Ea|].
  exists b. rewrite Hasbd, Eb, Hb. cbn [falsy]. rewrite Hbne. auto.
Qed.

End FeedHeaderFacts.
(** ** Count strings: when the conversion raises *)

Section CountRaises.

Import PyStr PyNum Parsers Parsers.ProfileParser.
Local Open Scope string_scope.
Local Open Scope py_scope.

(** A string ends in one character only. *)
Lemma endswith_one_char (s : string) (a b : ascii) :
  endswith s (String a EmptyString) = true ->
  endswith s (String b EmptyString) = true -> a = b.
Proof.
  unfold endswith. cbn [String.length]. intros Ha Hb.
  apply andb_true_iff in Ha. destruct Ha as (_ & Ha).
  apply andb_true_iff in Hb. destruct Hb as (_ & Hb).
  apply String.eqb_eq in Ha. apply String.eqb_eq in Hb.
  congruence.
Qed.

Lemma endswith_other (s : string) (a b : ascii) :
  endswith s (String a EmptyString) = true -> a <> b ->
  endswith s (String b EmptyString) = false.
Proof.
  intros Ha Hne. destruct (endswith s (String b EmptyString)) eqn:Hb;
    [|reflexivity].
  elim Hne. exact (endswith_one_char s a b Ha Hb).
Qed.

(** One suffix branch of the loop. *)
Lemma scaled_raises (t : string) (mult : Z) (e : exn) :
  or_zero_on_ValueError
    (f <- float (drop_last t) ;; int_of_float (fmul f (float_of_Z mult)))
  = Raise e <->
  (exists (f : pyfloat) (neg : bool),
     float_of_str (drop_last t) = Some f
     /\ fmul f (float_of_Z mult) = FInf neg)
  /\ e = OverflowError "cannot convert float infinity to integer".
Proof.
  unfold float. split.
  - destruct (float_of_str (drop_last t)) as [f|]; cbn [bind];
      [|cbn; discriminate].
    destruct (fmul f (float_of_Z mult)) as [|neg|q] eqn:E;
      cbn [int_of_float or_zero_on_ValueError]; try discriminate.
    intros H. inversion H. split; [|reflexivity]. now exists f, neg.
  - intros ((f & neg & -> & Hf) & ->). cbn [bind]. now rewrite Hf.
Qed.

(** X30.  [parse_count_string] raises exactly when the string is not
    empty, its cleaned form (stripped, commas removed) ends in [K], [M]
    or [B], the part before the suffix converts to a float, and that
    float times the multiplier is an infinity; what it raises is then
    the [OverflowError] of [int].  On every other string it returns an
    integer. *)
Theorem count_string_raises_iff_infinite :
  forall (count_str : string) (e : exn),
    parse_count_string count_str = Raise e <->
    is_empty count_str = false
    /\ (exists (suffix : string) (mult : Z) (f : pyfloat) (neg : bool),
          In (suffix, mult) multipliers
          /\ endswith (remove_char "," (strip count_str)) suffix = true
          /\ float_of_str (drop_last (remove_char "," (strip count_str)))
             = Some f
          /\ fmul f (float_of_Z mult) = FInf neg)
    /\ e = OverflowError "cannot convert float infinity to integer".
Proof.
  intros s e. unfold parse_count_string.
  destruct (is_empty s); [split; [discriminate | intros (H & _); discriminate]|].
  remember (remove_char "," (strip s)) as t eqn:Et. clear Et.
  cbn [by_suffix multipliers]. split.
  - intros H. split; [reflexivity|].
    destruct (endswith t "K") eqn:EK;
      [|destruct (endswith t "M") eqn:EM;
        [|destruct (endswith t "B") eqn:EB]].
    + apply scaled_raises in H. destruct H as ((f & neg & Hf & Hm) & ->).
      split; [|reflexivity].
      exists "K", 1000%Z, f, neg.
      split; [cbn [In multipliers]; auto 6 | repeat split; assumption].
    + apply scaled_raises in H. destruct H as ((f & neg & Hf & Hm) & ->).
      split; [|reflexivity].
      exists "M", 1000000%Z, f, neg.
      split; [cbn [In multipliers]; auto 6 | repeat split; assumption].
    + apply scaled_raises in H. destruct H as ((f & neg & Hf & Hm) & ->).
      split; [|reflexivity].
      exists "B", 1000000000%Z, f, neg.
      split; [cbn [In multipliers]; auto 6 | repeat split; assumption].
    + unfold int in H. destruct (int_of_str t); cbn in H; discriminate.
  - intros (_ & (suffix & mult & f & neg & Hin & Hend & Hf & Hm) & ->).
    cbn [In] in Hin.
    destruct Hin as [Hin | [Hin | [Hin | []]]]; inversion Hin; subst.
    + rewrite Hend. apply scaled_raises. split; [|reflexivity].
      now exists f, neg.
    + rewrite (endswith_other t "M" "K" Hend) by discriminate.
      rewrite Hend. apply scaled_raises. split; [|reflexivity].
      now exists f, neg.
    + rewrite (endswith_other t "B" "K" Hend) by discriminate.
      rewrite (endswith_other t "B" "M" Hend) by discriminate.
      rewrite Hend. apply scaled_raises. split; [|reflexivity].
      now exists f, neg.
Qed.

End CountRaises.
(** ** The backoff delay in binary64 *)

Section Rounding.

Import PyNum.
Local Open Scope Q_scope.

(** [round_half_even] is within one of the floor. *)
Lemma round_half_even_floor (q : Q) :
  (Qfloor q <= round_half_even q <= Qfloor q + 1)%Z.
Proof.
  unfold round_half_even, Qfloor. destruct q as [n d]. cbn [Qnum Qden].
  destruct (2 * (n mod Z.pos d) ?= Z.pos d)%Z;
    [destruct (Z.even (n / Z.pos d))|..]; lia.
Qed.

Lemma round_half_even_mono (x y : Q) :
  x <= y -> (round_half_even x <= round_half_even y)%Z.
Proof.
  intros Hxy.
  pose proof (Qfloor_resp_le _ _ Hxy) as Hfl.
  pose proof (round_half_even_floor x) as Hx.
  pose proof (round_half_even_floor y) as Hy.
  destruct (Z.eq_dec (Qfloor x) (Qfloor y)) as [Heq | Hne]; [|lia].
  clear Hfl Hx Hy. revert Hxy Heq.
  unfold round_half_even, Qfloor, Qle. destruct x as [a b], y as [c d].
  cbn [Qnum Qden]. intros Hxy Heq.
  pose proof (Z.div_mod a (Z.pos b) ltac:(lia)) as Ha.
  pose proof (Z.div_mod c (Z.pos d) ltac:(lia)) as Hc.
  pose proof (Z.mod_pos_bound a (Z.pos b) ltac:(lia)) as Hra.
  pose proof (Z.mod_pos_bound c (Z.pos d) ltac:(lia)) as Hrc.
  rewrite <- Heq in *.
  set (f := (a / Z.pos b)%Z) in *.
  set (r1 := (a mod Z.pos b)%Z) in *.
  set (r2 := (c mod Z.pos d)%Z) in *.
  assert (Hr : (r1 * Z.pos d <= r2 * Z.pos b)%Z) by nia.
  destruct (Z.compare_spec (2 * r1) (Z.pos b)) as [E1 | E1 | E1];
    destruct (Z.compare_spec (2 * r2) (Z.pos d)) as [E2 | E2 | E2];
    try destruct (Z.even f); try lia; exfalso; nia.
Qed.

Lemma round_half_even_int (n : Z) : round_half_even (inject_Z n) = n.
Proof.
  unfold round_half_even, inject_Z. cbn [Qnum Qden].
  rewrite Z.div_1_r, Z.mod_1_r. reflexivity.
Qed.

Lemma round_half_even_le_int (x : Q) (n : Z) :
  x <= inject_Z n -> (round_half_even x <= n)%Z.
Proof.
  intros H. rewrite <- (round_half_even_int n).
  now apply round_half_even_mono.
Qed.

Lemma round_half_even_ge_int (x : Q) (n : Z) :
  inject_Z n <= x -> (n <= round_half_even x)%Z.
Proof.
  intros H. rewrite <- (round_half_even_int n).
  now apply round_half_even_mono.
Qed.

End Rounding.

Section Binades.

Import PyNum.
Local Open Scope Q_scope.

Lemma two_power_pos (z : Z) : 0 < 2 ^ z.
Proof. apply Qpower_0_lt. reflexivity. Qed.

Lemma two_power_int (z : Z) : (0 <= z)%Z -> 2 ^ z == inject_Z (2 ^ z).
Proof. intros H. symmetry. apply (Zpower_Qpower 2 z H). Qed.

Lemma two_power_minus (x y : Z) : 2 ^ (x - y) == 2 ^ x / 2 ^ y.
Proof. apply Qpower_minus. discriminate. Qed.

Lemma two_power_plus (x y : Z) : 2 ^ (x + y) == 2 ^ x * 2 ^ y.
Proof. apply Qpower_plus. discriminate. Qed.

Lemma two_power_le (x y : Z) : (x <= y)%Z -> 2 ^ x <= 2 ^ y.
Proof. intros H. apply Qpower_le_compat_l; [exact H | discriminate]. Qed.

Lemma two_power_lt_inv (x y : Z) : 2 ^ x < 2 ^ y -> (x < y)%Z.
Proof. intros H. apply (Qpower_lt_compat_l_inv 2); [exact H | reflexivity]. Qed.

(** A fraction of positive integers against a quotient of integers. *)
Lemma frac_lt_quot (n : Z) (d : positive) (A B : Z) :
  (0 < B)%Z -> (n * B < A * Z.pos d)%Z ->
  n # d < inject_Z A / inject_Z B.
Proof.
  intros HB H. apply Qlt_shift_div_l.
  - unfold Qlt, inject_Z. cbn. lia.
  - unfold Qlt, Qmult, inject_Z. cbn. lia.
Qed.

Lemma quot_lt_frac (n : Z) (d : positive) (A B : Z) :
  (0 < B)%Z -> (A * Z.pos d < n * B)%Z ->
  inject_Z A / inject_Z B < n # d.
Proof.
  intros HB H. apply Qlt_shift_div_r.
  - unfold Qlt, inject_Z. cbn. lia.
  - unfold Qlt, Qmult, inject_Z. cbn. lia.
Qed.

Lemma floor_log2_spec (q : Q) :
  0 < q -> 2 ^ floor_log2 q <= q /\ q < 2 ^ (floor_log2 q + 1).
Proof.
  intros Hq. unfold floor_log2.
  destruct q as [n d]. cbn [Qnum Qden].
  assert (Hn : (0 < n)%Z) by (unfold Qlt in Hq; cbn in Hq; lia).
  set (a := Z.log2 n). set (b := Z.log2 (Z.pos d)).
  assert (Ha : (0 <= a)%Z) by apply Z.log2_nonneg.
  assert (Hb : (0 <= b)%Z) by apply Z.log2_nonneg.
  destruct (Z.log2_spec n Hn) as (Ha1 & Ha2).
  destruct (Z.log2_spec (Z.pos d) ltac:(lia)) as (Hb1 & Hb2).
  fold a in Ha1, Ha2. fold b in Hb1, Hb2.
  rewrite <- !Z.add_1_r in Ha2, Hb2.
  assert (Hup : n # d < 2 ^ (a - b + 1)).
  { replace (a - b + 1)%Z with ((a + 1) - b)%Z by lia.
    rewrite two_power_minus, (two_power_int (a + 1)), (two_power_int b)
      by lia.
    apply frac_lt_quot; [apply Z.pow_pos_nonneg; lia | nia]. }
  assert (Hlo : 2 ^ (a - b - 1) < n # d).
  { replace (a - b - 1)%Z with (a - (b + 1))%Z by lia.
    rewrite two_power_minus, (two_power_int a), (two_power_int (b + 1))
      by lia.
    apply quot_lt_frac; [apply Z.pow_pos_nonneg; lia | nia]. }
  destruct (Qle_bool (2 ^ (a - b)) (n # d)) eqn:E.
  - apply Qle_bool_iff in E. split; [exact E | exact Hup].
  - split; [apply Qlt_le_weak; exact Hlo|].
    replace (a - b - 1 + 1)%Z with (a - b)%Z by lia.
    apply Qnot_le_lt. intros H. apply Qle_bool_iff in H. congruence.
Qed.

Lemma floor_log2_mono (q1 q2 : Q) :
  0 < q1 -> q1 <= q2 -> (floor_log2 q1 <= floor_log2 q2)%Z.
Proof.
  intros H1 H12.
  destruct (floor_log2_spec q1 H1) as (Hlo & _).
  destruct (floor_log2_spec q2 (Qlt_le_trans _ _ _ H1 H12)) as (_ & Hup).
  assert (H : 2 ^ floor_log2 q1 < 2 ^ (floor_log2 q2 + 1)).
  { eapply Qle_lt_trans; [exact Hlo|].
    eapply Qle_lt_trans; [exact H12 | exact Hup]. }
  apply two_power_lt_inv in H. lia.
Qed.

End Binades.

Section RoundedValue.

Import PyNum Backoff.
Local Open Scope Q_scope.

Lemma scaled_le (a b : Q) (p : Z) : a <= b -> a / 2 ^ p <= b / 2 ^ p.
Proof.
  intros H. unfold Qdiv. apply Qmult_le_compat_r; [exact H|].
  apply Qlt_le_weak, Qinv_lt_0_compat, two_power_pos.
Qed.

Lemma scaled_power (x p : Z) : 2 ^ x / 2 ^ p == 2 ^ (x - p).
Proof. symmetry. apply two_power_minus. Qed.

Lemma rounded_nonneg (q : Q) : 0 < q -> 0 <= rounded q.
Proof.
  intros Hq. unfold rounded. apply Qmult_le_0_compat.
  - change 0 with (inject_Z 0). rewrite <- Zle_Qle.
    apply round_half_even_ge_int. rewrite Qred_correct.
    change (inject_Z 0) with 0. apply Qle_shift_div_l; [apply two_power_pos|].
    rewrite Qmult_0_l. now apply Qlt_le_weak.
  - apply Qlt_le_weak, two_power_pos.
Qed.

Lemma rounded_mono (a1 a2 : Q) :
  0 < a1 -> a1 <= a2 -> rounded a1 <= rounded a2.
Proof.
  intros H1 H12.
  assert (H2 : 0 < a2) by (eapply Qlt_le_trans; eassumption).
  pose proof (floor_log2_mono a1 a2 H1 H12) as He.
  destruct (floor_log2_spec a1 H1) as (Hlo1 & Hup1).
  destruct (floor_log2_spec a2 H2) as (Hlo2 & Hup2).
  unfold rounded, scale.
  set (e1 := floor_log2 a1) in *. set (e2 := floor_log2 a2) in *.
  set (P1 := Z.max (e1 - 52) (-1074)). set (P2 := Z.max (e2 - 52) (-1074)).
  assert (HP : (P1 <= P2)%Z) by (unfold P1, P2; lia).
  destruct (Z.eq_dec P1 P2) as [Heq | Hne].
  - rewrite <- Heq. apply Qmult_le_compat_r;
      [|apply Qlt_le_weak, two_power_pos].
    rewrite <- Zle_Qle. apply round_half_even_mono.
    rewrite !Qred_correct. now apply scaled_le.
  - assert (HP2 : P2 = (e2 - 52)%Z) by (unfold P1, P2 in *; lia).
    assert (He12 : (e1 + 1 <= e2)%Z) by (unfold P1, P2 in *; lia).
    assert (HP1e : (P1 <= e2)%Z) by (unfold P1, P2 in *; lia).
    set (k := Z.max (e1 + 1 - P1) 0).
    apply Qle_trans with (2 ^ e2).
    + apply Qle_trans with (inject_Z (2 ^ k) * 2 ^ P1).
      * apply Qmult_le_compat_r; [|apply Qlt_le_weak, two_power_pos].
        rewrite <- Zle_Qle. apply round_half_even_le_int.
        rewrite Qred_correct, <- two_power_int by (unfold k; lia).
        apply Qle_trans with (2 ^ (e1 + 1) / 2 ^ P1).
        -- apply scaled_le. now apply Qlt_le_weak.
        -- rewrite scaled_power. apply two_power_le. unfold k. lia.
      * rewrite <- two_power_int by (unfold k; lia).
        rewrite <- two_power_plus. apply two_power_le. unfold k. lia.
    + apply Qle_trans with (inject_Z (2 ^ 52) * 2 ^ P2).
      * rewrite <- two_power_int by lia. rewrite <- two_power_plus.
        apply two_power_le. lia.
      * apply Qmult_le_compat_r; [|apply Qlt_le_weak, two_power_pos].
        rewrite <- Zle_Qle. apply round_half_even_ge_int.
        rewrite Qred_correct, <- two_power_int by lia.
        apply Qle_trans with (2 ^ e2 / 2 ^ P2).
        -- rewrite scaled_power. apply two_power_le. lia.
        -- now apply scaled_le.
Qed.

End RoundedValue.

Section RoundingMonotone.

Import PyNum Backoff.
Local Open Scope Q_scope.

Lemma b64_round_zero (q : Q) : q == 0 -> b64_round q = FFin 0.
Proof.
  intros H. unfold b64_round.
  now rewrite (proj2 (Qeq_bool_iff q 0) H).
Qed.

Lemma b64_round_pos (q : Q) :
  0 < q ->
  (b64_round q = FInf false /\ 2 ^ 1024 <= rounded (Qabs q))
  \/ (exists v : Q,
        b64_round q = FFin v /\ v == rounded (Qabs q) /\ v < 2 ^ 1024).
Proof.
  intros Hq. unfold b64_round.
  assert (E0 : Qeq_bool q 0 = false).
  { destruct (Qeq_bool q 0) eqn:E; [|reflexivity].
    apply Qeq_bool_iff in E. rewrite E in Hq. discriminate Hq. }
  assert (E1 : Qle_bool 0 q = true)
    by (apply Qle_bool_iff; now apply Qlt_le_weak).
  rewrite E0, E1. cbn [negb].
  change (inject_Z
            (round_half_even
               (Qred (Qabs q / 2 ^ Z.max (floor_log2 (Qabs q) - 52) (-1074))))
          * 2 ^ Z.max (floor_log2 (Qabs q) - 52) (-1074))
    with (rounded (Qabs q)).
  destruct (Qle_bool (2 ^ 1024) (Qred (rounded (Qabs q)))) eqn:E.
  - left. split; [reflexivity|].
    apply Qle_bool_iff in E. now rewrite Qred_correct in E.
  - right. eexists. split; [reflexivity|]. split; [apply Qred_correct|].
    apply Qnot_le_lt. intros H. apply Qle_bool_iff in H. congruence.
Qed.

Lemma b64_round_neg (q : Q) :
  q < 0 ->
  (b64_round q = FInf true /\ 2 ^ 1024 <= rounded (Qabs q))
  \/ (exists v : Q,
        b64_round q = FFin v /\ v == - rounded (Qabs q)
        /\ rounded (Qabs q) < 2 ^ 1024).
Proof.
  intros Hq. unfold b64_round.
  assert (E0 : Qeq_bool q 0 = false).
  { destruct (Qeq_bool q 0) eqn:E; [|reflexivity].
    apply Qeq_bool_iff in E. rewrite E in Hq. discriminate Hq. }
  assert (E1 : Qle_bool 0 q = false).
  { destruct (Qle_bool 0 q) eqn:E; [|reflexivity].
    apply Qle_bool_iff in E. exfalso. apply (Qlt_not_le _ _ Hq E). }
  rewrite E0, E1. cbn [negb].
  change (inject_Z
            (round_half_even
               (Qred (Qabs q / 2 ^ Z.max (floor_log2 (Qabs q) - 52) (-1074))))
          * 2 ^ Z.max (floor_log2 (Qabs q) - 52) (-1074))
    with (rounded (Qabs q)).
  destruct (Qle_bool (2 ^ 1024) (Qred (rounded (Qabs q)))) eqn:E.
  - left. split; [reflexivity|].
    apply Qle_bool_iff in E. now rewrite Qred_correct in E.
  - right. eexists. split; [reflexivity|].
    split; [now rewrite !Qred_correct|].
    apply Qnot_le_lt. intros H.
    rewrite <- (Qred_correct (rounded (Qabs q))) in H.
    apply Qle_bool_iff in H. congruence.
Qed.

Lemma abs_of_pos (q : Q) : 0 < q -> 0 < Qabs q /\ Qabs q == q.
Proof.
  intros H. assert (E : Qabs q == q) by (apply Qabs_pos; now apply Qlt_le_weak).
  split; [now rewrite E | exact E].
Qed.

Lemma abs_of_neg (q : Q) : q < 0 -> 0 < Qabs q /\ Qabs q == - q.
Proof.
  intros H. assert (E : Qabs q == - q) by (apply Qabs_neg; now apply Qlt_le_weak).
  split; [rewrite E; lra | exact E].
Qed.

(** Rounding to binary64 keeps the order. *)
Lemma b64_round_mono (q1 q2 : Q) :
  q1 <= q2 -> fle (b64_round q1) (b64_round q2) = true.
Proof.
  intros H12.
  destruct (Q_dec q1 0) as [[N1 | P1] | Z1];
    destruct (Q_dec q2 0) as [[N2 | P2] | Z2];
    try (exfalso; lra).
  - (* both negative *)
    destruct (abs_of_neg q1 N1) as (A1 & E1).
    destruct (abs_of_neg q2 N2) as (A2 & E2).
    assert (Hm : rounded (Qabs q2) <= rounded (Qabs q1))
      by (apply rounded_mono; [exact A2 | rewrite E1, E2; lra]).
    destruct (b64_round_neg q1 N1) as [(-> & _) | (v1 & -> & Hv1 & Hb1)];
      destruct (b64_round_neg q2 N2) as [(-> & Hbig) | (v2 & -> & Hv2 & _)];
      try reflexivity; [exfalso; lra|].
    cbn. apply Qle_bool_iff. rewrite Hv1, Hv2. lra.
  - (* negative, positive *)
    destruct (abs_of_neg q1 N1) as (A1 & _).
    destruct (abs_of_pos q2 P2) as (A2 & _).
    pose proof (rounded_nonneg (Qabs q1) A1) as R1.
    pose proof (rounded_nonneg (Qabs q2) A2) as R2.
    destruct (b64_round_neg q1 N1) as [(-> & _) | (v1 & -> & Hv1 & _)];
      destruct (b64_round_pos q2 P2) as [(-> & _) | (v2 & -> & Hv2 & _)];
      try reflexivity.
    cbn. apply Qle_bool_iff. rewrite Hv1, Hv2. lra.
  - (* negative, zero *)
    destruct (abs_of_neg q1 N1) as (A1 & _).
    pose proof (rounded_nonneg (Qabs q1) A1) as R1.
    rewrite (b64_round_zero q2 Z2).
    destruct (b64_round_neg q1 N1) as [(-> & _) | (v1 & -> & Hv1 & _)];
      [reflexivity|].
    cbn. apply Qle_bool_iff. rewrite Hv1. lra.
  - (* both positive *)
    destruct (abs_of_pos q1 P1) as (A1 & E1).
    destruct (abs_of_pos q2 P2) as (A2 & E2).
    assert (Hm : rounded (Qabs q1) <= rounded (Qabs q2))
      by (apply rounded_mono; [exact A1 | rewrite E1, E2; lra]).
    destruct (b64_round_pos q2 P2) as [(-> & _) | (v2 & -> & Hv2 & Hb2)];
      destruct (b64_round_pos q1 P1) as [(-> & Hbig) | (v1 & -> & Hv1 & _)];
      try reflexivity; [exfalso; lra|].
    cbn. apply Qle_bool_iff. rewrite Hv1, Hv2. lra.
  - (* zero, positive *)
    destruct (abs_of_pos q2 P2) as (A2 & _).
    pose proof (rounded_nonneg (Qabs q2) A2) as R2.
    rewrite (b64_round_zero q1 Z1).
    destruct (b64_round_pos q2 P2) as [(-> & _) | (v2 & -> & Hv2 & _)];
      [reflexivity|].
    cbn. apply Qle_bool_iff. rewrite Hv2. lra.
  - rewrite (b64_round_zero q1 Z1), (b64_round_zero q2 Z2). reflexivity.
Qed.

(** Rounding never gives a NaN. *)
Lemma b64_round_number (q : Q) : is_number (b64_round q) = true.
Proof.
  unfold b64_round. destruct (Qeq_bool q 0); [reflexivity|].
  cbv zeta.
  now destruct (Qle_bool (2 ^ 1024) _).
Qed.

End RoundingMonotone.

Section BackoffFacts.

Import PyNum Backoff.
Local Open Scope Q_scope.

(** Boolean comparisons of rationals as propositions. *)
Ltac qbool :=
  repeat match goal with
         | H : Qle_bool _ _ = true |- _ => apply Qle_bool_iff in H
         | H : Qle_bool ?a ?b = false |- _ =>
             assert (b < a)
               by (apply Qnot_le_lt; intros Hle; apply Qle_bool_iff in Hle;
                   congruence);
             clear H
         | |- Qle_bool _ _ = true => apply Qle_bool_iff
         end.

Lemma fle_FFin (x y : Q) : fle (FFin x) (FFin y) = true <-> x <= y.
Proof. cbn. apply Qle_bool_iff. Qed.

Lemma tenth_value :
  tenth = FFin (3602879701896397 # 36028797018963968).
Proof. vm_compute. reflexivity. Qed.

(** [min] keeps the order of its first argument. *)
Lemma fmin_mono (d1 d2 m : pyfloat) :
  fle d1 d2 = true -> fle (fmin d1 m) (fmin d2 m) = true.
Proof.
  unfold fmin.
  destruct d1 as [|[|]|x1], d2 as [|[|]|x2], m as [|[|]|mq];
    cbn; try discriminate; try reflexivity; intros H;
    repeat match goal with
           | |- context [Qle_bool ?a ?b] =>
               let E := fresh "E" in destruct (Qle_bool a b) eqn:E; cbn
           end;
    try reflexivity; try discriminate; qbool; lra.
Qed.

(** [max(x, 0.1)] is [x] when [x] is a NaN, and at least [0.1]
    otherwise. *)
Lemma fmax_tenth (x : pyfloat) :
  (is_number x = false /\ fmax x tenth = FNan)
  \/ (is_number x = true /\ fle tenth (fmax x tenth) = true).
Proof.
  unfold fmax. rewrite tenth_value.
  destruct x as [|[|]|q]; cbn; [left; auto | right .. ].
  - split; reflexivity.
  - split; reflexivity.
  - split; [reflexivity|].
    destruct (Qle_bool (3602879701896397 # 36028797018963968) q) eqn:E;
      cbn; [exact E | reflexivity].
Qed.

(** The sum and the product of two numbers that are not both infinite
    in a conflicting way. *)
Lemma fadd_finite_number (x : Q) (b : pyfloat) :
  is_number b = true -> is_number (fadd (FFin x) b) = true.
Proof.
  destruct b as [|s|y]; cbn; try discriminate; try reflexivity.
  intros _. apply b64_round_number.
Qed.

Lemma fmul_finite_number (x y : Q) : is_number (fmul (FFin x) (FFin y)) = true.
Proof. cbn. apply b64_round_number. Qed.

(** A rational between two floats rounds to a float between them. *)
Lemma b64_round_within (q B : Q) :
  b64_round B = FFin B -> b64_round (- B) = FFin (- B) ->
  - B <= q <= B ->
  exists v : Q, b64_round q = FFin v /\ - B <= v <= B.
Proof.
  intros HB HnB (Hlo & Hhi).
  pose proof (b64_round_mono _ _ Hlo) as H1.
  pose proof (b64_round_mono _ _ Hhi) as H2.
  rewrite HnB in H1. rewrite HB in H2.
  destruct (b64_round q) as [|[|]|v]; cbn in H1, H2; try discriminate.
  exists v. split; [reflexivity|]. qbool. auto.
Qed.

Lemma b64_round_finite (q v : Q) :
  b64_round q = FFin v -> Qabs v < 2 ^ 1024.
Proof.
  intros H.
  destruct (Q_dec q 0) as [[N | P] | Z].
  - destruct (b64_round_neg q N) as [(E & _) | (w & E & Hw & Hb)];
      rewrite E in H; [discriminate|].
    inversion H; subst w. destruct (abs_of_neg q N) as (A & _).
    pose proof (rounded_nonneg _ A). rewrite Hw.
    rewrite Qabs_neg by lra. lra.
  - destruct (b64_round_pos q P) as [(E & _) | (w & E & Hw & Hb)];
      rewrite E in H; [discriminate|].
    inversion H; subst w. destruct (abs_of_pos q P) as (A & _).
    pose proof (rounded_nonneg _ A). rewrite Hw in *.
    rewrite Qabs_pos by lra. lra.
  - rewrite (b64_round_zero q Z) in H. inversion H. reflexivity.
Qed.

End BackoffFacts.

Section PowerFacts.

Import PyNum Backoff.
Local Open Scope Q_scope.

Context {L : Libm}.

Lemma float_of_int_value (n : Z) (w : Q) :
  float_of_int n = Ret w -> b64_round (inject_Z n) = FFin w.
Proof.
  unfold float_of_int. destruct (b64_round (inject_Z n)); try discriminate.
  intros H. now inversion H.
Qed.

(** The exponent as [float_pow] sees it grows with the attempt. *)
Lemma exponent_mono (i j : Z) (wi wj : Q) :
  (i <= j)%Z -> float_of_int i = Ret wi -> float_of_int j = Ret wj ->
  (Qfloor wi <= Qfloor wj)%Z.
Proof.
  intros Hij Hi Hj.
  apply float_of_int_value in Hi. apply float_of_int_value in Hj.
  assert (H : inject_Z i <= inject_Z j) by now rewrite <- Zle_Qle.
  apply b64_round_mono in H. rewrite Hi, Hj in H.
  apply fle_FFin in H. now apply Qfloor_resp_le.
Qed.

Lemma float_of_small_int (n : Z) :
  In n [0; 1; 1023; 1024]%Z -> float_of_int n = Ret (inject_Z n).
Proof.
  cbn [In]. intros [<- | [<- | [<- | [<- | []]]]]; vm_compute; reflexivity.
Qed.

(** What [float_pow] returns on a finite base that is at least 1. *)
Lemma float_pow_cases (eb : Q) (attempt : nat) (p : pyfloat) :
  1 <= eb ->
  float_pow (FFin eb) attempt = Ret p ->
  exists w : Q,
    float_of_int (Z.of_nat attempt) = Ret w
    /\ ((Qfloor w = 0%Z /\ p = FFin 1)
        \/ (Qfloor w <> 0%Z /\ Qabs eb == 1 /\ p = FFin 1)
        \/ (Qfloor w <> 0%Z /\ 1 < Qabs eb
            /\ libm_pow (Qabs eb) (Qfloor w) = p
            /\ p <> FInf false /\ p <> FInf true)).
Proof.
  intros Heb. unfold float_pow.
  destruct (float_of_int (Z.of_nat attempt)) as [w | e]; [|discriminate].
  cbv beta iota zeta.
  intros H. exists w. split; [reflexivity|]. revert H.
  destruct (Qfloor w =? 0)%Z eqn:Ey; intros H.
  - left. apply Z.eqb_eq in Ey. split; [exact Ey | congruence].
  - apply Z.eqb_neq in Ey. right.
    assert (E0 : Qeq_bool eb 0 = false).
    { destruct (Qeq_bool eb 0) eqn:E; [|reflexivity].
      apply Qeq_bool_iff in E. exfalso. lra. }
    assert (E1 : Qle_bool 0 eb = true) by (apply Qle_bool_iff; lra).
    rewrite E0, E1 in H. cbn [negb andb] in H.
    assert (Ha : Qabs eb == eb) by (apply Qabs_pos; lra).
    destruct (Qeq_bool (Qabs eb) 1) eqn:E2.
    + left. apply Qeq_bool_iff in E2. split; [exact Ey|].
      split; [exact E2 | congruence].
    + right. split; [exact Ey|]. split.
      * apply Qeq_bool_neq in E2. rewrite Ha in *.
        apply Qle_lt_or_eq in Heb. destruct Heb as [Hlt | Heq];
          [exact Hlt | elim E2; now symmetry].
      * destruct (libm_pow (Qabs eb) (Qfloor w)) as [|s|r];
          [| discriminate |]; injection H as <-;
          (split; [reflexivity | split; discriminate]).
Qed.

Hypothesis pow_monotone : MonotonePow L.

(** The power grows with the attempt, from 1 on. *)
Lemma float_pow_mono (eb : Q) (i j : nat) (pi pj : pyfloat) :
  1 <= eb -> (i <= j)%nat ->
  float_pow (FFin eb) i = Ret pi -> float_pow (FFin eb) j = Ret pj ->
  exists ri rj : Q, pi = FFin ri /\ pj = FFin rj /\ 1 <= ri /\ ri <= rj.
Proof.
  intros Heb Hij Hi Hj.
  destruct (float_pow_cases eb i pi Heb Hi) as (wi & Hwi & Ci).
  destruct (float_pow_cases eb j pj Heb Hj) as (wj & Hwj & Cj).
  assert (Hy : (Qfloor wi <= Qfloor wj)%Z)
    by (apply (exponent_mono (Z.of_nat i) (Z.of_nat j)); [lia | assumption ..]).
  assert (H0 : (0 <= Qfloor wi)%Z).
  { change 0%Z with (Qfloor 0).
    apply (exponent_mono 0 (Z.of_nat i));
      [lia | apply float_of_small_int; cbn; auto | assumption]. }
  assert (Hpow : forall (y : Z) (p : pyfloat),
             1 < Qabs eb -> (0 < y)%Z ->
             libm_pow (Qabs eb) y = p -> p <> FInf false ->
             exists r : Q, p = FFin r /\ 1 <= r).
  { intros y p Hx Hypos Hp Hinf.
    destruct (pow_monotone (Qabs eb) y y Hx ltac:(lia)) as (H1 & _).
    rewrite Hp in H1. destruct p as [|[|]|r]; cbn in H1; try discriminate;
      [now elim Hinf|].
    exists r. split; [reflexivity | now apply Qle_bool_iff]. }
  destruct Ci as [(Yi & ->) | [(Yi & Ei & ->) | (Yi & Xi & Pi & Ii & _)]];
    destruct Cj as [(Yj & ->) | [(Yj & Ej & ->) | (Yj & Xj & Pj & Ij & _)]];
    try (exists 1, 1; repeat split; lra);
    try (exfalso; lra); try (exfalso; lia).
  - destruct (Hpow (Qfloor wj) pj Xj ltac:(lia) Pj Ij) as (rj & -> & Hrj).
    exists 1, rj. repeat split; lra.
  - destruct (Hpow (Qfloor wi) pi Xi ltac:(lia) Pi Ii) as (ri & -> & Hri).
    destruct (Hpow (Qfloor wj) pj Xj ltac:(lia) Pj Ij) as (rj & -> & Hrj).
    exists ri, rj. repeat split; try assumption.
    destruct (pow_monotone (Qabs eb) (Qfloor wi) (Qfloor wj) Xi ltac:(lia))
      as (_ & H2).
    rewrite Pi, Pj in H2. now apply fle_FFin in H2.
Qed.

(** The base of the backoff: not negative, possibly infinite after the
    fivefold scaling. *)
Lemma base_cases (bd : Q) (status : option Z) :
  0 <= bd ->
  let base := if Retry.is_rate_limited status
              then fmul (FFin bd) five else FFin bd in
  base = FInf false \/ exists b : Q, base = FFin b /\ 0 <= b.
Proof.
  intros Hbd. destruct (Retry.is_rate_limited status); cbv zeta.
  - assert (H : 0 <= bd * 5) by lra.
    apply b64_round_mono in H. rewrite (b64_round_zero 0) in H by reflexivity.
    unfold five, fmul. destruct (b64_round (bd * 5)) as [|[|]|b];
      cbn in H; try discriminate; [now left|].
    right. exists b. split; [reflexivity | now apply Qle_bool_iff].
  - right. now exists bd.
Qed.

Lemma fmul_mono (base : pyfloat) (r1 r2 : Q) :
  (base = FInf false \/ exists b : Q, base = FFin b /\ 0 <= b) ->
  1 <= r1 -> r1 <= r2 ->
  fle (fmul base (FFin r1)) (fmul base (FFin r2)) = true.
Proof.
  intros [-> | (b & -> & Hb)] H1 H12.
  - cbn.
    assert (E1 : Qeq_bool r1 0 = false).
    { destruct (Qeq_bool r1 0) eqn:E; [|reflexivity].
      apply Qeq_bool_iff in E. exfalso. lra. }
    assert (E2 : Qeq_bool r2 0 = false).
    { destruct (Qeq_bool r2 0) eqn:E; [|reflexivity].
      apply Qeq_bool_iff in E. exfalso. lra. }
    rewrite E1, E2.
    rewrite (proj2 (Qle_bool_iff 0 r1)), (proj2 (Qle_bool_iff 0 r2)) by lra.
    reflexivity.
  - cbn. apply b64_round_mono. nra.
Qed.

End PowerFacts.

Section DelayFacts64.

Import PyNum Backoff.
Local Open Scope Q_scope.

(** Rounding the exact power is a monotone [pow]. *)
Lemma round_to_nearest_monotone : MonotonePow round_to_nearest.
Proof.
  intros x y1 y2 Hx (Hy1 & Hy12). cbn [libm_pow round_to_nearest].
  split.
  - replace (FFin 1) with (b64_round 1) by (vm_compute; reflexivity).
    apply b64_round_mono. apply Qpower_1_le; [lra | lia].
  - apply b64_round_mono. apply Qpower_le_compat_l; [exact Hy12 | lra].
Qed.

Lemma capped_delay_inv {L : Libm} (attempt : nat) (config : RetryConfig)
      (status : option Z) (d : pyfloat) :
  capped_delay attempt config status = Ret d ->
  exists p : pyfloat,
    float_pow (exponential_base config) attempt = Ret p
    /\ d = fmin (fmul (if Retry.is_rate_limited status
                       then fmul (base_delay config) five
                       else base_delay config) p)
             (max_delay config).
Proof.
  unfold capped_delay.
  destruct (float_pow (exponential_base config) attempt) as [p | e];
    [|discriminate].
  intros H. exists p. split; [reflexivity | congruence].
Qed.

Lemma capped_delay_mono64 {L : Libm} (config : RetryConfig)
      (status : option Z) (i j : nat) (bd eb : Q) (di dj : pyfloat) :
  MonotonePow L ->
  base_delay config = FFin bd -> 0 <= bd ->
  exponential_base config = FFin eb -> 1 <= eb ->
  (i <= j)%nat ->
  capped_delay i config status = Ret di ->
  capped_delay j config status = Ret dj ->
  fle di dj = true.
Proof.
  intros HL Hbd Hbd0 Heb Heb1 Hij Hi Hj.
  apply capped_delay_inv in Hi. destruct Hi as (pi & Hpi & ->).
  apply capped_delay_inv in Hj. destruct Hj as (pj & Hpj & ->).
  rewrite Heb in Hpi, Hpj. rewrite Hbd.
  destruct (float_pow_mono HL eb i j pi pj Heb1 Hij Hpi Hpj)
    as (ri & rj & -> & -> & Hri & Hrij).
  apply fmin_mono. apply fmul_mono; [|assumption ..].
  exact (base_cases bd status Hbd0).
Qed.

(** Under a finite [max_delay] the capped delay is finite. *)
Lemma capped_delay_finite {L : Libm} (config : RetryConfig)
      (status : option Z) (attempt : nat) (bd eb mq : Q) (d : pyfloat) :
  MonotonePow L ->
  base_delay config = FFin bd -> 0 <= bd ->
  exponential_base config = FFin eb -> 1 <= eb ->
  max_delay config = FFin mq -> Qabs mq < 2 ^ 1024 ->
  capped_delay attempt config status = Ret d ->
  exists dq : Q, d = FFin dq /\ Qabs dq < 2 ^ 1024.
Proof.
  intros HL Hbd Hbd0 Heb Heb1 Hm Hmq Hd.
  apply capped_delay_inv in Hd. destruct Hd as (p & Hp & ->).
  rewrite Heb in Hp. rewrite Hbd, Hm.
  destruct (float_pow_mono HL eb attempt attempt p p Heb1 (le_n _) Hp Hp)
    as (r & _ & -> & _ & Hr & _).
  destruct (base_cases bd status Hbd0) as [-> | (b & -> & Hb)].
  - exists mq. split; [|exact Hmq]. cbn.
    assert (E : Qeq_bool r 0 = false).
    { destruct (Qeq_bool r 0) eqn:E; [|reflexivity].
      apply Qeq_bool_iff in E. exfalso. lra. }
    rewrite E, (proj2 (Qle_bool_iff 0 r)) by lra. reflexivity.
  - cbn [fmul].
    assert (H0 : 0 <= b * r) by nra.
    apply b64_round_mono in H0.
    rewrite (b64_round_zero 0) in H0 by reflexivity.
    destruct (b64_round (b * r)) as [|[|]|v] eqn:E; cbn in H0;
      try discriminate.
    + exists mq. split; [reflexivity | exact Hmq].
    + apply b64_round_finite in E. unfold fmin, flt.
      destruct (negb (Qle_bool v mq)); eauto.
Qed.

(** On a finite delay and a finite draw the jitter step gives a
    number. *)
Lemma jitter_number (dq uq : Q) :
  Qabs dq < 2 ^ 1024 ->
  let jitter_range := fmul (FFin dq) quarter in
  is_number (fadd (FFin dq)
               (uniform (fneg jitter_range) jitter_range (FFin uq))) = true.
Proof.
  intros Hd. cbv zeta. unfold quarter. cbn [fmul].
  assert (Hq : - 2 ^ 1022 <= dq * (1 # 4) <= 2 ^ 1022).
  { apply Qabs_Qlt_condition in Hd.
    replace (2 ^ 1024) with ((2 ^ 1022) * 4)%Q in Hd
      by (vm_compute; reflexivity).
    lra. }
  destruct (b64_round_within _ (2 ^ 1022) ltac:(vm_compute; reflexivity)
              ltac:(vm_compute; reflexivity) Hq) as (jr & -> & Hjr).
  unfold uniform, fsub. cbn [fneg fadd].
  assert (Hw : - 2 ^ 1023 <= jr + - - jr <= 2 ^ 1023).
  { replace (2 ^ 1023) with ((2 ^ 1022) * 2)%Q by (vm_compute; reflexivity).
    lra. }
  destruct (b64_round_within _ (2 ^ 1023) ltac:(vm_compute; reflexivity)
              ltac:(vm_compute; reflexivity) Hw) as (w & -> & _).
  apply fadd_finite_number. apply fadd_finite_number.
  apply fmul_finite_number.
Qed.

End DelayFacts64.

Section DefaultPolicy.

Import PyNum Backoff.
Local Open Scope Q_scope.

Lemma calculate_delay_returns {L : Libm} (attempt : nat)
      (config : RetryConfig) (status : option Z) (u : pyfloat) :
  (forall p : pyfloat,
     float_pow (exponential_base config) attempt = Ret p ->
     exists d : pyfloat, calculate_delay attempt config status u = Ret d)
  /\ (forall e : exn,
        float_pow (exponential_base config) attempt = Raise e ->
        calculate_delay attempt config status u = Raise e).
Proof.
  unfold calculate_delay, capped_delay. split.
  - intros p ->. eexists. reflexivity.
  - intros e ->. reflexivity.
Qed.

(** With a [pow] that rounds the exact power, [2.0 ** attempt] is
    computed up to attempt 1023 and overflows from attempt 1024 on. *)
Lemma power_of_two_range (attempt : nat) :
  ((attempt <= 1023)%nat ->
   exists p : pyfloat,
     @float_pow round_to_nearest (FFin 2) attempt = Ret p)
  /\ ((1024 <= attempt)%nat ->
      exists msg : string,
        @float_pow round_to_nearest (FFin 2) attempt
        = Raise (OverflowError msg)).
Proof.
  unfold float_pow. split; intros Ha.
  - assert (Hw : - inject_Z 1023 <= inject_Z (Z.of_nat attempt)
                 <= inject_Z 1023).
    { split; [|rewrite <- Zle_Qle; lia].
      apply Qle_trans with (inject_Z 0); [discriminate|].
      rewrite <- Zle_Qle. lia. }
    destruct (b64_round_within _ (inject_Z 1023)
                ltac:(vm_compute; reflexivity) ltac:(vm_compute; reflexivity)
                Hw) as (w & Ew & Hw1 & Hw2).
    unfold float_of_int. rewrite Ew. cbv beta iota zeta.
    destruct (Qfloor w =? 0)%Z eqn:Ey; [eexists; reflexivity|].
    change (Qeq_bool 2 0) with false. cbv beta iota.
    change (Qeq_bool (Qabs 2) 1) with false. cbv beta iota.
    cbn [libm_pow round_to_nearest].
    assert (Hy : (Qfloor w <= 1023)%Z).
    { change 1023%Z with (Qfloor (inject_Z 1023)).
      now apply Qfloor_resp_le. }
    assert (Hp : - 2 ^ 1023 <= Qabs 2 ^ Qfloor w <= 2 ^ 1023).
    { change (Qabs 2) with 2. split.
      - apply Qle_trans with 0; [discriminate|].
        apply Qlt_le_weak, two_power_pos.
      - now apply two_power_le. }
    destruct (b64_round_within _ (2 ^ 1023)
                ltac:(vm_compute; reflexivity) ltac:(vm_compute; reflexivity)
                Hp) as (r & -> & _).
    eexists. reflexivity.
  - destruct (float_of_int (Z.of_nat attempt)) as [w | e] eqn:Ew.
    + cbv beta iota zeta.
      assert (Hy : (1024 <= Qfloor w)%Z).
      { change 1024%Z with (Qfloor (inject_Z 1024)).
        apply (exponent_mono 1024 (Z.of_nat attempt));
          [lia | apply float_of_small_int; cbn; auto | exact Ew]. }
      destruct (Qfloor w =? 0)%Z eqn:Ey; [apply Z.eqb_eq in Ey; lia|].
      change (Qeq_bool 2 0) with false. cbv beta iota.
      change (Qeq_bool (Qabs 2) 1) with false. cbv beta iota.
      cbn [libm_pow round_to_nearest]. change (Qabs 2) with 2.
      assert (Hp : 2 ^ 1024 <= 2 ^ Qfloor w) by now apply two_power_le.
      apply b64_round_mono in Hp.
      replace (b64_round (2 ^ 1024)) with (FInf false) in Hp
        by (vm_compute; reflexivity).
      destruct (b64_round (2 ^ Qfloor w)) as [|[|]|r]; cbn in Hp;
        try discriminate.
      eexists. reflexivity.
    + unfold float_of_int in Ew.
      destruct (b64_round (inject_Z (Z.of_nat attempt)));
        inversion Ew; eexists; reflexivity.
Qed.

End DefaultPolicy.

Section BackoffClaim.

Import PyNum Backoff.
Local Open Scope Q_scope.

(** C3 (as amended).  In binary64, for a policy whose base delay is a
    float that is not negative and whose exponential base is a finite
    float of at least 1, on a platform whose [pow] does not decrease
    with the exponent, the delay before jitter does not decrease with
    the attempt, among the attempts at which it is computed; with the
    default policy the delay before jitter at attempt 0 is [10.0] after
    a 429 and [2.0] otherwise, exactly 5 times as much; a value
    [calculate_delay] returns is a NaN or at least [0.1], and it is at
    least [0.1] for such a policy with a finite [max_delay]; with the
    default policy and a [pow] that rounds the exact power, a delay is
    returned at the attempts up to 1023 and from attempt 1024 on the
    call raises [OverflowError]. *)
Theorem backoff_monotone_scaled_floored :
  (forall (L : Libm) (config : RetryConfig) (status : option Z)
          (i j : nat) (bd eb : Q) (di dj : pyfloat),
      MonotonePow L ->
      base_delay config = FFin bd -> 0 <= bd ->
      exponential_base config = FFin eb -> 1 <= eb ->
      (i <= j)%nat ->
      capped_delay i config status = Ret di ->
      capped_delay j config status = Ret dj ->
      fle di dj = true)
  /\ (forall L : Libm,
        capped_delay 0 default_config (Some 429%Z) = Ret (FFin 10)
        /\ capped_delay 0 default_config None = Ret (FFin 2)
        /\ fmul five (FFin 2) = FFin 10)
  /\ (forall (L : Libm) (config : RetryConfig) (status : option Z)
             (attempt : nat) (u d : pyfloat),
        calculate_delay attempt config status u = Ret d ->
        d = FNan \/ fle tenth d = true)
  /\ (forall (L : Libm) (config : RetryConfig) (status : option Z)
             (attempt : nat) (bd eb mq uq : Q) (d : pyfloat),
        MonotonePow L ->
        base_delay config = FFin bd -> 0 <= bd ->
        exponential_base config = FFin eb -> 1 <= eb ->
        max_delay config = FFin mq -> Qabs mq < 2 ^ 1024 ->
        calculate_delay attempt config status (FFin uq) = Ret d ->
        fle tenth d = true)
  /\ (forall (status : option Z) (attempt : nat) (u : pyfloat),
        ((attempt <= 1023)%nat ->
         exists d : pyfloat,
           @calculate_delay round_to_nearest attempt default_config status u
           = Ret d)
        /\ ((1024 <= attempt)%nat ->
            exists msg : string,
              @calculate_delay round_to_nearest attempt default_config
                status u
              = Raise (OverflowError msg))).
Proof.
  split; [|split; [|split; [|split]]].
  - intros L config status i j bd eb di dj. apply capped_delay_mono64.
  - intros L. repeat split; vm_compute; reflexivity.
  - intros L config status attempt u d. unfold calculate_delay.
    destruct (capped_delay attempt config status) as [x | e];
      [|discriminate].
    intros H. injection H as <-.
    match goal with
    | |- fmax ?y tenth = FNan \/ _ =>
        destruct (fmax_tenth y) as [(_ & E) | (_ & E)]; auto
    end.
  - intros L config status attempt bd eb mq uq d HL Hbd Hbd0 Heb Heb1 Hm Hmq.
    unfold calculate_delay.
    destruct (capped_delay attempt config status) as [x | e] eqn:Ex;
      [|discriminate].
    destruct (capped_delay_finite config status attempt bd eb mq x
                HL Hbd Hbd0 Heb Heb1 Hm Hmq Ex) as (dq & -> & Hdq).
    intros H. injection H as <-.
    pose proof (jitter_number dq uq Hdq) as Hj. cbv zeta in Hj.
    match goal with
    | |- fle tenth (fmax ?y tenth) = true =>
        destruct (fmax_tenth y) as [(N & _) | (_ & E)]; [|exact E]
    end.
    destruct (jitter config); [|discriminate N].
    pose proof (eq_trans (eq_sym Hj) N) as C. discriminate C.
  - intros status attempt u.
    destruct (power_of_two_range attempt) as (Hret & Hraise).
    destruct (@calculate_delay_returns round_to_nearest attempt
                default_config status u) as (Hr & He).
    split; intros Ha.
    + destruct (Hret Ha) as (p & Hp). exact (Hr p Hp).
    + destruct (Hraise Ha) as (msg & Hmsg). exists msg. exact (He _ Hmsg).
Qed.

(** The default policy at attempts 1 and 5, after a 503, with a [pow]
    that rounds the exact power: 4 and 64 seconds before jitter. *)
Lemma backoff_monotone_scaled_floored_default :
  @capped_delay round_to_nearest 1 default_config (Some 503%Z) = Ret (FFin 4)
  /\ @capped_delay round_to_nearest 5 default_config (Some 503%Z)
     = Ret (FFin 64)
  /\ fle (FFin 4) (FFin 64) = true.
Proof.
  split; [vm_compute; reflexivity|]. split; [vm_compute; reflexivity|].
  apply (proj1 backoff_monotone_scaled_floored round_to_nearest
           default_config (Some 503%Z) 1%nat 5%nat 2 2 (FFin 4) (FFin 64)).
  - exact round_to_nearest_monotone.
  - reflexivity.
  - vm_compute. discriminate.
  - reflexivity.
  - vm_compute. discriminate.
  - lia.
  - vm_compute. reflexivity.
  - vm_compute. reflexivity.
Defined.

(** C3, the claim as written, fails.  With [exponential_base=0.5] the
    delay before jitter is 2 seconds at attempt 0 and 1 second at
    attempt 1; with the default policy no delay is returned at attempt
    1024, where [2.0 ** 1024] raises; and with a NaN as base delay the
    value returned is a NaN, which is not at least [0.1]. *)
Lemma backoff_shrinks_below_base_one :
  (@capped_delay round_to_nearest 0 halving_config None = Ret (FFin 2)
   /\ @capped_delay round_to_nearest 1 halving_config None = Ret (FFin 1)
   /\ fle (FFin 2) (FFin 1) = false)
  /\ @calculate_delay round_to_nearest 1024 default_config None
       (FFin (1 # 2))
     = Raise (OverflowError "(34, 'Numerical result out of range')")
  /\ (@calculate_delay round_to_nearest 0 nan_config None (FFin (1 # 2))
      = Ret FNan
      /\ fle tenth FNan = false).
Proof.
  repeat split; vm_compute; reflexivity.
Qed.

End BackoffClaim.

Section Exactness.

Import PyNum Backoff.
Local Open Scope Q_scope.

Lemma representable_eq (v w : Q) : v == w -> representable v -> representable w.
Proof.
  intros E (M & P & HP & HM & Hv). exists M, P.
  repeat split; try assumption. now rewrite <- E.
Qed.

Lemma representable_opp (v : Q) : representable v -> representable (- v).
Proof.
  intros (M & P & HP & HM & Hv). exists (- M)%Z, P.
  split; [exact HP|]. split; [lia|].
  rewrite Hv, inject_Z_opp. ring.
Qed.

Lemma representable_double (v : Q) :
  representable v -> representable (v + v).
Proof.
  intros (M & P & HP & HM & Hv). exists M, (P + 1)%Z.
  split; [lia|]. split; [exact HM|].
  rewrite Hv, two_power_plus. change (2 ^ 1) with 2. ring.
Qed.

Lemma representable_zero : representable 0.
Proof. exists 0%Z, 0%Z. split; [lia|]. split; [lia | reflexivity]. Qed.

(** Rounding happens on an integer of at most 53 bits. *)
Lemma rounded_representable (q : Q) : 0 < q -> representable (rounded q).
Proof.
  intros Hq. unfold rounded.
  exists (round_half_even (Qred (q / 2 ^ scale q))), (scale q).
  split; [unfold scale; lia|]. split; [|reflexivity].
  destruct (floor_log2_spec q Hq) as (_ & Hup).
  assert (H0 : (0 <= round_half_even (Qred (q / 2 ^ scale q)))%Z).
  { apply round_half_even_ge_int. rewrite Qred_correct.
    apply Qle_shift_div_l; [apply two_power_pos|].
    change (inject_Z 0) with 0. rewrite Qmult_0_l. now apply Qlt_le_weak. }
  assert (H1 : (round_half_even (Qred (q / 2 ^ scale q)) <= 2 ^ 53)%Z).
  { apply round_half_even_le_int. rewrite Qred_correct.
    rewrite <- two_power_int by lia.
    apply Qle_trans with (2 ^ (floor_log2 q + 1) / 2 ^ scale q).
    - apply scaled_le. now apply Qlt_le_weak.
    - rewrite scaled_power. apply two_power_le. unfold scale. lia. }
  lia.
Qed.

Lemma scaled_back (x : Q) (s : Z) : x / 2 ^ s * 2 ^ s == x.
Proof.
  unfold Qdiv. rewrite <- Qmult_assoc, (Qmult_comm (/ 2 ^ s)).
  rewrite Qmult_inv_r; [ring|].
  intros E. pose proof (two_power_pos s) as H. rewrite E in H.
  discriminate H.
Qed.

(** Rounding leaves a representable number as it is. *)
Lemma rounded_fixed (v : Q) : representable v -> 0 < v -> rounded v == v.
Proof.
  intros (M & P & HP & HM & Hv) Hpos.
  destruct (floor_log2_spec v Hpos) as (Hlo & Hup).
  assert (HN : exists N : Z, v / 2 ^ scale v == inject_Z N).
  { unfold scale. set (e := floor_log2 v) in *.
    set (s := Z.max (e - 52) (-1074)).
    destruct (Z_le_gt_dec s P) as [Hs | Hs].
    - exists (M * 2 ^ (P - s))%Z.
      rewrite inject_Z_mult, <- two_power_int by lia.
      rewrite Hv. unfold Qdiv. rewrite <- Qmult_assoc.
      apply Qmult_comp; [reflexivity|].
      symmetry. apply two_power_minus.
    - assert (Hes : s = (e - 52)%Z) by (unfold s in *; lia).
      assert (HM53 : inject_Z M <= inject_Z (2 ^ 53))
        by (rewrite <- Zle_Qle; lia).
      assert (Hv53 : v <= 2 ^ (P + 53)).
      { rewrite Hv, two_power_plus, (Qmult_comm (2 ^ P)).
        rewrite (two_power_int 53) by lia.
        apply Qmult_le_compat_r; [exact HM53|].
        apply Qlt_le_weak, two_power_pos. }
      assert (He : (e < P + 54)%Z).
      { apply two_power_lt_inv. eapply Qle_lt_trans; [exact Hlo|].
        eapply Qle_lt_trans; [exact Hv53|].
        apply Qpower_lt_compat_l; [lia | reflexivity]. }
      assert (He' : e = (P + 53)%Z) by lia.
      exists (2 ^ 52)%Z.
      assert (Hv' : v == 2 ^ (P + 53)).
      { apply Qle_antisym; [exact Hv53|]. now rewrite <- He'. }
      rewrite Hv'. rewrite scaled_power, <- two_power_int by lia.
      replace (P + 53 - s)%Z with 52%Z by lia. reflexivity. }
  destruct HN as (N & HN). unfold rounded.
  assert (Hr : round_half_even (Qred (v / 2 ^ scale v)) = N).
  { apply Z.le_antisymm.
    - apply round_half_even_le_int. rewrite Qred_correct, HN. apply Qle_refl.
    - apply round_half_even_ge_int. rewrite Qred_correct, HN. apply Qle_refl. }
  rewrite Hr, <- HN. apply scaled_back.
Qed.

(** A representable number below the overflow bound is a float. *)
Lemma b64_round_exact (x : Q) :
  representable x -> Qabs x < 2 ^ 1024 -> is_float x.
Proof.
  intros Hrep Hfin. unfold is_float.
  destruct (Q_dec x 0) as [[N | P] | Z].
  - destruct (abs_of_neg x N) as (A & E).
    assert (Hfix : rounded (Qabs x) == Qabs x).
    { apply rounded_fixed; [|exact A].
      apply (representable_eq (- x)); [now symmetry|].
      now apply representable_opp. }
    destruct (b64_round_neg x N) as [(_ & Hbig) | (w & -> & Hw & _)].
    + exfalso. rewrite Hfix in Hbig. lra.
    + exists w. split; [reflexivity|]. rewrite Hw, Hfix, E. ring.
  - destruct (abs_of_pos x P) as (A & E).
    assert (Hfix : rounded (Qabs x) == Qabs x).
    { apply rounded_fixed; [|exact A].
      apply (representable_eq x); [now symmetry | exact Hrep]. }
    destruct (b64_round_pos x P) as [(_ & Hbig) | (w & -> & Hw & _)].
    + exfalso. rewrite Hfix in Hbig. lra.
    + exists w. split; [reflexivity|]. now rewrite Hw, Hfix.
  - exists 0. split; [now apply b64_round_zero | now symmetry].
Qed.

(** What rounding returns is representable. *)
Lemma b64_round_representable (q v : Q) :
  b64_round q = FFin v -> representable v.
Proof.
  intros H. destruct (Q_dec q 0) as [[N | P] | Z].
  - destruct (abs_of_neg q N) as (A & _).
    destruct (b64_round_neg q N) as [(E & _) | (w & E & Hw & _)];
      rewrite E in H; [discriminate|]. injection H as <-.
    apply (representable_eq (- rounded (Qabs q))); [now symmetry|].
    now apply representable_opp, rounded_representable.
  - destruct (abs_of_pos q P) as (A & _).
    destruct (b64_round_pos q P) as [(E & _) | (w & E & Hw & _)];
      rewrite E in H; [discriminate|]. injection H as <-.
    apply (representable_eq (rounded (Qabs q))); [now symmetry|].
    now apply rounded_representable.
  - rewrite (b64_round_zero q Z) in H. injection H as <-.
    exact representable_zero.
Qed.

(** Rounding twice is rounding once. *)
Lemma b64_round_idempotent (q v : Q) :
  b64_round q = FFin v -> is_float v.
Proof.
  intros H. apply b64_round_exact.
  - exact (b64_round_representable q v H).
  - exact (b64_round_finite q v H).
Qed.

End Exactness.

Section JitterBand.

Import PyNum Backoff.
Local Open Scope Q_scope.

Ltac qprop :=
  repeat match goal with
         | H : Qle_bool _ _ = true |- _ => apply Qle_bool_iff in H
         | H : Qle_bool ?a ?b = false |- _ =>
             assert (b < a)
               by (apply Qnot_le_lt; intros Hle; apply Qle_bool_iff in Hle;
                   congruence);
             clear H
         | |- Qle_bool _ _ = true => apply Qle_bool_iff
         end.

Lemma fle_trans (a b c : pyfloat) :
  fle a b = true -> fle b c = true -> fle a c = true.
Proof.
  destruct a as [|[|]|x], b as [|[|]|y], c as [|[|]|z]; cbn;
    try discriminate; try reflexivity.
  intros H1 H2. qprop. lra.
Qed.

(** [max] keeps the order of its first argument. *)
Lemma fmax_mono (a b t : pyfloat) :
  fle a b = true -> fle (fmax a t) (fmax b t) = true.
Proof.
  unfold fmax.
  destruct a as [|[|]|x], b as [|[|]|y], t as [|[|]|tq];
    cbn; try discriminate; try reflexivity; intros H;
    repeat match goal with
           | |- context [Qle_bool ?u ?v] =>
               let E := fresh "E" in destruct (Qle_bool u v) eqn:E; cbn
           end;
    try reflexivity; try discriminate; qprop; lra.
Qed.

(** Rounding a rational between two floats. *)
Lemma b64_round_between (lo q hi : Q) :
  is_float lo -> is_float hi -> lo <= q <= hi ->
  exists v : Q, b64_round q = FFin v /\ lo <= v <= hi.
Proof.
  intros (l & El & Hl) (h & Eh & Hh) (H1 & H2).
  apply b64_round_mono in H1. apply b64_round_mono in H2.
  rewrite El in H1. rewrite Eh in H2.
  destruct (b64_round q) as [|[|]|v]; cbn in H1, H2; try discriminate.
  exists v. split; [reflexivity|]. qprop. lra.
Qed.

Lemma is_float_opp (q : Q) : is_float q -> is_float (- q).
Proof.
  intros (v & E & Hv). apply b64_round_exact.
  - apply representable_opp. apply (representable_eq v); [exact Hv|].
    exact (b64_round_representable q v E).
  - rewrite Qabs_opp, <- Hv. exact (b64_round_finite q v E).
Qed.

Lemma is_float_zero : is_float 0.
Proof. exists 0. split; reflexivity. Qed.

Lemma is_float_eq (q r : Q) : q == r -> is_float q -> is_float r.
Proof.
  intros E (v & Ev & Hv). apply b64_round_exact.
  - apply (representable_eq v); [now rewrite Hv|].
    exact (b64_round_representable q v Ev).
  - rewrite <- E, <- Hv. exact (b64_round_finite q v Ev).
Qed.

(** The jitter step on a finite delay that is not negative, with a draw
    of the unit interval: the outcome lies in the band of a rounded
    quarter of the delay on either side. *)
Lemma jitter_within_band (dq uq : Q) :
  0 <= dq -> dq < 2 ^ 1024 -> 0 <= uq <= 1 ->
  let jitter_range := fmul (FFin dq) quarter in
  let jittered :=
    fadd (FFin dq) (uniform (fneg jitter_range) jitter_range (FFin uq)) in
  fle (fsub (FFin dq) jitter_range) jittered = true
  /\ fle jittered (fadd (FFin dq) jitter_range) = true.
Proof.
  intros Hd0 Hd (Hu0 & Hu1). cbv zeta. unfold quarter. cbn [fmul].
  assert (Hq : - 2 ^ 1022 <= dq * (1 # 4) <= 2 ^ 1022).
  { replace (2 ^ 1024) with ((2 ^ 1022) * 4)%Q in Hd
      by (vm_compute; reflexivity).
    assert (0 < 2 ^ 1022) by apply two_power_pos. lra. }
  destruct (b64_round_within _ (2 ^ 1022) ltac:(vm_compute; reflexivity)
              ltac:(vm_compute; reflexivity) Hq) as (j & Ej & Hj).
  assert (Hj0 : 0 <= j).
  { assert (H : 0 <= dq * (1 # 4)) by lra.
    apply b64_round_mono in H.
    rewrite (b64_round_zero 0), Ej in H by reflexivity.
    now apply fle_FFin in H. }
  assert (Fj : is_float j) by exact (b64_round_idempotent _ _ Ej).
  rewrite Ej. unfold uniform, fsub. cbn [fneg fadd].
  (* the width of the interval: twice the range, exactly *)
  assert (Fw : is_float (j + - - j)).
  { apply b64_round_exact.
    - apply (representable_eq (j + j)); [ring|].
      apply representable_double. exact (b64_round_representable _ _ Ej).
    - replace (2 ^ 1024) with ((2 ^ 1022) * 4)%Q by (vm_compute; reflexivity).
      rewrite Qabs_pos by lra. assert (0 < 2 ^ 1022) by apply two_power_pos.
      lra. }
  destruct Fw as (w & Ew & Hw). rewrite Ew. cbn [fmul].
  (* the draw scaled to the width *)
  assert (Ft : exists tq : Q, b64_round (w * uq) = FFin tq /\ 0 <= tq <= w).
  { apply b64_round_between; [exact is_float_zero | |nra].
    apply (is_float_eq (j + - - j)); [now symmetry|].
    exists w. split; assumption. }
  destruct Ft as (tq & -> & Ht). cbn [fadd].
  (* the offset: between minus and plus the range *)
  assert (Fx : exists xq : Q,
             b64_round (- j + tq) = FFin xq /\ - j <= xq <= j).
  { apply b64_round_between; [now apply is_float_opp | exact Fj | lra]. }
  destruct Fx as (xq & -> & Hx). cbn [fadd].
  split; apply b64_round_mono; lra.
Qed.

(** The capped delay of a policy with a finite [max_delay] that is not
    negative lies between 0 and [max_delay]. *)
Lemma capped_delay_range {L : Libm} (config : RetryConfig)
      (status : option Z) (attempt : nat) (bd eb mq : Q) (d : pyfloat) :
  MonotonePow L ->
  base_delay config = FFin bd -> 0 <= bd ->
  exponential_base config = FFin eb -> 1 <= eb ->
  max_delay config = FFin mq -> 0 <= mq ->
  capped_delay attempt config status = Ret d ->
  exists dq : Q, d = FFin dq /\ 0 <= dq <= mq.
Proof.
  intros HL Hbd Hbd0 Heb Heb1 Hm Hmq Hd.
  apply capped_delay_inv in Hd. destruct Hd as (p & Hp & ->).
  rewrite Heb in Hp. rewrite Hbd, Hm.
  destruct (float_pow_mono HL eb attempt attempt p p Heb1 (le_n _) Hp Hp)
    as (r & _ & -> & _ & Hr & _).
  destruct (base_cases bd status Hbd0) as [-> | (b & -> & Hb)].
  - exists mq. split; [|lra]. cbn.
    assert (E : Qeq_bool r 0 = false).
    { destruct (Qeq_bool r 0) eqn:E; [|reflexivity].
      apply Qeq_bool_iff in E. exfalso. lra. }
    rewrite E, (proj2 (Qle_bool_iff 0 r)) by lra. reflexivity.
  - cbn [fmul].
    assert (H0 : 0 <= b * r) by nra.
    apply b64_round_mono in H0.
    rewrite (b64_round_zero 0) in H0 by reflexivity.
    destruct (b64_round (b * r)) as [|[|]|v] eqn:E; cbn in H0;
      try discriminate.
    + exists mq. split; [reflexivity | lra].
    + apply Qle_bool_iff in H0. unfold fmin, flt.
      destruct (Qle_bool v mq) eqn:Ev; cbn [negb].
      * apply Qle_bool_iff in Ev. exists v. split; [reflexivity | lra].
      * exists mq. split; [reflexivity | lra].
Qed.

(** X4.  In binary64, for a policy with jitter whose base delay is not
    negative, whose exponential base is finite and at least 1 and whose
    [max_delay] is finite and not negative, on a platform whose [pow]
    does not decrease with the exponent, and for a draw of the unit
    interval: the delay before jitter [d] lies between 0 and
    [max_delay]; the delay returned lies between [d - d * 0.25] and
    [d + d * 0.25], each computed in floats and floored at [0.1]; and it
    never exceeds [max_delay + max_delay * 0.25], computed in floats
    and floored at [0.1]. *)
Theorem jitter_stays_in_band :
  forall (L : Libm) (config : RetryConfig) (status : option Z)
         (attempt : nat) (bd eb mq uq : Q) (r : pyfloat),
    MonotonePow L ->
    base_delay config = FFin bd -> 0 <= bd ->
    exponential_base config = FFin eb -> 1 <= eb ->
    max_delay config = FFin mq -> 0 <= mq -> mq < 2 ^ 1024 ->
    jitter config = true ->
    0 <= uq <= 1 ->
    calculate_delay attempt config status (FFin uq) = Ret r ->
    exists dq : Q,
      capped_delay attempt config status = Ret (FFin dq)
      /\ 0 <= dq <= mq
      /\ fle (fmax (fsub (FFin dq) (fmul (FFin dq) quarter)) tenth) r = true
      /\ fle r (fmax (fadd (FFin dq) (fmul (FFin dq) quarter)) tenth) = true
      /\ fle r (fmax (fadd (FFin mq) (fmul (FFin mq) quarter)) tenth) = true.
Proof.
  intros L config status attempt bd eb mq uq r HL Hbd Hbd0 Heb Heb1 Hm Hm0
         Hmfin Hjit Hu.
  unfold calculate_delay.
  destruct (capped_delay attempt config status) as [d | e] eqn:Ed;
    [|discriminate].
  destruct (capped_delay_range config status attempt bd eb mq d
              HL Hbd Hbd0 Heb Heb1 Hm Hm0 Ed) as (dq & -> & Hdq).
  rewrite Hjit. intros H. injection H as <-.
  exists dq. split; [reflexivity|]. split; [exact Hdq|].
  destruct (jitter_within_band dq uq (proj1 Hdq) ltac:(lra) Hu) as (Hlo & Hhi).
  cbv zeta in Hlo, Hhi.
  split; [now apply fmax_mono|].
  split; [now apply fmax_mono|].
  eapply fle_trans; [apply fmax_mono; exact Hhi|].
  apply fmax_mono. unfold quarter. cbn [fmul].
  assert (Hq : dq * (1 # 4) <= mq * (1 # 4)) by lra.
  apply b64_round_mono in Hq.
  assert (Hmq : - 2 ^ 1022 <= mq * (1 # 4) <= 2 ^ 1022).
  { replace (2 ^ 1024) with ((2 ^ 1022) * 4)%Q in Hmfin
      by (vm_compute; reflexivity).
    assert (0 < 2 ^ 1022) by apply two_power_pos. lra. }
  destruct (b64_round_within _ (2 ^ 1022) ltac:(vm_compute; reflexivity)
              ltac:(vm_compute; reflexivity) Hmq) as (jm & Ejm & _).
  assert (Hdq4 : - 2 ^ 1022 <= dq * (1 # 4) <= 2 ^ 1022) by lra.
  destruct (b64_round_within _ (2 ^ 1022) ltac:(vm_compute; reflexivity)
              ltac:(vm_compute; reflexivity) Hdq4) as (j & Ej & _).
  rewrite Ejm, Ej in Hq |- *. apply fle_FFin in Hq. cbn [fadd].
  apply b64_round_mono. lra.
Qed.

(** X5.  In binary64, for a policy whose base delay is a float that is
    not negative and whose exponential base is finite and at least 1,
    on a platform whose [pow] does not decrease with the exponent: at
    the same attempt the delay before jitter after a 429 is never
    shorter than the one after any other failure. *)
Theorem rate_limit_never_shortens :
  forall (L : Libm) (config : RetryConfig) (other : option Z)
         (attempt : nat) (bd eb : Q) (d429 dother : pyfloat),
    MonotonePow L ->
    base_delay config = FFin bd -> 0 <= bd -> is_float bd ->
    exponential_base config = FFin eb -> 1 <= eb ->
    Retry.is_rate_limited other = false ->
    capped_delay attempt config (Some 429%Z) = Ret d429 ->
    capped_delay attempt config other = Ret dother ->
    fle dother d429 = true.
Proof.
  intros L config other attempt bd eb d429 dother HL Hbd Hbd0 Hfl Heb Heb1
         Hother H429 Ho.
  apply capped_delay_inv in H429. destruct H429 as (p & Hp & ->).
  apply capped_delay_inv in Ho. destruct Ho as (p' & Hp' & ->).
  rewrite Hp in Hp'. injection Hp' as <-.
  rewrite Hother. cbn [Retry.is_rate_limited Z.eqb Pos.eqb].
  rewrite Heb in Hp. rewrite Hbd.
  destruct (float_pow_mono HL eb attempt attempt p p Heb1 (le_n _) Hp Hp)
    as (r & _ & -> & _ & Hr & _).
  apply fmin_mono. unfold five. cbn [fmul].
  destruct Hfl as (v & Ev & Hv).
  assert (H5 : bd <= bd * 5) by lra.
  apply b64_round_mono in H5. rewrite Ev in H5.
  destruct (b64_round (bd * 5)) as [|[|]|b5]; cbn in H5; try discriminate.
  - cbn.
    assert (E : Qeq_bool r 0 = false).
    { destruct (Qeq_bool r 0) eqn:E; [|reflexivity].
      apply Qeq_bool_iff in E. exfalso. lra. }
    rewrite E, (proj2 (Qle_bool_iff 0 r)) by lra. cbn.
    pose proof (b64_round_number (bd * r)) as Hn.
    now destruct (b64_round (bd * r)) as [|[|]|].
  - cbn. apply b64_round_mono. apply Qle_bool_iff in H5. nra.
Qed.

End JitterBand.
(** ** The theorems above at sample inputs *)

Section RetryWitnesses.

Import Retry RetryTrace.



(** [RetryConfig(max_attempts=0)] *)
Lemma with_retry_no_attempt_witness :
  with_retry (config_with_attempts 0) Fixtures.always_unavailable
    Fixtures.mid_draw
  = mkRun (Raise (TypeError "exceptions must derive from BaseException")) [] 0.
Proof.
  apply (with_retry_no_attempt PyVal.json (config_with_attempts 0)
           Fixtures.always_unavailable Fixtures.mid_draw).
  vm_compute. discriminate.
Defined.

End RetryWitnesses.

Section BlockWitnesses.

Import PyStr Client BlockSpec.
Local Open Scope string_scope.

(** The waiting page raises a pattern block. *)
Lemma check_for_blocks_raises_only_witness :
  let e := BlockDetectedError "login_required"
             ("Pattern matched: "
              ++ "Please wait a few minutes before you try again") in
  (e = BlockDetectedError "login_required" "Redirected to login page"
   /\ Substring "/accounts/login" "/alice/")
  \/ (e = BlockDetectedError "challenge_required"
            "Challenge/verification required"
      /\ Substring "/challenge" "/alice/")
  \/ (exists bt p : string,
        Denied Config.BLOCK_PATTERNS Samples.wait_page bt p
        /\ In bt ["login_required"; "challenge_required"; "not_found";
                  "rate_limited"]
        /\ e = BlockDetectedError bt ("Pattern matched: " ++ p))
  \/ (e = RetryableError "Empty or minimal response received"
      /\ (String.length Samples.wait_page < 1000)%nat
      /\ ~ Substring "username" Samples.wait_page).
Proof.
  apply (check_for_blocks_raises_only "/alice/" Samples.wait_page).
  vm_compute. reflexivity.
Defined.

Lemma wait_phrase_is_login_required_witness :
  Denied Config.BLOCK_PATTERNS Samples.wait_page "rate_limited"
    "Please wait a few minutes"
  /\ exists p : string,
       _check_for_blocks "/alice/" Samples.wait_page
       = Raise (BlockDetectedError "login_required" ("Pattern matched: " ++ p)).
Proof.
  apply (wait_phrase_is_login_required "/alice/" Samples.wait_page).
  - apply contains_false. vm_compute. reflexivity.
  - apply contains_false. vm_compute. reflexivity.
  - intros [H _]. revert H. apply contains_false. vm_compute. reflexivity.
  - apply contains_spec. vm_compute. reflexivity.
Defined.

End BlockWitnesses.

Section FetchWitnesses.

Import PyStr PyVal Models Retry Client Fetch FetchSpec.
Local Open Scope string_scope.

Lemma profile_block_not_retried_witness :
  _fetch_profile_page Samples.session0 (Samples.always Samples.blocked_profile)
    Fixtures.mid_draw
  = mkRun (Raise (BlockDetectedError "login_required"
                    ("Pattern matched: "
                     ++ "Please wait a few minutes before you try again")))
      [] 1.
Proof.
  apply (profile_block_not_retried Samples.session0
           (Samples.always Samples.blocked_profile) Fixtures.mid_draw
           Samples.blocked_profile).
  - reflexivity.
  - vm_compute. reflexivity.
Defined.

(** A client without tokens: a 503 on the home page, then the home
    page and the profile page.  The tokens are those of the home page,
    the csrf token that of the profile response, and the counter goes
    from 0 to 1. *)
Lemma profile_fetch_effects_witness :
  exists (k : nat) (r : response) (t t' : SessionTokens.t),
    (k < 3)%nat
    /\ calls (Startup._fetch_profile_page Samples.fresh_session
                Samples.home_after_503
                (Samples.after_503 Samples.good_profile) Fixtures.mid_draw)
       = S k
    /\ Samples.after_503 Samples.good_profile k = Ret r
    /\ Fixtures.flagged_profile_page = text r
    /\ _check_for_blocks (url_path r) (text r) = Ret tt
    /\ 1%nat = S (request_count Samples.fresh_session)
    /\ Some (SessionTokens.mk "936619743392459" "new-token" (Some "129477"))
       = Some t'
    /\ (exists (j : nat) (h : Startup.home),
          (j <= k)%nat /\ Samples.home_after_503 j = Ret h
          /\ (forall i : nat, (i < j)%nat ->
                exists e : exn, Samples.home_after_503 i = Raise e)
          /\ t = Parsers.TokenDiscovery.discover_all
                   (Startup.home_text h) (Startup.csrf_of h))
    /\ SessionTokens.app_id t' = SessionTokens.app_id t
    /\ SessionTokens.asbd_id t' = SessionTokens.asbd_id t
    /\ SessionTokens.csrf_token t'
       = match csrf_cookie r with
         | Some c => if is_empty c then SessionTokens.csrf_token t else c
         | None => SessionTokens.csrf_token t
         end.
Proof.
  apply (profile_fetch_effects Samples.fresh_session Samples.home_after_503
           (Samples.after_503 Samples.good_profile) Fixtures.mid_draw
           Fixtures.flagged_profile_page
           (mkSession
              (Some (SessionTokens.mk "936619743392459" "new-token"
                       (Some "129477")))
              1)).
  vm_compute. reflexivity.
Defined.

Lemma feed_login_words_not_retried_witness :
  _fetch_feed_page Samples.session0 (Samples.always Samples.login_wall)
    Fixtures.mid_draw
  = mkRun (Raise (BlockDetectedError "login_required"
                    "Feed API returned login required")) [] 1.
Proof.
  apply (feed_login_words_not_retried Samples.session0
           (Samples.always Samples.login_wall) Fixtures.mid_draw
           Samples.login_wall).
  - reflexivity.
  - split; apply contains_spec; vm_compute; reflexivity.
Defined.

Lemma feed_api_failure_not_retried_witness :
  _fetch_feed_page Samples.session0
    (Samples.always (Samples.feed_failure "Invalid user")) Fixtures.mid_draw
  = mkRun (Raise (ParserError ("Feed API error: " ++ "Invalid user"))) [] 1.
Proof.
  apply (feed_api_failure_not_retried Samples.session0
           (Samples.always (Samples.feed_failure "Invalid user"))
           Fixtures.mid_draw (Samples.feed_failure "Invalid user")).
  - reflexivity.
  - intros [H _]. revert H. apply contains_false. vm_compute. reflexivity.
  - eexists. split; [reflexivity|]. split; reflexivity.
  - intros [H | H]; revert H; apply contains_false; vm_compute; reflexivity.
Defined.



End FetchWitnesses.

Section ScrapeWitnesses.

Import PyVal Models Client.
Local Open Scope string_scope.

(** Pages of 12, 12 and 6 posts under a cap of 20. *)
Lemma scrape_never_exceeds_cap_witness :
  exists (run : scrape_run) (r : ScrapeResult.t),
    @scrape_full strict_host Config.default_ScraperConfig "alice"
      (Some 20%Z) (Ret Fixtures.alice) Fixtures.three_pages = Some run
    /\ returned run = Ret r
    /\ (Z.of_nat (length (ScrapeResult.posts r)) <= 20)%Z
    /\ ScrapeResult.total_posts_scraped r
       = Z.of_nat (length (ScrapeResult.posts r)).
Proof.
  eexists. eexists.
  split; [vm_compute; reflexivity|]. split; [reflexivity|].
  eapply (@scrape_never_exceeds_cap strict_host "alice"
           Config.default_ScraperConfig (Some 20%Z) 20%Z
           (Ret Fixtures.alice) Fixtures.three_pages _ _).
  - reflexivity.
  - lia.
  - vm_compute. reflexivity.
  - reflexivity.
Defined.

(** A block on the second page. *)
Lemma scrape_errors_at_most_one_witness :
  exists (run : scrape_run) (r : ScrapeResult.t),
    @scrape_full strict_host Config.default_ScraperConfig "alice"
      None (Ret Fixtures.alice) Fixtures.blocked_on_page_2 = Some run
    /\ returned run = Ret r
    /\ (length (ScrapeResult.errors r) <= 1)%nat.
Proof.
  eexists. eexists.
  split; [vm_compute; reflexivity|]. split; [reflexivity|].
  eapply (@scrape_errors_at_most_one strict_host "alice"
           Config.default_ScraperConfig None
           (Ret Fixtures.alice) Fixtures.blocked_on_page_2 _ _).
  - vm_compute. reflexivity.
  - reflexivity.
Defined.

Lemma scrape_keeps_profile_witness :
  exists (run : scrape_run) (r : ScrapeResult.t),
    @scrape_full strict_host Config.default_ScraperConfig "alice"
      None (Ret Fixtures.alice) Fixtures.three_pages = Some run
    /\ returned run = Ret r
    /\ (exists v : string,
          ScrapeResult.profile r = ProfileData.set_user_id Fixtures.alice v)
    /\ (PyStr.is_empty (ProfileData.user_id Fixtures.alice) = false ->
        ScrapeResult.profile r = Fixtures.alice).
Proof.
  eexists. eexists.
  split; [vm_compute; reflexivity|]. split; [reflexivity|].
  eapply (@scrape_keeps_profile strict_host "alice"
           Config.default_ScraperConfig None
           Fixtures.alice Fixtures.three_pages _ _).
  - vm_compute. reflexivity.
  - reflexivity.
Defined.

Lemma scrape_requests_chain_witness :
  exists (run : scrape_run) (r : ScrapeResult.t),
    @scrape_full strict_host Config.default_ScraperConfig "alice"
      None (Ret Fixtures.alice) Fixtures.three_pages = Some run
    /\ returned run = Ret r
    /\ (requested run = []
        \/ exists later : list json,
             requested run = JNull :: later
             /\ Forall (fun c => truthy c = true) later).
Proof.
  eexists. eexists.
  split; [vm_compute; reflexivity|]. split; [reflexivity|].
  eapply (@scrape_requests_chain strict_host "alice"
           Config.default_ScraperConfig None
           (Ret Fixtures.alice) Fixtures.three_pages _ _).
  - vm_compute. reflexivity.
  - reflexivity.
Defined.

Lemma scrape_negative_cap_fetches_nothing_witness :
  @scrape_full strict_host Config.default_ScraperConfig "alice"
    (Some (-5)%Z) (Ret Fixtures.alice) Fixtures.three_pages
  = Some (mkScrape (Ret (ScrapeResult.mk Fixtures.alice [] 0 false [])) []).
Proof.
  apply (@scrape_negative_cap_fetches_nothing strict_host "alice"
           Config.default_ScraperConfig (-5)%Z Fixtures.alice
           Fixtures.three_pages).
  lia.
Defined.

End ScrapeWitnesses.

Section PostWitnesses.

Import PyVal Models Parsers Parsers.PostParser.
Local Open Scope string_scope.

Lemma video_flag_matches_media_type_witness :
  exists post : PostData.t,
    @parse_feed_item strict_host Fixtures.reel_item "alice" = Ret post
    /\ In (PostData.media_type post) ["image"; "video"; "carousel"; "reel"]
    /\ (PostData.is_video post = true <->
        PostData.media_type post = "video"
        \/ PostData.media_type post = "reel").
Proof.
  eexists. split; [vm_compute; reflexivity|].
  eapply (@video_flag_matches_media_type strict_host Fixtures.reel_item
           "alice" _).
  vm_compute. reflexivity.
Defined.

Lemma taken_at_follows_timestamp_witness :
  exists post : PostData.t,
    @parse_feed_item strict_host (Fixtures.item 7) "alice" = Ret post
    /\ if (PostData.timestamp post =? 0)%Z
       then PostData.taken_at_datetime post = None
       else PostData.taken_at_datetime post
            = Some (utc (PostData.timestamp post))
            /\ @timestamp_in_range strict_host (PostData.timestamp post) = true.
Proof.
  eexists. split; [vm_compute; reflexivity|].
  eapply (@taken_at_follows_timestamp strict_host (Fixtures.item 7)
           "alice" _).
  vm_compute. reflexivity.
Defined.

Lemma post_init_idempotent_witness :
  exists p : PostData.t,
    @PostData.__init__ strict_host Fixtures.post_with_own_permalink = Ret p
    /\ @PostData.__init__ strict_host p = Ret p.
Proof.
  eexists. split; [vm_compute; reflexivity|].
  eapply (@post_init_idempotent strict_host
           Fixtures.post_with_own_permalink _).
  vm_compute. reflexivity.
Defined.

End PostWitnesses.

Section HeaderWitnesses.

Import PyStr Headers.
Local Open Scope string_scope.

(** The generator of draw 4 (the Edge entry) and of draw 2 (the Firefox
    entry) on an API request. *)
Lemma catalog_headers_well_formed_witness :
  let h := get_ajax_headers (Samples.drawn 4) "936619743392459" "token"
             (Some "129477") in
  (forall (k : string) (v : option string), In (k, v) h -> v <> None)
  /\ ((forall k : string, In k client_hint_names -> header h k = None)
      \/ (forall k : string,
            In k client_hint_names ->
            exists s : string,
              header h k = Some (Some s) /\ is_empty s = false)).
Proof.
  apply (catalog_headers_well_formed (Samples.drawn 4) "936619743392459"
           "token" (Some "129477")).
  - vm_compute. do 4 right. left. reflexivity.
  - right. reflexivity.
Defined.

(** The same start of a session, then the headers of the first feed
    request. *)
Lemma feed_headers_after_profile_fetch_witness :
  let s' := Fetch.mkSession
              (Some (Models.SessionTokens.mk "936619743392459" "new-token"
                       (Some "129477")))
              1 in
  exists t' : Models.SessionTokens.t,
    Fetch.tokens s' = Some t'
    /\ header (Fetch.feed_headers (Samples.drawn 0) s') "X-IG-App-ID"
       = Some (Some (Models.SessionTokens.app_id t'))
    /\ header (Fetch.feed_headers (Samples.drawn 0) s') "X-CSRFToken"
       = Some (Some (Models.SessionTokens.csrf_token t'))
    /\ header (Fetch.feed_headers (Samples.drawn 0) s') "X-ASBD-ID"
       = (if falsy (Models.SessionTokens.asbd_id t') then None
          else Some (Models.SessionTokens.asbd_id t'))
    /\ (Fetch.tokens Samples.fresh_session = None ->
        is_empty (Models.SessionTokens.app_id t') = false
        /\ exists b : string,
             Models.SessionTokens.asbd_id t' = Some b /\ is_empty b = false
             /\ header (Fetch.feed_headers (Samples.drawn 0) s') "X-ASBD-ID"
                = Some (Some b)).
Proof.
  apply (feed_headers_after_profile_fetch (Samples.drawn 0)
           Samples.fresh_session Samples.home_after_503
           (Samples.after_503 Samples.good_profile) Fixtures.mid_draw
           Fixtures.flagged_profile_page).
  vm_compute. reflexivity.
Defined.

End HeaderWitnesses.

Section MoreWitnesses.

Import PyStr PyVal Models Parsers Parsers.PostParser Client BlockSpec
       MediaSpec Headers.
Local Open Scope string_scope.

(** The profile page with both og markers passes. *)
Lemma check_for_blocks_passes_iff_witness :
  ~ Substring "/accounts/login" "/alice/"
  /\ ~ Substring "/challenge" "/alice/"
  /\ ((Substring og_title_marker Fixtures.flagged_profile_page
       /\ Substring og_description_marker Fixtures.flagged_profile_page)
      \/ ((forall bt p : string,
             ~ Denied Config.BLOCK_PATTERNS Fixtures.flagged_profile_page bt p)
          /\ ((1000 <= String.length Fixtures.flagged_profile_page)%nat
              \/ Substring "username" Fixtures.flagged_profile_page))).
Proof.
  apply (proj1 (check_for_blocks_passes_iff "/alice/"
                  Fixtures.flagged_profile_page)).
  vm_compute. reflexivity.
Defined.

Lemma non_objects_never_parse_witness :
  (forall item : json, is_dict item = false ->
     exists e : exn, @parse_feed_item strict_host item "alice" = Raise e)
  /\ @parsed_in_order strict_host
       (filter is_dict [JNull; Fixtures.item 1; JStr "x"]) "alice"
     = @parsed_in_order strict_host [JNull; Fixtures.item 1; JStr "x"] "alice".
Proof.
  exact (@non_objects_never_parse strict_host
           [JNull; Fixtures.item 1; JStr "x"] "alice").
Defined.

(** A cover and two children, the second with a video: four URLs, the
    cover first. *)
Lemma media_urls_order_witness :
  exists (own : list json) (children : list json)
         (per : list (list json)),
    node_urls Samples.album = Ret own
    /\ carousel_children Samples.album = Ret children
    /\ Forall2 (fun child us => node_urls child = Ret us) children per
    /\ [ JStr "https://cdn.example/cover.jpg";
         JStr "https://cdn.example/1.jpg";
         JStr "https://cdn.example/2.jpg";
         JStr "https://cdn.example/2.mp4" ] = (own ++ concat per)%list
    /\ (4 <= 2 + 2 * length children)%nat.
Proof.
  apply (proj1 (media_urls_order Samples.album
                  [ JStr "https://cdn.example/cover.jpg";
                    JStr "https://cdn.example/1.jpg";
                    JStr "https://cdn.example/2.jpg";
                    JStr "https://cdn.example/2.mp4" ])).
  vm_compute. reflexivity.
Defined.

Lemma generator_always_from_catalog_witness :
  exists g : HeaderGenerator,
    __init__ (Some "safari_mac") 3 = Some g
    /\ In (profile_name g, profile_of g) UA_PROFILES
    /\ (forall n : string,
          Some "safari_mac" = Some n -> is_empty n = false ->
          (exists p, In (n, p) UA_PROFILES) ->
          profile_name g = n).
Proof.
  exact (generator_always_from_catalog (Some "safari_mac") 3).
Defined.

End MoreWitnesses.

Section CountWitnesses.

Import PyStr PyNum Parsers Parsers.ProfileParser.
Local Open Scope string_scope.

(** [1e306] is a finite float; its thousandfold is not. *)
Lemma count_string_raises_iff_infinite_witness :
  is_empty "1e306K" = false
  /\ (exists (suffix : string) (mult : Z) (f : pyfloat) (neg : bool),
        In (suffix, mult) multipliers
        /\ endswith (remove_char "," (strip "1e306K")) suffix = true
        /\ float_of_str (drop_last (remove_char "," (strip "1e306K")))
           = Some f
        /\ fmul f (float_of_Z mult) = FInf neg)
  /\ OverflowError "cannot convert float infinity to integer"
     = OverflowError "cannot convert float infinity to integer".
Proof.
  apply (proj1 (count_string_raises_iff_infinite "1e306K"
                  (OverflowError "cannot convert float infinity to integer"))).
  vm_compute. reflexivity.
Defined.

End CountWitnesses.

Section BackoffWitnesses.

Import PyNum Backoff.
Local Open Scope Q_scope.

(** The default policy at the third attempt after a 429, with the draw
    in the middle: 40 seconds before jitter, and 40 seconds returned. *)
Lemma jitter_stays_in_band_witness :
  exists dq : Q,
    @capped_delay round_to_nearest 2 default_config (Some 429%Z)
    = Ret (FFin dq)
    /\ 0 <= dq <= 300
    /\ fle (fmax (fsub (FFin dq) (fmul (FFin dq) quarter)) tenth) (FFin 40)
       = true
    /\ fle (FFin 40) (fmax (fadd (FFin dq) (fmul (FFin dq) quarter)) tenth)
       = true
    /\ fle (FFin 40)
         (fmax (fadd (FFin 300) (fmul (FFin 300) quarter)) tenth)
       = true.
Proof.
  apply (jitter_stays_in_band round_to_nearest default_config (Some 429%Z)
           2%nat 2 2 300 (1 # 2) (FFin 40)).
  - exact round_to_nearest_monotone.
  - reflexivity.
  - vm_compute. discriminate.
  - reflexivity.
  - vm_compute. discriminate.
  - reflexivity.
  - vm_compute. discriminate.
  - vm_compute. reflexivity.
  - reflexivity.
  - split; vm_compute; discriminate.
  - vm_compute. reflexivity.
Defined.

(** The default policy at the fourth attempt: 80 seconds after a 429,
    16 seconds after a 503. *)
Lemma rate_limit_never_shortens_witness :
  @capped_delay round_to_nearest 3 default_config (Some 429%Z)
  = Ret (FFin 80)
  /\ @capped_delay round_to_nearest 3 default_config (Some 503%Z)
     = Ret (FFin 16)
  /\ fle (FFin 16) (FFin 80) = true.
Proof.
  split; [vm_compute; reflexivity|]. split; [vm_compute; reflexivity|].
  apply (rate_limit_never_shortens round_to_nearest default_config
           (Some 503%Z) 3%nat 2 2 (FFin 80) (FFin 16)).
  - exact round_to_nearest_monotone.
  - reflexivity.
  - vm_compute. discriminate.
  - exists 2. split; [vm_compute; reflexivity | reflexivity].
  - reflexivity.
  - vm_compute. discriminate.
  - reflexivity.
  - vm_compute. reflexivity.
  - vm_compute. reflexivity.
Defined.

End BackoffWitnesses.
